(** * The peer address book of coredns-zcash ([zcash/address_book.go])

    A shallow embedding of [Address], its key conversions and the
    [AddressBook] registry, together with the parts of the Go standard
    library ([strconv], [net], [time]) and of [btcd/wire] that the file
    calls.  Go strings are byte strings: they are modelled by [string]
    (a list of 8-bit [ascii]).  Go integers are modelled by [Z]; where the
    source works at a fixed width the wrap-around is written out. *)

From Stdlib Require Import ZArith Ascii Lia Bool.
From stdpp Require Import gmap strings list fin_maps.

Local Open Scope Z_scope.

(** ** Byte strings *)

Module Str.

(** [len(s)] *)
Definition len (s : string) : Z := Z.of_nat (String.length s).

(** the numeric value of a byte *)
Definition code (c : ascii) : Z := Z.of_N (N_of_ascii c).

(** [byte(n)]: conversion of an integer to a byte keeps the low 8 bits *)
Definition chr (n : Z) : ascii := ascii_of_N (Z.to_N (n mod 256)).

Fixpoint drop (n : nat) (s : string) : string :=
  match n, s with
  | O, _ => s
  | S n', String _ s' => drop n' s'
  | S _, EmptyString => EmptyString
  end.

Fixpoint take (n : nat) (s : string) : string :=
  match n, s with
  | O, _ => EmptyString
  | S n', String c s' => String c (take n' s')
  | S _, EmptyString => EmptyString
  end.

(** [s[lo:]], [s[:hi]] and [s[lo:hi]]; every use below has its indices
    in range (Go would panic otherwise). *)
Definition from (lo : Z) (s : string) : string := drop (Z.to_nat lo) s.
Definition upto (hi : Z) (s : string) : string := take (Z.to_nat hi) s.
Definition slice (lo hi : Z) (s : string) : string :=
  take (Z.to_nat (hi - lo)) (drop (Z.to_nat lo) s).

(** [s[i]], [None] when [i] is out of range *)
Definition at_ (s : string) (i : Z) : option ascii :=
  if i <? 0 then None else String.get (Z.to_nat i) s.

(** [bytealg.IndexByteString(s, c)]: index of the first [c], or -1 *)
Fixpoint IndexByteString (s : string) (c : ascii) : Z :=
  match s with
  | EmptyString => -1
  | String x s' =>
      if Ascii.eqb x c then 0
      else let r := IndexByteString s' c in
           if r <? 0 then -1 else r + 1
  end.

(** [net.last(s, b)]: index of the last [b], or -1 (the source scans
    downwards from [len(s)-1]) *)
Fixpoint last (s : string) (b : ascii) : Z :=
  match s with
  | EmptyString => -1
  | String x s' =>
      let r := last s' b in
      if 0 <=? r then r + 1
      else if Ascii.eqb x b then 0 else -1
  end.

End Str.

(** ** Errors

    The two error types that can come out of [fromPeerKey]:
    [*net.AddrError] from [net.SplitHostPort] and [*strconv.NumError]
    from [strconv.ParseUint]. *)

Inductive strconv_err := ErrSyntax | ErrRange | ErrBase (base : Z) | ErrBitSize (bits : Z).

Inductive error :=
| AddrError (Err Addr : string)
| NumError (Func Num : string) (Err : strconv_err).

#[global] Instance strconv_err_eq_dec : EqDecision strconv_err.
Proof. solve_decision. Defined.

#[global] Instance error_eq_dec : EqDecision error.
Proof. solve_decision. Defined.

(** ** strconv *)

Module strconv.

Definition maxUint64 : Z := 2 ^ 64 - 1.
Definition u64 (n : Z) : Z := n mod 2 ^ 64.

(** [lower(c)]: [c | ('x' - 'X')] *)
Definition lower (c : Z) : Z := Z.lor c 32.

(** The digit loop of [ParseUint]: [n] is the value so far; the result
    is the pair the function returns. *)
Fixpoint ParseUint_loop (s0 : string) (base cutoff maxVal : Z)
                        (s : string) (n : Z) : Z * option error :=
  match s with
  | EmptyString => (n, None)
  | String ch s' =>
      let c := Str.code ch in
      let d :=
        if (48 <=? c) && (c <=? 57) then Some (c - 48)
        else if (97 <=? lower c) && (lower c <=? 122) then Some (lower c - 97 + 10)
        else None in
      match d with
      | None => (0, Some (NumError "ParseUint" s0 ErrSyntax))
      | Some d =>
          if base <=? d then (0, Some (NumError "ParseUint" s0 ErrSyntax))
          else if cutoff <=? n then (maxVal, Some (NumError "ParseUint" s0 ErrRange))
          else
            let n := u64 (n * base) in
            let n1 := u64 (n + d) in
            if (n1 <? n) || (maxVal <? n1)
            then (maxVal, Some (NumError "ParseUint" s0 ErrRange))
            else ParseUint_loop s0 base cutoff maxVal s' n1
      end
  end.

(** [strconv.ParseUint(s, base, bitSize)] for an explicit base
    [2 <= base <= 36] and [1 <= bitSize <= 64].  The base-0 prefix
    detection (and with it the underscore rule) is not part of this
    model: the address book calls [ParseUint(portString, 10, 16)]. *)
Definition ParseUint (s : string) (base bitSize : Z) : Z * option error :=
  if String.eqb s "" then (0, Some (NumError "ParseUint" s ErrSyntax))
  else if negb ((2 <=? base) && (base <=? 36))
  then (0, Some (NumError "ParseUint" s (ErrBase base)))
  else if (bitSize <? 1) || (64 <? bitSize)
  then (0, Some (NumError "ParseUint" s (ErrBitSize bitSize)))
  else
    let cutoff := maxUint64 / base + 1 in
    let maxVal := u64 (Z.shiftl 1 bitSize - 1) in
    ParseUint_loop s base cutoff maxVal s 0.

(** the digit loop of [formatBits] for base 10: digits are produced from
    the least significant one, in front of what is already there *)
Fixpoint formatBits (fuel : nat) (us : Z) (acc : string) : string :=
  match fuel with
  | O => acc
  | S fuel' =>
      if 10 <=? us
      then let q := us / 10 in
           formatBits fuel' q (String (Str.chr (48 + us - q * 10)) acc)
      else String (Str.chr (48 + us)) acc
  end.

(** [strconv.Itoa(i)] = [FormatInt(int64(i), 10)]; a 64-bit value has at
    most 20 decimal digits *)
Definition Itoa (i : Z) : string :=
  if i <? 0 then String "-" (formatBits 20 (- i) "")
  else formatBits 20 i "".

End strconv.

(** ** net

    [net.IP] is a byte slice; a [nil] slice and an empty one both have
    length 0 and are both the empty list here.  The parsing and printing
    functions follow [net/ip.go], [net/parse.go] and [net/ipsock.go] of
    the Go 1.17 release. *)

Module net.

Definition IP := list Z.

Definition IPv4len : Z := 4.
Definition IPv6len : Z := 16.

(** [p[i]] on a slice of bytes (every use is within bounds) *)
Definition idx (p : IP) (i : Z) : Z := default 0 (p !! Z.to_nat i).
(** [p[i] = v] *)
Definition upd (p : IP) (i : Z) (v : Z) : IP := <[Z.to_nat i := v]> p.

Definition big : Z := 16777215.

Definition dtoi_end (n i : Z) : Z * Z * bool :=
  if i =? 0 then (0, 0, false) else (n, i, true).

Fixpoint dtoi_loop (s : string) (n i : Z) : Z * Z * bool :=
  match s with
  | EmptyString => dtoi_end n i
  | String ch s' =>
      let c := Str.code ch in
      if (48 <=? c) && (c <=? 57) then
        let n := n * 10 + (c - 48) in
        if big <=? n then (big, i, false) else dtoi_loop s' n (i + 1)
      else dtoi_end n i
  end.

(** [dtoi(s)]: decimal to integer; number, characters consumed, success *)
Definition dtoi (s : string) : Z * Z * bool := dtoi_loop s 0 0.

Definition xtoi_end (n i : Z) : Z * Z * bool :=
  if i =? 0 then (0, i, false) else (n, i, true).

Fixpoint xtoi_loop (s : string) (n i : Z) : Z * Z * bool :=
  match s with
  | EmptyString => xtoi_end n i
  | String ch s' =>
      let c := Str.code ch in
      let d :=
        if (48 <=? c) && (c <=? 57) then Some (c - 48)
        else if (97 <=? c) && (c <=? 102) then Some (c - 97 + 10)
        else if (65 <=? c) && (c <=? 70) then Some (c - 65 + 10)
        else None in
      match d with
      | Some d =>
          let n := n * 16 + d in
          if big <=? n then (0, i, false) else xtoi_loop s' n (i + 1)
      | None => xtoi_end n i
      end
  end.

(** [xtoi(s)]: hexadecimal to integer *)
Definition xtoi (s : string) : Z * Z * bool := xtoi_loop s 0 0.

Definition v4InV6Prefix : IP := [0; 0; 0; 0; 0; 0; 0; 0; 0; 0; 255; 255].

(** [net.IPv4(a, b, c, d)]: the 16-byte form of an IPv4 address *)
Definition IPv4 (a b c d : Z) : IP := v4InV6Prefix ++ [a; b; c; d].

(** the loop of [parseIPv4]; [None] is the [nil] result *)
Fixpoint parseIPv4_loop (fuel : nat) (i : Z) (s : string) (p : IP)
  : option (string * IP) :=
  match fuel with
  | O => Some (s, p)
  | S fuel' =>
      if Str.len s =? 0 then None
      else
        let s1 := if 0 <? i then
                    match s with
                    | String "." r => Some r
                    | _ => None
                    end
                  else Some s in
        match s1 with
        | None => None
        | Some s =>
            let '(n, c, ok) := dtoi s in
            if negb ok || (255 <? n) then None
            else if (1 <? c) && bool_decide (Str.at_ s 0 = Some "0"%char) then None
            else parseIPv4_loop fuel' (i + 1) (Str.from c s) (upd p i (n mod 256))
        end
  end.

Definition parseIPv4 (s : string) : option IP :=
  match parseIPv4_loop 4 0 s [0; 0; 0; 0] with
  | None => None
  | Some (s, p) =>
      if negb (Str.len s =? 0) then None
      else Some (IPv4 (idx p 0) (idx p 1) (idx p 2) (idx p 3))
  end.

(** the main loop of [parseIPv6]: [None] is [return nil], [Some] is the
    state at which the loop is left *)
Fixpoint parseIPv6_loop (fuel : nat) (s : string) (i ellipsis : Z) (ip : IP)
  : option (string * Z * Z * IP) :=
  match fuel with
  | O => Some (s, i, ellipsis, ip)
  | S fuel' =>
      if negb (i <? IPv6len) then Some (s, i, ellipsis, ip)
      else
        let '(n, c, ok) := xtoi s in
        if negb ok || (65535 <? n) then None
        else if (c <? Str.len s) && bool_decide (Str.at_ s c = Some "."%char) then
          if (ellipsis <? 0) && negb (i =? IPv6len - IPv4len) then None
          else if IPv6len <? i + IPv4len then None
          else
            match parseIPv4 s with
            | None => None
            | Some ip4 =>
                let ip := upd ip i (idx ip4 12) in
                let ip := upd ip (i + 1) (idx ip4 13) in
                let ip := upd ip (i + 2) (idx ip4 14) in
                let ip := upd ip (i + 3) (idx ip4 15) in
                Some (""%string, i + IPv4len, ellipsis, ip)
            end
        else
          let ip := upd ip i (Z.shiftr n 8 mod 256) in
          let ip := upd ip (i + 1) (n mod 256) in
          let i := i + 2 in
          let s := Str.from c s in
          if Str.len s =? 0 then Some (s, i, ellipsis, ip)
          else if negb (bool_decide (Str.at_ s 0 = Some ":"%char)) || (Str.len s =? 1)
          then None
          else
            let s := Str.from 1 s in
            if bool_decide (Str.at_ s 0 = Some ":"%char) then
              if 0 <=? ellipsis then None
              else
                let ellipsis := i in
                let s := Str.from 1 s in
                if Str.len s =? 0 then Some (s, i, ellipsis, ip)
                else parseIPv6_loop fuel' s i ellipsis ip
            else parseIPv6_loop fuel' s i ellipsis ip
  end.

(** [for j := hi; j >= lo; j-- { ip[j+n] = ip[j] }], [cnt] iterations *)
Fixpoint move_up (cnt : nat) (j n : Z) (ip : IP) : IP :=
  match cnt with
  | O => ip
  | S cnt' => move_up cnt' (j - 1) n (upd ip (j + n) (idx ip j))
  end.

(** [for j := hi; j >= lo; j-- { ip[j] = 0 }], [cnt] iterations *)
Fixpoint zero_down (cnt : nat) (j : Z) (ip : IP) : IP :=
  match cnt with
  | O => ip
  | S cnt' => zero_down cnt' (j - 1) (upd ip j 0)
  end.

Definition parseIPv6 (s : string) : option IP :=
  let ip := replicate 16 0 in
  let lead := (2 <=? Str.len s) && bool_decide (Str.at_ s 0 = Some ":"%char)
              && bool_decide (Str.at_ s 1 = Some ":"%char) in
  let ellipsis := if lead then 0 else -1 in
  let s := if lead then Str.from 2 s else s in
  if lead && (Str.len s =? 0) then Some ip
  else
    match parseIPv6_loop 8 s 0 ellipsis ip with
    | None => None
    | Some (s, i, ellipsis, ip) =>
        if negb (Str.len s =? 0) then None
        else if i <? IPv6len then
          if ellipsis <? 0 then None
          else
            let n := IPv6len - i in
            let ip := move_up (Z.to_nat (i - ellipsis)) (i - 1) n ip in
            let ip := zero_down (Z.to_nat n) (ellipsis + n - 1) ip in
            Some ip
        else if 0 <=? ellipsis then None
        else Some ip
    end.

(** the scan of [ParseIP] for the first ['.'] or [':'] *)
Fixpoint ParseIP_scan (s0 s : string) : option IP :=
  match s with
  | EmptyString => None
  | String "." _ => parseIPv4 s0
  | String ":" _ => parseIPv6 s0
  | String _ s' => ParseIP_scan s0 s'
  end.

(** [net.ParseIP(s)]; [None] is the [nil] result *)
Definition ParseIP_opt (s : string) : option IP := ParseIP_scan s s.

(** [net.ParseIP(s)] as the slice it returns ([nil] is the empty slice) *)
Definition ParseIP (s : string) : IP := default [] (ParseIP_opt s).

Definition hexDigit : string := "0123456789abcdef".

(** [hexDigit[v]] *)
Definition hexDigit_at (v : Z) : ascii := default "?"%char (Str.at_ hexDigit v).

(** [ubtoa]: the decimal form of a byte, written into the buffer *)
Definition ubtoa (v : Z) : string :=
  if v <? 10 then String (Str.chr (v + 48)) ""
  else if v <? 100 then
    String (Str.chr (v / 10 + 48)) (String (Str.chr (v mod 10 + 48)) "")
  else
    String (Str.chr (v / 100 + 48))
      (String (Str.chr ((v / 10) mod 10 + 48))
         (String (Str.chr (v mod 10 + 48)) "")).

(** [appendHex(dst, i)]: [for j := 7; j >= 0; j--] *)
Fixpoint appendHex_loop (cnt : nat) (dst : string) (i : Z) : string :=
  match cnt with
  | O => dst
  | S j =>
      let v := Z.shiftr i (Z.of_nat j * 4) in
      let dst := if 0 <? v then dst +:+ String (hexDigit_at (Z.land v 15)) ""
                 else dst in
      appendHex_loop j dst i
  end.

Definition appendHex (dst : string) (i : Z) : string :=
  if i =? 0 then dst +:+ "0" else appendHex_loop 8 dst i.

(** [hexString(b)] *)
Fixpoint hexString (b : IP) : string :=
  match b with
  | [] => ""
  | tn :: b' =>
      String (hexDigit_at (Z.shiftr tn 4))
        (String (hexDigit_at (Z.land tn 15)) (hexString b'))
  end.

(** [isZeros(p)] *)
Definition isZeros (p : IP) : bool := forallb (fun b => b =? 0) p.

(** [ip.To4()]; [nil] is the empty slice *)
Definition To4 (ip : IP) : IP :=
  if Z.of_nat (length ip) =? IPv4len then ip
  else if (Z.of_nat (length ip) =? IPv6len) && isZeros (take 10 ip)
          && (idx ip 10 =? 255) && (idx ip 11 =? 255)
  then take 4 (drop 12 ip)
  else [].

(** the inner loop of the search for the longest run of zeros:
    [for j < IPv6len && p[j] == 0 && p[j+1] == 0 { j += 2 }] *)
Fixpoint zeros_end (fuel : nat) (p : IP) (j : Z) : Z :=
  match fuel with
  | O => j
  | S fuel' =>
      if (j <? IPv6len) && (idx p j =? 0) && (idx p (j + 1) =? 0)
      then zeros_end fuel' p (j + 2) else j
  end.

(** the outer loop: [(e0, e1)] is the longest run found so far *)
Fixpoint zeros_loop (fuel : nat) (p : IP) (i e0 e1 : Z) : Z * Z :=
  match fuel with
  | O => (e0, e1)
  | S fuel' =>
      if negb (i <? IPv6len) then (e0, e1)
      else
        let j := zeros_end 8 p i in
        if (i <? j) && (e1 - e0 <? j - i)
        then zeros_loop fuel' p (j + 2) i j
        else zeros_loop fuel' p (i + 2) e0 e1
  end.

Definition longest_zeros (p : IP) : Z * Z :=
  let '(e0, e1) := zeros_loop 8 p 0 (-1) (-1) in
  if e1 - e0 <=? 2 then (-1, -1) else (e0, e1).

(** the printing loop of the IPv6 form *)
Fixpoint print6_loop (fuel : nat) (p : IP) (e0 e1 : Z) (i : Z) (b : string) : string :=
  match fuel with
  | O => b
  | S fuel' =>
      if negb (i <? IPv6len) then b
      else if i =? e0 then
        let b := b +:+ "::" in
        let i := e1 in
        if IPv6len <=? i then b
        else
          let b := appendHex b (Z.lor (Z.shiftl (idx p i) 8) (idx p (i + 1))) in
          print6_loop fuel' p e0 e1 (i + 2) b
      else
        let b := if 0 <? i then b +:+ ":" else b in
        let b := appendHex b (Z.lor (Z.shiftl (idx p i) 8) (idx p (i + 1))) in
        print6_loop fuel' p e0 e1 (i + 2) b
  end.

(** [ip.String()] *)
Definition IP_String (ip : IP) : string :=
  if Z.of_nat (length ip) =? 0 then "<nil>"
  else
    let p4 := To4 ip in
    if Z.of_nat (length p4) =? IPv4len then
      ubtoa (idx p4 0) +:+ "." +:+ ubtoa (idx p4 1) +:+ "."
        +:+ ubtoa (idx p4 2) +:+ "." +:+ ubtoa (idx p4 3)
    else if negb (Z.of_nat (length ip) =? IPv6len) then "?" +:+ hexString ip
    else
      let '(e0, e1) := longest_zeros ip in
      print6_loop 8 ip e0 e1 0 "".

(** [net.JoinHostPort(host, port)] *)
Definition JoinHostPort (host port : string) : string :=
  if 0 <=? Str.IndexByteString host ":" then "[" +:+ host +:+ "]:" +:+ port
  else host +:+ ":" +:+ port.

Definition addrErr (addr why : string) : string * string * option error :=
  (""%string, ""%string, Some (AddrError why addr)).

Definition missingPort : string := "missing port in address".
Definition tooManyColons : string := "too many colons in address".

(** [net.SplitHostPort(hostport)] returns [(host, port, err)] *)
Definition SplitHostPort (hostport : string) : string * string * option error :=
  let i := Str.last hostport ":" in
  if i <? 0 then addrErr hostport missingPort
  else
    let bracketed := bool_decide (Str.at_ hostport 0 = Some "["%char) in
    let r : option error + (string * Z * Z) :=
      if bracketed then
        let end_ := Str.IndexByteString hostport "]" in
        if end_ <? 0 then inl (Some (AddrError "missing ']' in address" hostport))
        else if end_ + 1 =? Str.len hostport
        then inl (Some (AddrError missingPort hostport))
        else if end_ + 1 =? i
        then inr (Str.slice 1 end_ hostport, 1, end_ + 1)
        else if bool_decide (Str.at_ hostport (end_ + 1) = Some ":"%char)
        then inl (Some (AddrError tooManyColons hostport))
        else inl (Some (AddrError missingPort hostport))
      else
        let host := Str.upto i hostport in
        if 0 <=? Str.IndexByteString host ":"
        then inl (Some (AddrError tooManyColons hostport))
        else inr (host, 0, 0) in
    match r with
    | inl e => (""%string, ""%string, e)
    | inr (host, j, k) =>
        if 0 <=? Str.IndexByteString (Str.from j hostport) "["
        then addrErr hostport "unexpected '[' in address"
        else if 0 <=? Str.IndexByteString (Str.from k hostport) "]"
        then addrErr hostport "unexpected ']' in address"
        else (host, Str.from (i + 1) hostport, None)
    end.

End net.

(** ** time and btcd/wire *)

Module time.

(** An instant, as nanoseconds since the Unix epoch.  (The monotonic
    clock reading and the location a [time.Time] also carries play no
    part in the address book.) *)
Definition Time := Z.

(** [t.Unix()]: seconds since the epoch *)
Definition Unix (t : Time) : Z := t / 1000000000.

(** [time.Unix(sec, nsec)] *)
Definition FromUnix (sec nsec : Z) : Time := sec * 1000000000 + nsec.

(** the zero [time.Time]: January 1 of year 1, 00:00:00 UTC *)
Definition Zero : Time := FromUnix (-62135596800) 0.

End time.

Module wire.

(** [wire.NetAddress].  [IP] is a slice: copying the struct copies the
    slice header and shares the bytes.  No method of the address book
    writes to these bytes, and the model keeps them by value. *)
Record NetAddress := mkNetAddress {
  Timestamp : time.Time;
  Services : Z;
  IP : net.IP;
  Port : Z
}.

(** The value [wire.NewNetAddressTimestamp] builds (it returns a pointer
    to it): the timestamp is limited to one second precision. *)
Definition NewNetAddressTimestamp_val
    (timestamp : time.Time) (services : Z) (ip : net.IP) (port : Z) : NetAddress :=
  {| Timestamp := time.FromUnix (time.Unix timestamp) 0;
     Services := services;
     IP := ip;
     Port := port |}.

End wire.

(** ** Package [zcash] *)

Module zcash.

(** *** The heap

    [Address.netaddr] is a [*wire.NetAddress] and the book maps keys to
    [*Address]: both kinds of object live in a store, and the methods
    read and write them through locations.  A run-time panic (a nil
    pointer dereference) is the result [None]. *)

Definition loc := positive.

(** Modelled from the spec: the type [PeerKey] is declared in another file
    of the package; the spec describes it as the [host:port] text itself,
    and the source converts with [PeerKey(a.String())] and [s.String()]. *)
Definition PeerKey := string.
Definition PeerKey_String (s : PeerKey) : string := s.

(** [type Address struct]; [netaddr] is [None] for the nil pointer *)
Record Address := mkAddress {
  netaddr : option loc;
  blacklisted : bool;
  lastUpdate : time.Time
}.

(** [Address{}] *)
Definition Address_zero : Address :=
  {| netaddr := None; blacklisted := false; lastUpdate := time.Zero |}.

(** The program state the address book lives in: the two stores and the
    map [bk.addrs] of the one book.  The lock [addrState] and the
    condition [addrRecvCond] make each method body one atomic step and
    are not represented. *)
Record State := mkState {
  netaddrs : gmap loc wire.NetAddress;
  addresses : gmap loc Address;
  addrs : gmap PeerKey loc
}.

Definition M (A : Type) : Type := State -> option (A * State).

Definition ret {A} (x : A) : M A := fun st => Some (x, st).
Definition bind {A B} (m : M A) (f : A -> M B) : M B :=
  fun st => match m st with
            | Some (x, st') => f x st'
            | None => None
            end.
Definition panic {A} : M A := fun _ => None.

Declare Scope go_scope.
Delimit Scope go_scope with go.
Notation "'let!' x ':=' m 'in' k" := (bind m (fun x => k))
  (at level 10, x name, m at level 100, k at level 200, only parsing) : go_scope.
Notation "'do!' m 'in' k" := (bind m (fun _ => k))
  (at level 10, m at level 100, k at level 200, only parsing) : go_scope.
Local Open Scope go_scope.

(** [*a] for [a : *Address] *)
Definition load_Address (a : loc) : M Address :=
  fun st => match addresses st !! a with
            | Some v => Some (v, st)
            | None => None
            end.

(** a field assignment through [a : *Address] *)
Definition modify_Address (a : loc) (f : Address -> Address) : M unit :=
  fun st => match addresses st !! a with
            | Some v => Some (tt, mkState (netaddrs st) (<[a := f v]> (addresses st)) (addrs st))
            | None => None
            end.

(** [&Address{...}] *)
Definition alloc_Address (v : Address) : M loc :=
  fun st => let l := fresh (dom (addresses st)) in
            Some (l, mkState (netaddrs st) (<[l := v]> (addresses st)) (addrs st)).

(** [*na] for [na : *wire.NetAddress]; a nil pointer panics *)
Definition load_NetAddress (na : option loc) : M wire.NetAddress :=
  fun st => match na with
            | Some l => match netaddrs st !! l with
                        | Some v => Some (v, st)
                        | None => None
                        end
            | None => None
            end.

(** [&v] for a [wire.NetAddress] value [v] *)
Definition alloc_NetAddress (v : wire.NetAddress) : M loc :=
  fun st => let l := fresh (dom (netaddrs st)) in
            Some (l, mkState (<[l := v]> (netaddrs st)) (addresses st) (addrs st)).

Definition set_netaddr (p : option loc) (a : Address) : Address :=
  mkAddress p (blacklisted a) (lastUpdate a).
Definition set_blacklisted (b : bool) (a : Address) : Address :=
  mkAddress (netaddr a) b (lastUpdate a).
Definition set_lastUpdate (t : time.Time) (a : Address) : Address :=
  mkAddress (netaddr a) (blacklisted a) t.

(** *** Address *)

(** [func (a *Address) String() string] *)
Definition Address_String (a : loc) : M string :=
  let! A := load_Address a in
  let! na := load_NetAddress (netaddr A) in
  let portString := strconv.Itoa (wire.Port na) in
  ret (net.JoinHostPort (net.IP_String (wire.IP na)) portString).

(** [func (a *Address) asPeerKey() PeerKey] *)
Definition asPeerKey (a : loc) : M PeerKey := Address_String a.

(** [func (a *Address) fromPeerKey(s PeerKey)], returning [*Address] and [error]; [now] is
    what [time.Now()] returns during the call.  The result pointer is
    [None] for nil. *)
Definition fromPeerKey (now : time.Time) (a : loc) (s : PeerKey)
  : M (option loc * option error) :=
  let '(host, portString, err) := net.SplitHostPort (PeerKey_String s) in
  match err with
  | Some e => ret (None, Some e)
  | None =>
      let '(portInt, err) := strconv.ParseUint portString 10 16 in
      match err with
      | Some e => ret (None, Some e)
      | None =>
          let! na := alloc_NetAddress
                  (wire.NewNetAddressTimestamp_val now 0 (net.ParseIP host)
                     (portInt mod 65536)) in
          do! modify_Address a (set_netaddr (Some na)) in
          do! modify_Address a (set_blacklisted false) in
          let! naV := load_NetAddress (Some na) in
          do! modify_Address a (set_lastUpdate (wire.Timestamp naV)) in
          ret (Some a, None)
      end
  end.

(** [func (a *Address) asNetAddress() *wire.NetAddress] *)
Definition asNetAddress (a : loc) : M loc :=
  let! A := load_Address a in
  let! newNA := load_NetAddress (netaddr A) in
  let newNA := wire.mkNetAddress (lastUpdate A) (wire.Services newNA)
                 (wire.IP newNA) (wire.Port newNA) in
  alloc_NetAddress newNA.

(** [func (a *Address) fromNetAddress(na *wire.NetAddress)], returning [*Address] and [error] *)
Definition fromNetAddress (a : loc) (na : option loc) : M (option loc * option error) :=
  do! modify_Address a (set_netaddr na) in
  do! modify_Address a (set_blacklisted false) in
  let! naV := load_NetAddress na in
  do! modify_Address a (set_lastUpdate (wire.Timestamp naV)) in
  ret (Some a, None).

(** [func (a *Address) MarshalText() (text []byte, err error)] *)
Definition MarshalText (a : loc) : M (list Byte.byte * option error) :=
  let! s := Address_String a in
  ret (String.list_byte_of_string s, None).

(** *** AddressBook *)

(** [NewAddressBook()], in a store with nothing else in it *)
Definition NewAddressBook : State := mkState ∅ ∅ ∅.

(** [bk.addrs[s]], with the [ok] of the two-valued form as the option *)
Definition lookup_addr (s : PeerKey) : M (option loc) :=
  fun st => Some (addrs st !! s, st).

(** [bk.addrs[s] = a] *)
Definition store_addr (s : PeerKey) (a : loc) : M unit :=
  fun st => Some (tt, mkState (netaddrs st) (addresses st) (<[s := a]> (addrs st))).

(** [delete(bk.addrs, s)] *)
Definition delete_addr (s : PeerKey) : M unit :=
  fun st => Some (tt, mkState (netaddrs st) (addresses st) (delete s (addrs st))).

(** [func (bk *AddressBook) Add(s PeerKey)] *)
Definition Add (now : time.Time) (s : PeerKey) : M unit :=
  let! a := alloc_Address Address_zero in
  let! r := fromPeerKey now a s in
  match r with
  | (_, Some _) => ret tt
  | (Some newAddr, None) => store_addr s newAddr
  | (None, None) => panic
  end.

(** [func (bk *AddressBook) Remove(s PeerKey)] *)
Definition Remove (s : PeerKey) : M unit :=
  let! t := lookup_addr s in
  match t with
  | Some _ => delete_addr s
  | None => ret tt
  end.

(** [func (bk *AddressBook) Blacklist(s PeerKey)] *)
Definition Blacklist (now : time.Time) (s : PeerKey) : M unit :=
  let! t := lookup_addr s in
  match t with
  | Some target =>
      do! modify_Address target (set_blacklisted true) in
      modify_Address target (set_lastUpdate now)
  | None =>
      let! a := alloc_Address Address_zero in
      let! r := fromPeerKey now a s in
      match r with
      | (_, Some _) => ret tt
      | (Some addr, None) =>
          do! modify_Address addr (set_blacklisted true) in
          store_addr s addr
      | (None, None) => panic
      end
  end.

(** [func (bk *AddressBook) Touch(s PeerKey)] *)
Definition Touch (now : time.Time) (s : PeerKey) : M unit :=
  let! t := lookup_addr s in
  match t with
  | Some target => modify_Address target (set_lastUpdate now)
  | None => ret tt
  end.

(** [func (bk *AddressBook) IsKnown(s PeerKey) bool] *)
Definition IsKnown (s : PeerKey) : M bool :=
  let! t := lookup_addr s in
  ret (match t with Some _ => true | None => false end).

(** [func (bk *AddressBook) IsBlacklisted(s PeerKey) bool] *)
Definition IsBlacklisted (s : PeerKey) : M bool :=
  let! t := lookup_addr s in
  match t with
  | Some target => let! A := load_Address target in ret (blacklisted A)
  | None => ret false
  end.

(** [len(bk.addrs)], the count [waitForAddresses] compares with [n] *)
Definition addrCount (st : State) : Z := Z.of_nat (size (addrs st)).

End zcash.

Import zcash.
Local Open Scope go_scope.

(** * Notions used in the statements *)

(** ** The parsing step and the states the methods lead to *)

(** The two parsing calls at the head of [fromPeerKey], with the host and
    port they yield or the error on which [fromPeerKey] returns. *)
Definition parsePeerKey (s : PeerKey) : (string * Z) + error :=
  let '(host, portString, err) := net.SplitHostPort (PeerKey_String s) in
  match err with
  | Some e => inr e
  | None =>
      let '(portInt, err) := strconv.ParseUint portString 10 16 in
      match err with
      | Some e => inr e
      | None => inl (host, portInt)
      end
  end.

(** The state [fromPeerKey] leaves when parsing succeeds: a new
    [wire.NetAddress] and the receiver pointing to it. *)
Definition parsed_state (now : time.Time) (a : loc) (host : string) (port : Z)
    (st : State) : State :=
  let n := fresh (dom (netaddrs st)) in
  let na := wire.NewNetAddressTimestamp_val now 0 (net.ParseIP host) (port mod 65536) in
  mkState (<[n := na]> (netaddrs st))
          (<[a := mkAddress (Some n) false (wire.Timestamp na)]> (addresses st))
          (addrs st).

(** The state after [&Address{}] and a failed parse: the book is as it
    was, and the temporary record is an object nothing points to. *)
Definition dropped_state (st : State) : State :=
  mkState (netaddrs st)
          (<[fresh (dom (addresses st)) := Address_zero]> (addresses st))
          (addrs st).

(** The state after a new record for [s] has been built and stored in
    the map; [flag] is its [blacklisted] field. *)
Definition inserted_state (now : time.Time) (s : PeerKey) (host : string)
    (port : Z) (flag : bool) (st : State) : State :=
  let a := fresh (dom (addresses st)) in
  let n := fresh (dom (netaddrs st)) in
  let na := wire.NewNetAddressTimestamp_val now 0 (net.ParseIP host) (port mod 65536) in
  mkState (<[n := na]> (netaddrs st))
          (<[a := mkAddress (Some n) flag (wire.Timestamp na)]> (addresses st))
          (<[s := a]> (addrs st)).

(** ** The content of the registry, its invariant, its reachable states *)

(** An entry as a reader of the book sees it: the record with its
    [netaddr] pointer followed. *)
Record Entry := mkEntry {
  endpoint : option wire.NetAddress;
  flagged : bool;
  updated : time.Time
}.

Definition entry_of (st : State) (A : Address) : Entry :=
  mkEntry (match netaddr A with
           | Some n => netaddrs st !! n
           | None => None
           end)
          (blacklisted A) (lastUpdate A).

(** The registry: key text to entry. *)
Definition registry (st : State) : gmap PeerKey Entry :=
  omap (fun l => entry_of st <$> addresses st !! l) (addrs st).

(** The rendering of the host and port that a key text parses to. *)
Definition canonical (host : string) (port : Z) : string :=
  net.JoinHostPort (net.IP_String (net.ParseIP host)) (strconv.Itoa port).

(** The record at [l] was built from the key text [k]. *)
Definition built_from (st : State) (k : PeerKey) (l : loc) : Prop :=
  exists A n na host port,
    addresses st !! l = Some A /\ netaddr A = Some n /\
    netaddrs st !! n = Some na /\
    parsePeerKey k = inl (host, port) /\
    wire.IP na = net.ParseIP host /\ wire.Port na = port /\ wire.Services na = 0.

Record wf (st : State) : Prop := mkWf {
  wf_built : forall k l, addrs st !! k = Some l -> built_from st k l;
  wf_unshared : forall k1 k2 l,
      addrs st !! k1 = Some l -> addrs st !! k2 = Some l -> k1 = k2
}.

(** One call of a mutating method of the book. *)
Inductive step (st st' : State) : Prop :=
| step_Add now s : Add now s st = Some (tt, st') -> step st st'
| step_Remove s : Remove s st = Some (tt, st') -> step st st'
| step_Blacklist now s : Blacklist now s st = Some (tt, st') -> step st st'
| step_Touch now s : Touch now s st = Some (tt, st') -> step st st'.

(** The states a book can be in: a new book, then any calls. *)
Inductive reachable : State -> Prop :=
| reachable_new : reachable NewAddressBook
| reachable_step st st' : reachable st -> step st st' -> reachable st'.

(** ** Example states *)

(** a book to which ["10.0.0.1:8233"] was added at time 0 *)
Definition book_one : State := inserted_state 0 "10.0.0.1:8233" "10.0.0.1" 8233 false NewAddressBook.

(** ... and then ["10.0.0.1:08233"], the same endpoint written differently *)
Definition book_two : State := inserted_state 0 "10.0.0.1:08233" "10.0.0.1" 8233 false book_one.

(** ** Classes of bytes and of texts *)

(** the bytes of [s] all satisfy [P] *)
Fixpoint all_bytes (P : ascii -> bool) (s : string) : bool :=
  match s with
  | EmptyString => true
  | String x s' => P x && all_bytes P s'
  end.

(** [s] does not contain the byte [c] *)
Definition lacks (c : ascii) (s : string) : Prop :=
  all_bytes (fun x => negb (Ascii.eqb x c)) s = true.

Definition is_digit (x : ascii) : bool :=
  (48 <=? Str.code x) && (Str.code x <=? 57).

(** a lower-case hexadecimal digit *)
Definition is_hex (x : ascii) : bool :=
  is_digit x || ((97 <=? Str.code x) && (Str.code x <=? 102)).

(** [s] is empty or begins with a byte that is not [P] *)
Definition stops (P : ascii -> bool) (s : string) : Prop :=
  match s with
  | EmptyString => True
  | String x _ => P x = false
  end.

(** ** Numerals *)

(** what holds of the decimal form of every byte *)
Definition ubtoa_ok (v : Z) : bool :=
  let s := net.ubtoa v in
  (let '(n, c, ok) := net.dtoi s in (n =? v) && (c =? Str.len s) && ok)
  && all_bytes is_digit s
  && (0 <? Str.len s)
  && negb ((1 <? Str.len s)
           && match s with String x _ => Ascii.eqb x "0" | _ => false end).

(** the hexadecimal form of a 16-bit group *)
Definition hex (g : Z) : string := net.appendHex "" g.

Definition hex_ok (g : Z) : bool :=
  let s := hex g in
  (let '(n, c, ok) := net.xtoi s in (n =? g) && (c =? Str.len s) && ok)
  && all_bytes is_hex s
  && (0 <? Str.len s).

(** what holds of the decimal form of every port *)
Definition Itoa_ok (p : Z) : bool :=
  let s := strconv.Itoa p in
  match strconv.ParseUint s 10 16 with
  | (v, None) => v =? p
  | (_, Some _) => false
  end
  && all_bytes is_digit s.

(** ** The text of an IPv6 address *)

(** the bytes at which a hexadecimal number ends and that are not a dot *)
Definition ends_group (s : string) : Prop :=
  match s with
  | EmptyString => True
  | String x _ => x = ":"%char
  end.

Definition zero_between (p : net.IP) (lo hi : Z) : Prop :=
  forall t, lo <= t < hi -> net.idx p t = 0.

(** what is known of the run the search returns *)
Definition run_ok (p : net.IP) (e0 e1 : Z) : Prop :=
  (e0 = -1 /\ e1 = -1) \/
  (0 <= e0 /\ e0 < e1 /\ e1 <= 16 /\ e0 mod 2 = 0 /\ e1 mod 2 = 0 /\ zero_between p e0 e1).

(** the 16-bit group made of two bytes *)
Definition group (hi lo : Z) : Z := Z.lor (Z.shiftl hi 8) lo.

Definition group_ok (hi lo : Z) : bool :=
  (0 <=? group hi lo) && (group hi lo <? 65536)
  && (Z.shiftr (group hi lo) 8 mod 256 =? hi) && (group hi lo mod 256 =? lo).

(** the end of [parseIPv6], after its loop *)
Definition finish6 (r : option (string * Z * Z * net.IP)) : option net.IP :=
  match r with
  | None => None
  | Some (s, i, ellipsis, ip) =>
      if negb (Str.len s =? 0) then None
      else if i <? net.IPv6len then
        if ellipsis <? 0 then None
        else
          let n := net.IPv6len - i in
          let ip := net.move_up (Z.to_nat (i - ellipsis)) (i - 1) n ip in
          let ip := net.zero_down (Z.to_nat n) (ellipsis + n - 1) ip in
          Some ip
      else if 0 <=? ellipsis then None
      else Some ip
  end.

(** The IPv6 text written from the left, group by group: what
    [print6_loop] appends to its buffer. *)
Fixpoint render6 (fuel : nat) (p : net.IP) (e0 e1 : Z) (i : Z) : string :=
  match fuel with
  | O => ""
  | S fuel' =>
      if negb (i <? net.IPv6len) then ""
      else if i =? e0 then
        if net.IPv6len <=? e1 then "::"
        else "::" +:+ hex (group (net.idx p e1) (net.idx p (e1 + 1)))
                  +:+ render6 fuel' p e0 e1 (e1 + 2)
      else
        (if 0 <? i then ":" else "")
          +:+ hex (group (net.idx p i) (net.idx p (i + 1)))
          +:+ render6 fuel' p e0 e1 (i + 2)
  end.

(** ** Addresses *)

Definition is_byte (b : Z) : Prop := 0 <= b < 256.

(** the IPv6 text of a 16-byte address, as [IP.String] writes it *)
Definition text6 (ip : net.IP) : string :=
  let '(e0, e1) := net.longest_zeros ip in net.print6_loop 8 ip e0 e1 0 "".

(** [ip.To16()]: the 16-byte form of an address *)
Definition To16 (ip : net.IP) : net.IP :=
  if Z.of_nat (length ip) =? net.IPv4len
  then net.IPv4 (net.idx ip 0) (net.idx ip 1) (net.idx ip 2) (net.idx ip 3)
  else if Z.of_nat (length ip) =? net.IPv6len then ip
  else [].

(** an address as the book can hold it: nil, or four or sixteen bytes *)
Definition valid_ip (ip : net.IP) : Prop :=
  Forall is_byte ip /\ (length ip = 0 \/ length ip = 4 \/ length ip = 16)%nat.

(** the dotted text of four bytes *)
Definition dotted (a b c d : Z) : string :=
  net.ubtoa a +:+ "." +:+ net.ubtoa b +:+ "." +:+ net.ubtoa c +:+ "." +:+ net.ubtoa d.

(** the bytes an address text is made of *)
Definition is_host_byte (x : ascii) : bool :=
  is_hex x || Ascii.eqb x ":" || Ascii.eqb x "." || Ascii.eqb x "<" || Ascii.eqb x ">"
  || Ascii.eqb x "n" || Ascii.eqb x "i" || Ascii.eqb x "l".

(** ** From key text to record and back *)

(** the conversion of a key text to a record and back to a key text, on a
    record made for the purpose *)
Definition parse_then_render (now : time.Time) (t : PeerKey) : M (option PeerKey) :=
  let! a := alloc_Address Address_zero in
  let! r := fromPeerKey now a t in
  match r with
  | (Some a', None) => let! k := asPeerKey a' in ret (Some k)
  | _ => ret None
  end.

(** ** Calls on a given key *)

(** One call of a mutating method of the book with the key text [s]. *)
Inductive call (s : PeerKey) (st st' : State) : Prop :=
| call_Add now : Add now s st = Some (tt, st') -> call s st st'
| call_Remove : Remove s st = Some (tt, st') -> call s st st'
| call_Blacklist now : Blacklist now s st = Some (tt, st') -> call s st st'
| call_Touch now : Touch now s st = Some (tt, st') -> call s st st'.

(** ** The value of a decimal numeral *)

(** the number a string of decimal digits stands for, continuing from [n] *)
Fixpoint dec_value (s : string) (n : Z) : Z :=
  match s with
  | EmptyString => n
  | String c s' => dec_value s' (n * 10 + (Str.code c - 48))
  end.

(** ** The registry as a map from key text to entry *)

(** the mutating methods of the book, with the time of the call *)
Inductive method :=
| mAdd (now : time.Time)
| mRemove
| mBlacklist (now : time.Time)
| mTouch (now : time.Time).

Definition invoke (m : method) (s : PeerKey) : M unit :=
  match m with
  | mAdd now => Add now s
  | mRemove => Remove s
  | mBlacklist now => Blacklist now s
  | mTouch now => Touch now s
  end.

(** the entry of the record [fromPeerKey] builds from [s] at time [now],
    with the flag [flag]; none if [s] does not parse *)
Definition new_entry (now : time.Time) (s : PeerKey) (flag : bool) : option Entry :=
  match parsePeerKey s with
  | inl (host, port) =>
      Some (mkEntry (Some (wire.mkNetAddress (time.FromUnix (time.Unix now) 0) 0
                             (net.ParseIP host) port))
                    flag (time.FromUnix (time.Unix now) 0))
  | inr _ => None
  end.

(** what a method called with [s] makes of the entry of [s] *)
Definition entry_after (m : method) (s : PeerKey) (o : option Entry) : option Entry :=
  match m with
  | mAdd now =>
      match new_entry now s false with
      | Some e => Some e
      | None => o
      end
  | mRemove => None
  | mBlacklist now =>
      match o with
      | Some e => Some (mkEntry (endpoint e) true now)
      | None => new_entry now s true
      end
  | mTouch now =>
      match o with
      | Some e => Some (mkEntry (endpoint e) (flagged e) now)
      | None => None
      end
  end.

(** * Properties *)

(** ** The parsing step of [fromPeerKey] *)

Lemma fromPeerKey_error now a s e st :
  parsePeerKey s = inr e ->
  fromPeerKey now a s st = Some ((None, Some e), st).
Proof.
  unfold parsePeerKey, fromPeerKey.
  destruct (net.SplitHostPort (PeerKey_String s)) as [[host portString] [e1|]].
  - intros [= <-]. reflexivity.
  - destruct (strconv.ParseUint portString 10 16) as [portInt [e2|]].
    + intros [= <-]. reflexivity.
    + discriminate.
Qed.

Lemma fromPeerKey_success now a s host port st A :
  parsePeerKey s = inl (host, port) ->
  addresses st !! a = Some A ->
  fromPeerKey now a s st = Some ((Some a, None), parsed_state now a host port st).
Proof.
  unfold parsePeerKey, fromPeerKey.
  destruct (net.SplitHostPort (PeerKey_String s)) as [[host' portString] [e1|]];
    [discriminate|].
  destruct (strconv.ParseUint portString 10 16) as [portInt [e2|]]; [discriminate|].
  intros [= -> ->] HA.
  unfold bind, alloc_NetAddress, modify_Address, load_NetAddress, ret, parsed_state.
  cbn [addresses netaddrs addrs]. rewrite HA.
  do 3 (cbn [addresses netaddrs addrs]; rewrite ?lookup_insert_eq).
  cbn [addresses netaddrs addrs]. rewrite !insert_insert_eq. reflexivity.
Qed.

(** ** What each method does to the state *)

Lemma Add_error now s e st :
  parsePeerKey s = inr e ->
  Add now s st = Some (tt, dropped_state st).
Proof.
  intros He. unfold Add, bind, alloc_Address.
  rewrite (fromPeerKey_error _ _ _ _ _ He). reflexivity.
Qed.

Lemma Add_success now s host port st :
  parsePeerKey s = inl (host, port) ->
  Add now s st = Some (tt, inserted_state now s host port false st).
Proof.
  intros Hp. unfold Add, bind, alloc_Address.
  erewrite (fromPeerKey_success _ _ _ _ _ _ _ Hp);
    [|cbn [addresses]; apply lookup_insert_eq].
  unfold store_addr, parsed_state, inserted_state. cbn [addresses netaddrs addrs].
  rewrite insert_insert_eq. reflexivity.
Qed.

Lemma Remove_eq s st :
  Remove s st = Some (tt, mkState (netaddrs st) (addresses st) (delete s (addrs st))).
Proof.
  unfold Remove, bind, lookup_addr, delete_addr, ret.
  destruct (addrs st !! s) eqn:E; [reflexivity|].
  rewrite delete_id by assumption. destruct st; reflexivity.
Qed.

Lemma Touch_absent now s st :
  addrs st !! s = None -> Touch now s st = Some (tt, st).
Proof. intros E. unfold Touch, bind, lookup_addr, ret. rewrite E. reflexivity. Qed.

Lemma Touch_present now s st l A :
  addrs st !! s = Some l -> addresses st !! l = Some A ->
  Touch now s st =
    Some (tt, mkState (netaddrs st) (<[l := set_lastUpdate now A]> (addresses st)) (addrs st)).
Proof.
  intros E HA. unfold Touch, bind, lookup_addr, modify_Address.
  rewrite E, HA. reflexivity.
Qed.

Lemma Blacklist_present now s st l A :
  addrs st !! s = Some l -> addresses st !! l = Some A ->
  Blacklist now s st =
    Some (tt, mkState (netaddrs st)
                (<[l := mkAddress (netaddr A) true now]> (addresses st)) (addrs st)).
Proof.
  intros E HA. unfold Blacklist, bind, lookup_addr, modify_Address.
  rewrite E, HA. cbn [addresses netaddrs addrs].
  rewrite lookup_insert_eq, insert_insert_eq. reflexivity.
Qed.

Lemma Blacklist_absent_error now s e st :
  addrs st !! s = None -> parsePeerKey s = inr e ->
  Blacklist now s st = Some (tt, dropped_state st).
Proof.
  intros E He. unfold Blacklist, bind, lookup_addr, alloc_Address.
  rewrite E. rewrite (fromPeerKey_error _ _ _ _ _ He). reflexivity.
Qed.

Lemma Blacklist_absent_success now s host port st :
  addrs st !! s = None -> parsePeerKey s = inl (host, port) ->
  Blacklist now s st = Some (tt, inserted_state now s host port true st).
Proof.
  intros E Hp. unfold Blacklist, bind, lookup_addr, alloc_Address. rewrite E.
  erewrite (fromPeerKey_success _ _ _ _ _ _ _ Hp);
    [|cbn [addresses]; apply lookup_insert_eq].
  unfold store_addr, modify_Address, parsed_state, inserted_state.
  cbn [addresses netaddrs addrs].
  rewrite insert_insert_eq, lookup_insert_eq.
  cbn [addresses netaddrs addrs].
  rewrite insert_insert_eq. reflexivity.
Qed.

Lemma IsKnown_eq s st :
  IsKnown s st = Some (bool_decide (is_Some (addrs st !! s)), st).
Proof.
  unfold IsKnown, bind, lookup_addr, ret.
  destruct (addrs st !! s) eqn:E;
    [rewrite bool_decide_eq_true_2 by eauto
    |rewrite bool_decide_eq_false_2 by (intros [? ?]; discriminate)];
    reflexivity.
Qed.

(** ** The port is a 16-bit value *)

Lemma ParseUint_loop_range s0 base cutoff maxVal s n v :
  0 <= n <= maxVal ->
  strconv.ParseUint_loop s0 base cutoff maxVal s n = (v, None) ->
  0 <= v <= maxVal.
Proof.
  revert n. induction s as [|ch s IH]; intros n Hn; cbn -[Z.mul Z.add].
  - intros [= <-]. exact Hn.
  - destruct (_ : option Z) as [d|]; [|discriminate].
    destruct (base <=? d); [discriminate|].
    destruct (cutoff <=? n); [discriminate|].
    destruct (_ || _) eqn:E; [discriminate|].
    apply orb_false_iff in E as [_ E2]. apply Z.ltb_ge in E2.
    apply IH. split; [|exact E2].
    unfold strconv.u64. apply Z.mod_pos_bound. lia.
Qed.

Lemma parsePeerKey_port_range s host port :
  parsePeerKey s = inl (host, port) -> 0 <= port <= 65535.
Proof.
  unfold parsePeerKey.
  destruct (net.SplitHostPort _) as [[h ps] [e|]]; [discriminate|].
  destruct (strconv.ParseUint ps 10 16) as [v [e|]] eqn:E; [discriminate|].
  intros [= <- <-]. unfold strconv.ParseUint in E.
  destruct (String.eqb ps ""); [discriminate|]. cbn in E.
  apply ParseUint_loop_range in E; [exact E|]. vm_compute. split; discriminate.
Qed.

(** ** The content of the registry and its invariant *)

Lemma fresh_addresses_None st : addresses st !! fresh (dom (addresses st)) = None.
Proof. apply not_elem_of_dom, is_fresh. Qed.

Lemma fresh_netaddrs_None st : netaddrs st !! fresh (dom (netaddrs st)) = None.
Proof. apply not_elem_of_dom, is_fresh. Qed.

Lemma built_from_allocated st k l :
  built_from st k l -> l <> fresh (dom (addresses st)).
Proof.
  intros (A & n & na & host & port & HA & _) ->.
  rewrite fresh_addresses_None in HA. discriminate.
Qed.

Lemma built_from_dropped st k l :
  built_from st k l -> built_from (dropped_state st) k l.
Proof.
  intros H. pose proof (built_from_allocated _ _ _ H) as Hne.
  destruct H as (A & n & na & host & port & HA & Hn & Hna & Hp).
  exists A, n, na, host, port. split; [|auto].
  cbn. rewrite lookup_insert_ne by congruence. exact HA.
Qed.

Lemma built_from_inserted_old now s host port flag st k l :
  built_from st k l -> built_from (inserted_state now s host port flag st) k l.
Proof.
  intros H. pose proof (built_from_allocated _ _ _ H) as Hne.
  destruct H as (A & n & na & host' & port' & HA & Hn & Hna & Hp).
  exists A, n, na, host', port'. cbn.
  rewrite lookup_insert_ne by congruence. split; [exact HA|]. split; [exact Hn|].
  split; [|exact Hp].
  rewrite lookup_insert_ne; [exact Hna|].
  intros <-. rewrite fresh_netaddrs_None in Hna. discriminate.
Qed.

Lemma built_from_inserted_new now s host port flag st :
  parsePeerKey s = inl (host, port) ->
  built_from (inserted_state now s host port flag st) s (fresh (dom (addresses st))).
Proof.
  intros Hp. pose proof (parsePeerKey_port_range _ _ _ Hp) as Hr.
  eexists _, _, _, host, port. cbn.
  rewrite !lookup_insert_eq. repeat split; try reflexivity; try exact Hp.
  cbn. apply Z.mod_small. lia.
Qed.

Lemma wf_inserted now s host port flag st :
  parsePeerKey s = inl (host, port) ->
  wf st -> wf (inserted_state now s host port flag st).
Proof.
  intros Hp [Hb Hu]. split.
  - intros k l. cbn [addrs inserted_state]. rewrite lookup_insert.
    case_decide as Hk.
    + intros [= <-]. subst k. apply built_from_inserted_new, Hp.
    + intros Hl. apply built_from_inserted_old, Hb, Hl.
  - intros k1 k2 l. cbn [addrs inserted_state]. rewrite !lookup_insert.
    repeat case_decide; subst; try congruence.
    + intros [= <-] H2. apply Hb, built_from_allocated in H2. congruence.
    + intros H1 [= <-]. apply Hb, built_from_allocated in H1. congruence.
    + apply Hu.
Qed.

Lemma wf_dropped st : wf st -> wf (dropped_state st).
Proof.
  intros [Hb Hu]. split.
  - intros k l Hl. apply built_from_dropped, Hb, Hl.
  - exact Hu.
Qed.

Lemma built_from_modified st k l l' A f :
  addresses st !! l' = Some A ->
  netaddr (f A) = netaddr A ->
  built_from st k l ->
  built_from (mkState (netaddrs st) (<[l' := f A]> (addresses st)) (addrs st)) k l.
Proof.
  intros HA Hf (B & n & na & host & port & HB & Hn & Hna & Hp).
  destruct (decide (l' = l)) as [->|Hne].
  - exists (f A), n, na, host, port. cbn. rewrite lookup_insert_eq.
    split; [reflexivity|]. split; [congruence|]. auto.
  - exists B, n, na, host, port. cbn. rewrite lookup_insert_ne by exact Hne. auto.
Qed.

Lemma wf_modified st l A f :
  addresses st !! l = Some A ->
  netaddr (f A) = netaddr A ->
  wf st ->
  wf (mkState (netaddrs st) (<[l := f A]> (addresses st)) (addrs st)).
Proof.
  intros HA Hf [Hb Hu]. split.
  - intros k l' Hl. apply built_from_modified; auto.
  - exact Hu.
Qed.

Lemma wf_deleted st s :
  wf st -> wf (mkState (netaddrs st) (addresses st) (delete s (addrs st))).
Proof.
  intros [Hb Hu]. split.
  - intros k l. cbn [addrs]. rewrite lookup_delete.
    case_decide; [discriminate|]. intros Hl.
    destruct (Hb _ _ Hl) as (A & n & na & host & port & Hrec).
    exists A, n, na, host, port. exact Hrec.
  - intros k1 k2 l. cbn [addrs]. rewrite !lookup_delete.
    repeat case_decide; try discriminate. apply Hu.
Qed.

Lemma wf_new : wf NewAddressBook.
Proof. split; intros *; cbn; rewrite lookup_empty; discriminate. Qed.

Lemma wf_step st st' : wf st -> step st st' -> wf st'.
Proof.
  intros Hwf [now s H|s H|now s H|now s H].
  - destruct (parsePeerKey s) as [[host port]|e] eqn:Hp.
    + rewrite (Add_success _ _ _ _ _ Hp) in H; simplify_eq.
      apply wf_inserted; assumption.
    + rewrite (Add_error _ _ _ _ Hp) in H; simplify_eq.
      apply wf_dropped; assumption.
  - rewrite Remove_eq in H; simplify_eq. apply wf_deleted; assumption.
  - destruct (addrs st !! s) as [l|] eqn:E.
    + destruct (wf_built _ Hwf _ _ E) as (A & n & na & host & port & HA & _).
      rewrite (Blacklist_present _ _ _ _ _ E HA) in H; simplify_eq.
      apply (wf_modified st l A (fun A => mkAddress (netaddr A) true now)); auto.
    + destruct (parsePeerKey s) as [[host port]|e] eqn:Hp.
      * rewrite (Blacklist_absent_success _ _ _ _ _ E Hp) in H; simplify_eq.
        apply wf_inserted; assumption.
      * rewrite (Blacklist_absent_error _ _ _ _ E Hp) in H; simplify_eq.
        apply wf_dropped; assumption.
  - destruct (addrs st !! s) as [l|] eqn:E.
    + destruct (wf_built _ Hwf _ _ E) as (A & n & na & host & port & HA & _).
      rewrite (Touch_present _ _ _ _ _ E HA) in H; simplify_eq.
      apply (wf_modified st l A (set_lastUpdate now)); auto.
    + rewrite (Touch_absent _ _ _ E) in H; simplify_eq. assumption.
Qed.

Lemma reachable_wf st : reachable st -> wf st.
Proof.
  induction 1 as [|st st' _ IH Hs]; [apply wf_new|].
  eapply wf_step; eassumption.
Qed.

(** ** The registry after each kind of state change *)

Lemma registry_lookup st k :
  registry st !! k =
    match addrs st !! k with
    | Some l => entry_of st <$> addresses st !! l
    | None => None
    end.
Proof. unfold registry. rewrite lookup_omap. destruct (addrs st !! k); reflexivity. Qed.

Lemma registry_present st k l :
  wf st -> addrs st !! k = Some l ->
  exists A, addresses st !! l = Some A /\ registry st !! k = Some (entry_of st A).
Proof.
  intros Hwf E. destruct (wf_built _ Hwf _ _ E) as (A & n & na & h & p & HA & _).
  exists A. split; [exact HA|]. rewrite registry_lookup, E, HA. reflexivity.
Qed.

Lemma registry_None st k :
  wf st -> registry st !! k = None <-> addrs st !! k = None.
Proof.
  intros Hwf. split.
  - destruct (addrs st !! k) as [l|] eqn:E; [|reflexivity].
    destruct (registry_present _ _ _ Hwf E) as (A & _ & HR). congruence.
  - intros E. rewrite registry_lookup, E. reflexivity.
Qed.

Lemma registry_dropped st : wf st -> registry (dropped_state st) = registry st.
Proof.
  intros Hwf. apply map_eq. intros k. rewrite !registry_lookup.
  unfold dropped_state. cbn [addrs addresses].
  destruct (addrs st !! k) as [l|] eqn:E; [|reflexivity].
  pose proof (built_from_allocated _ _ _ (wf_built _ Hwf _ _ E)) as Hne.
  rewrite lookup_insert_ne by congruence. reflexivity.
Qed.

Lemma entry_of_same_endpoint st st' A n :
  netaddr A = Some n -> netaddrs st' !! n = netaddrs st !! n ->
  entry_of st' A = entry_of st A.
Proof. intros Hn E. unfold entry_of. rewrite Hn, E. reflexivity. Qed.

Lemma registry_inserted now s host port flag st :
  wf st ->
  registry (inserted_state now s host port flag st) =
    <[s := mkEntry (Some (wire.NewNetAddressTimestamp_val now 0 (net.ParseIP host)
                            (port mod 65536)))
                   flag (time.FromUnix (time.Unix now) 0)]> (registry st).
Proof.
  intros Hwf. apply map_eq. intros k. rewrite registry_lookup.
  rewrite lookup_insert. unfold inserted_state.
  cbn [addrs addresses]. rewrite lookup_insert. case_decide as Hk.
  - rewrite lookup_insert_eq. cbn.
    unfold entry_of. cbn. rewrite lookup_insert_eq. reflexivity.
  - rewrite registry_lookup. destruct (addrs st !! k) as [l|] eqn:E; [|reflexivity].
    pose proof (wf_built _ Hwf _ _ E) as Hb.
    pose proof (built_from_allocated _ _ _ Hb) as Hne.
    destruct Hb as (A & n & na & h & p & HA & Hn & Hna & _).
    rewrite lookup_insert_ne by congruence. rewrite HA. cbn.
    f_equal. apply (entry_of_same_endpoint st _ A n); [exact Hn|].
    cbn [netaddrs]. apply lookup_insert_ne.
    intros <-. rewrite fresh_netaddrs_None in Hna. discriminate.
Qed.

Lemma registry_modified st k l A f :
  wf st -> addrs st !! k = Some l -> addresses st !! l = Some A ->
  registry (mkState (netaddrs st) (<[l := f A]> (addresses st)) (addrs st)) =
    <[k := entry_of st (f A)]> (registry st).
Proof.
  intros Hwf E HA. apply map_eq. intros k'. rewrite registry_lookup.
  cbn [addrs addresses]. rewrite lookup_insert. case_decide as Hk.
  - subst k'. rewrite E, lookup_insert_eq. reflexivity.
  - rewrite registry_lookup. destruct (addrs st !! k') as [l'|] eqn:E'; [|reflexivity].
    rewrite lookup_insert_ne; [reflexivity|].
    intros <-. apply Hk. eapply wf_unshared; eassumption.
Qed.

Lemma registry_deleted st s :
  registry (mkState (netaddrs st) (addresses st) (delete s (addrs st))) =
    delete s (registry st).
Proof.
  apply map_eq. intros k. rewrite registry_lookup. cbn [addrs addresses].
  rewrite !lookup_delete. case_decide; [reflexivity|].
  rewrite registry_lookup. reflexivity.
Qed.

Lemma IsKnown_present st k l :
  addrs st !! k = Some l -> IsKnown k st = Some (true, st).
Proof. intros E. unfold IsKnown, bind, lookup_addr, ret. rewrite E. reflexivity. Qed.

Lemma IsKnown_absent st k :
  addrs st !! k = None -> IsKnown k st = Some (false, st).
Proof. intros E. unfold IsKnown, bind, lookup_addr, ret. rewrite E. reflexivity. Qed.

Lemma IsBlacklisted_present st k l A :
  addrs st !! k = Some l -> addresses st !! l = Some A ->
  IsBlacklisted k st = Some (blacklisted A, st).
Proof.
  intros E HA. unfold IsBlacklisted, bind, lookup_addr, load_Address, ret.
  rewrite E, HA. reflexivity.
Qed.

Lemma Address_String_eq st a A n na :
  addresses st !! a = Some A -> netaddr A = Some n -> netaddrs st !! n = Some na ->
  Address_String a st =
    Some (net.JoinHostPort (net.IP_String (wire.IP na)) (strconv.Itoa (wire.Port na)), st).
Proof.
  intros HA Hn Hna. unfold Address_String, bind, load_Address, load_NetAddress, ret.
  rewrite HA, Hn, Hna. reflexivity.
Qed.

(** ** Example states *)

Lemma reachable_book_one : reachable book_one.
Proof.
  apply (reachable_step NewAddressBook); [apply reachable_new|].
  apply (step_Add _ _ 0 "10.0.0.1:8233"). apply Add_success. reflexivity.
Qed.

Lemma reachable_book_two : reachable book_two.
Proof.
  apply (reachable_step book_one); [apply reachable_book_one|].
  apply (step_Add _ _ 0 "10.0.0.1:08233"). apply Add_success. reflexivity.
Qed.

(** ** C2: the entry count under Remove, Blacklist and Touch *)

Lemma addrCount_inserted now s host port flag st :
  addrs st !! s = None ->
  addrCount (inserted_state now s host port flag st) = addrCount st + 1.
Proof.
  intros E. unfold addrCount, inserted_state. cbn [addrs].
  rewrite map_size_insert_None by exact E. lia.
Qed.

(** C2, refuted as stated: on a new book, [Blacklist] of a well-formed key
    that is not present stores a record, taking the count from 0 to 1. *)
Lemma Blacklist_raises_count :
  addrCount NewAddressBook = 0 /\
  (fun r => addrCount (snd r)) <$> Blacklist 0 "10.0.0.1:8233" NewAddressBook = Some 1.
Proof. split; vm_compute; reflexivity. Qed.

(** C2, amended: in every reachable state [Remove] never raises the entry
    count, [Touch] keeps it, and [Blacklist] keeps it when the key is
    present or does not parse and raises it by exactly one when the key is
    absent and parses. *)
Theorem count_after_Remove_Touch_Blacklist st now s :
  reachable st ->
  (exists st', Remove s st = Some (tt, st') /\ addrCount st' <= addrCount st) /\
  (exists st', Touch now s st = Some (tt, st') /\ addrCount st' = addrCount st) /\
  (exists st', Blacklist now s st = Some (tt, st') /\
     addrCount st' =
       match addrs st !! s, parsePeerKey s with
       | None, inl _ => addrCount st + 1
       | _, _ => addrCount st
       end).
Proof.
  intros Hr. pose proof (reachable_wf _ Hr) as Hwf. repeat split.
  - eexists. split; [apply Remove_eq|]. unfold addrCount. cbn [addrs].
    destruct (addrs st !! s) eqn:E.
    + rewrite map_size_delete_Some by eauto. lia.
    + rewrite delete_id by exact E. lia.
  - destruct (addrs st !! s) as [l|] eqn:E.
    + destruct (wf_built _ Hwf _ _ E) as (A & n & na & h & p & HA & _).
      eexists. split; [apply (Touch_present _ _ _ _ _ E HA)|]. reflexivity.
    + eexists. split; [apply (Touch_absent _ _ _ E)|]. reflexivity.
  - destruct (addrs st !! s) as [l|] eqn:E.
    + destruct (wf_built _ Hwf _ _ E) as (A & n & na & h & p & HA & _).
      eexists. split; [apply (Blacklist_present _ _ _ _ _ E HA)|]. reflexivity.
    + destruct (parsePeerKey s) as [[host port]|e] eqn:Hp.
      * eexists. split; [apply (Blacklist_absent_success _ _ _ _ _ E Hp)|].
        apply addrCount_inserted, E.
      * eexists. split; [apply (Blacklist_absent_error _ _ _ _ E Hp)|]. reflexivity.
Qed.

Lemma count_after_Remove_Touch_Blacklist_witness :
  (exists st', Remove "10.0.0.1:8233" book_one = Some (tt, st')
               /\ addrCount st' <= addrCount book_one) /\
  (exists st', Touch 7 "10.0.0.1:8233" book_one = Some (tt, st')
               /\ addrCount st' = addrCount book_one) /\
  (exists st', Blacklist 7 "10.0.0.1:8233" book_one = Some (tt, st')
               /\ addrCount st' = addrCount book_one).
Proof.
  exact (count_after_Remove_Touch_Blacklist book_one 7 "10.0.0.1:8233" reachable_book_one).
Defined.

(** ** C4: Blacklist *)

(** C4: [Blacklist(k)] on a present key sets the flag and sets
    [lastUpdate] to the current time, leaving the endpoint and all other
    entries as they were; on an absent key that parses it stores a
    blacklisted record, after which [IsKnown(k)] and [IsBlacklisted(k)] are
    true; on an absent key that does not parse the registry is unchanged. *)
Theorem Blacklist_behaviour st now k :
  reachable st ->
  exists st', Blacklist now k st = Some (tt, st') /\
    match registry st !! k, parsePeerKey k with
    | Some e, _ =>
        registry st' = <[k := mkEntry (endpoint e) true now]> (registry st)
    | None, inl _ =>
        IsKnown k st' = Some (true, st') /\
        IsBlacklisted k st' = Some (true, st') /\
        exists e, flagged e = true /\ registry st' = <[k := e]> (registry st)
    | None, inr _ => registry st' = registry st
    end.
Proof.
  intros Hr. pose proof (reachable_wf _ Hr) as Hwf.
  destruct (addrs st !! k) as [l|] eqn:E.
  - destruct (registry_present _ _ _ Hwf E) as (A & HA & HR). rewrite HR.
    eexists. split; [apply (Blacklist_present _ _ _ _ _ E HA)|].
    apply (registry_modified st k l A (fun A => mkAddress (netaddr A) true now) Hwf E HA).
  - rewrite (proj2 (registry_None _ k Hwf) E).
    destruct (parsePeerKey k) as [[host port]|e] eqn:Hp.
    + eexists. split; [apply (Blacklist_absent_success _ _ _ _ _ E Hp)|].
      split; [|split].
      * apply (IsKnown_present _ k (fresh (dom (addresses st)))).
        unfold inserted_state. cbn [addrs]. apply lookup_insert_eq.
      * apply (IsBlacklisted_present _ k (fresh (dom (addresses st)))
                 (mkAddress (Some (fresh (dom (netaddrs st)))) true
                    (time.FromUnix (time.Unix now) 0)));
          unfold inserted_state; cbn [addrs addresses]; apply lookup_insert_eq.
      * eexists. split; [|apply registry_inserted, Hwf]. reflexivity.
    + eexists. split; [apply (Blacklist_absent_error _ _ _ _ E Hp)|].
      apply registry_dropped, Hwf.
Qed.

Lemma Blacklist_behaviour_witness :
  (exists st', Blacklist 7 "10.0.0.1:8233" book_one = Some (tt, st') /\
     registry st' =
       <[ "10.0.0.1:8233" :=
            mkEntry (Some (wire.mkNetAddress 0 0 (net.IPv4 10 0 0 1) 8233)) true 7]>
         (registry book_one)) /\
  (exists st', Blacklist 7 "10.0.0.2:8233" book_one = Some (tt, st') /\
     IsKnown "10.0.0.2:8233" st' = Some (true, st') /\
     IsBlacklisted "10.0.0.2:8233" st' = Some (true, st') /\
     exists e, flagged e = true /\
               registry st' = <[ "10.0.0.2:8233" := e]> (registry book_one)) /\
  (exists st', Blacklist 7 "not-an-address" book_one = Some (tt, st') /\
     registry st' = registry book_one).
Proof.
  split; [|split].
  - exact (Blacklist_behaviour book_one 7 "10.0.0.1:8233" reachable_book_one).
  - exact (Blacklist_behaviour book_one 7 "10.0.0.2:8233" reachable_book_one).
  - exact (Blacklist_behaviour book_one 7 "not-an-address" reachable_book_one).
Defined.

(** ** C5: adding again clears the flag *)

(** C5: for a key text [k] that parses, [Blacklist(k)] followed by
    [Add(k)] leaves [IsBlacklisted(k)] false: [Add] stores a new record
    whose flag is false in place of the old one. *)
Theorem readd_resets_blacklist st now1 now2 k host port :
  reachable st ->
  parsePeerKey k = inl (host, port) ->
  exists st1 st2,
    Blacklist now1 k st = Some (tt, st1) /\
    IsBlacklisted k st1 = Some (true, st1) /\
    Add now2 k st1 = Some (tt, st2) /\
    IsBlacklisted k st2 = Some (false, st2).
Proof.
  intros Hr Hp. pose proof (reachable_wf _ Hr) as Hwf.
  assert (exists st1, Blacklist now1 k st = Some (tt, st1) /\
                      IsBlacklisted k st1 = Some (true, st1)) as (st1 & HB & HI).
  { destruct (addrs st !! k) as [l|] eqn:E.
    - destruct (wf_built _ Hwf _ _ E) as (A & n & na & h & p & HA & _).
      eexists. split; [apply (Blacklist_present _ _ _ _ _ E HA)|].
      apply (IsBlacklisted_present _ k l (mkAddress (netaddr A) true now1));
        cbn [addrs addresses]; [exact E|apply lookup_insert_eq].
    - eexists. split; [apply (Blacklist_absent_success _ _ _ _ _ E Hp)|].
      apply (IsBlacklisted_present _ k (fresh (dom (addresses st)))
               (mkAddress (Some (fresh (dom (netaddrs st)))) true
                  (time.FromUnix (time.Unix now1) 0)));
        unfold inserted_state; cbn [addrs addresses]; apply lookup_insert_eq. }
  exists st1. eexists. split; [exact HB|]. split; [exact HI|].
  split; [apply (Add_success _ _ _ _ _ Hp)|].
  apply (IsBlacklisted_present _ k (fresh (dom (addresses st1)))
           (mkAddress (Some (fresh (dom (netaddrs st1)))) false
              (time.FromUnix (time.Unix now2) 0)));
    unfold inserted_state; cbn [addrs addresses]; apply lookup_insert_eq.
Qed.

Lemma readd_resets_blacklist_witness :
  exists st1 st2,
    Blacklist 3 "10.0.0.1:8223" book_one = Some (tt, st1) /\
    IsBlacklisted "10.0.0.1:8223" st1 = Some (true, st1) /\
    Add 5 "10.0.0.1:8223" st1 = Some (tt, st2) /\
    IsBlacklisted "10.0.0.1:8223" st2 = Some (false, st2).
Proof.
  apply (readd_resets_blacklist book_one 3 5 "10.0.0.1:8223" "10.0.0.1" 8223).
  - exact reachable_book_one.
  - reflexivity.
Defined.

(** ** C6: malformed input to Add *)

(** C6: when the parse step fails on [s], [Add(s)] returns normally, the
    registry is what it was, and [IsKnown(s)] is false afterwards. *)
Theorem Add_malformed_is_absorbed st now s e :
  reachable st ->
  parsePeerKey s = inr e ->
  exists st', Add now s st = Some (tt, st') /\
    registry st' = registry st /\
    addrs st' = addrs st /\
    IsKnown s st' = Some (false, st').
Proof.
  intros Hr He. pose proof (reachable_wf _ Hr) as Hwf.
  exists (dropped_state st). split; [apply (Add_error _ _ _ _ He)|].
  split; [apply registry_dropped, Hwf|]. split; [reflexivity|].
  apply IsKnown_absent. cbn [dropped_state addrs].
  destruct (addrs st !! s) as [l|] eqn:E; [|reflexivity].
  destruct (wf_built _ Hwf _ _ E) as (A & n & na & h & p & _ & _ & _ & Hp & _).
  congruence.
Qed.

Lemma Add_malformed_is_absorbed_witness :
  (exists st', Add 9 "not-an-address" book_one = Some (tt, st') /\
     registry st' = registry book_one /\
     addrs st' = addrs book_one /\
     IsKnown "not-an-address" st' = Some (false, st')) /\
  (exists st', Add 9 "10.0.0.1:65536" book_one = Some (tt, st') /\
     registry st' = registry book_one /\
     addrs st' = addrs book_one /\
     IsKnown "10.0.0.1:65536" st' = Some (false, st')).
Proof.
  split.
  - apply (Add_malformed_is_absorbed book_one 9 "not-an-address"
             (AddrError "missing port in address" "not-an-address")).
    + exact reachable_book_one.
    + reflexivity.
  - apply (Add_malformed_is_absorbed book_one 9 "10.0.0.1:65536"
             (NumError "ParseUint" "65536" ErrRange)).
    + exact reachable_book_one.
    + reflexivity.
Defined.

(** ** C7: Touch *)

(** C7: [Touch(k)] on an absent key leaves the whole state as it is (and
    [IsKnown(k)] false); on a present key the only change in the registry
    is that entry's [lastUpdate]: its endpoint and flag, and every other
    entry, are as before. *)
Theorem Touch_conditional_minimal st now k :
  reachable st ->
  match registry st !! k with
  | None => Touch now k st = Some (tt, st) /\ IsKnown k st = Some (false, st)
  | Some e =>
      exists st', Touch now k st = Some (tt, st') /\
        registry st' = <[k := mkEntry (endpoint e) (flagged e) now]> (registry st) /\
        netaddrs st' = netaddrs st /\ addrs st' = addrs st
  end.
Proof.
  intros Hr. pose proof (reachable_wf _ Hr) as Hwf.
  destruct (addrs st !! k) as [l|] eqn:E.
  - destruct (registry_present _ _ _ Hwf E) as (A & HA & HR). rewrite HR.
    eexists. split; [apply (Touch_present _ _ _ _ _ E HA)|].
    split; [|split; reflexivity].
    apply (registry_modified st k l A (set_lastUpdate now) Hwf E HA).
  - rewrite (proj2 (registry_None _ k Hwf) E).
    split; [apply Touch_absent, E|apply IsKnown_absent, E].
Qed.

Lemma Touch_conditional_minimal_witness :
  (Touch 7 "10.0.0.2:8233" book_one = Some (tt, book_one) /\
   IsKnown "10.0.0.2:8233" book_one = Some (false, book_one)) /\
  (exists st', Touch 7 "10.0.0.1:8233" book_one = Some (tt, st') /\
     registry st' =
       <[ "10.0.0.1:8233" :=
            mkEntry (Some (wire.mkNetAddress 0 0 (net.IPv4 10 0 0 1) 8233)) false 7]>
         (registry book_one) /\
     netaddrs st' = netaddrs book_one /\ addrs st' = addrs book_one).
Proof.
  split.
  - exact (Touch_conditional_minimal book_one 7 "10.0.0.2:8233" reachable_book_one).
  - exact (Touch_conditional_minimal book_one 7 "10.0.0.1:8233" reachable_book_one).
Defined.

(** ** C8: conversion to [wire.NetAddress] *)

(** C8: for a record [a] with an endpoint, [asNetAddress] returns a new
    [wire.NetAddress] whose [Timestamp] is [a.lastUpdate] and whose other
    fields are those of the stored endpoint; the record, the stored
    endpoint and every other object are unchanged. *)
Theorem asNetAddress_copies st a A n na :
  addresses st !! a = Some A ->
  netaddr A = Some n ->
  netaddrs st !! n = Some na ->
  exists l st', asNetAddress a st = Some (l, st') /\
    netaddrs st' !! l =
      Some (wire.mkNetAddress (lastUpdate A) (wire.Services na) (wire.IP na) (wire.Port na)) /\
    netaddrs st !! l = None /\
    (forall l', l' <> l -> netaddrs st' !! l' = netaddrs st !! l') /\
    addresses st' = addresses st /\
    addrs st' = addrs st.
Proof.
  intros HA Hn Hna. exists (fresh (dom (netaddrs st))). eexists. split.
  - unfold asNetAddress, bind, load_Address, load_NetAddress, alloc_NetAddress.
    rewrite HA, Hn, Hna. reflexivity.
  - cbn [netaddrs addresses addrs]. split; [apply lookup_insert_eq|].
    split; [apply fresh_netaddrs_None|]. split; [|split; reflexivity].
    intros l' Hne. apply lookup_insert_ne. congruence.
Qed.

Lemma asNetAddress_copies_witness :
  exists l st', asNetAddress 1%positive book_one = Some (l, st') /\
    netaddrs st' !! l = Some (wire.mkNetAddress 0 0 (net.IPv4 10 0 0 1) 8233) /\
    netaddrs book_one !! l = None /\
    (forall l', l' <> l -> netaddrs st' !! l' = netaddrs book_one !! l') /\
    addresses st' = addresses book_one /\
    addrs st' = addrs book_one.
Proof.
  apply (asNetAddress_copies book_one 1%positive (mkAddress (Some 1%positive) false 0)
           1%positive (wire.mkNetAddress 0 0 (net.IPv4 10 0 0 1) 8233));
    reflexivity.
Defined.

(** ** C10: MarshalText *)

(** C10, refuted as stated: [Add] of a text that does not parse leaves
    behind the [&Address{}] it made for the parse.  That is a record, its
    [netaddr] is nil, and [MarshalText] on it panics in [String]: it
    returns neither bytes nor an error. *)
Lemma MarshalText_panics_on_empty_record :
  exists st,
    Add 0 "not-an-address" NewAddressBook = Some (tt, st) /\
    reachable st /\
    addresses st !! 1%positive = Some Address_zero /\
    MarshalText 1%positive st = None /\
    forall r st', MarshalText 1%positive st <> Some (r, st').
Proof.
  assert (Add 0 "not-an-address" NewAddressBook
          = Some (tt, dropped_state NewAddressBook)) as HAdd
    by (eapply Add_error; vm_compute; reflexivity).
  exists (dropped_state NewAddressBook).
  split; [exact HAdd|]. split.
  - apply (reachable_step NewAddressBook); [apply reachable_new|].
    exact (step_Add _ _ 0 "not-an-address" HAdd).
  - split; [reflexivity|].
    assert (MarshalText 1%positive (dropped_state NewAddressBook) = None) as HM
      by reflexivity.
    split; [exact HM|]. intros r st'. rewrite HM. discriminate.
Qed.

(** C10, amended: [MarshalText] is total and infallible on the records
    that have an endpoint, and on no others.  For a record [a]:
    - if [a.netaddr] is nil, [MarshalText] panics;
    - if [a.netaddr] points to an endpoint, [MarshalText] returns the bytes
      of [a.String()], that is of the rendered host:port, together with a
      nil error, and changes nothing;
    - whenever [MarshalText] returns, the error is nil, the state is as it
      was, and the bytes are the rendering of the record's endpoint;
    - in a reachable state every record stored in the book has an
      endpoint, so [MarshalText] returns its rendering and a nil error. *)
Theorem MarshalText_total_with_endpoint st a A :
  addresses st !! a = Some A ->
  let text na := net.JoinHostPort (net.IP_String (wire.IP na)) (strconv.Itoa (wire.Port na)) in
  (netaddr A = None -> MarshalText a st = None) /\
  (forall n na, netaddr A = Some n -> netaddrs st !! n = Some na ->
     Address_String a st = Some (text na, st) /\
     MarshalText a st = Some ((String.list_byte_of_string (text na), None), st)) /\
  (forall r st1, MarshalText a st = Some (r, st1) ->
     snd r = None /\ st1 = st /\
     exists n na, netaddr A = Some n /\ netaddrs st !! n = Some na /\
       fst r = String.list_byte_of_string (text na)) /\
  (reachable st -> forall k, addrs st !! k = Some a ->
     exists n na, netaddr A = Some n /\ netaddrs st !! n = Some na /\
       MarshalText a st = Some ((String.list_byte_of_string (text na), None), st)).
Proof.
  intros HA text.
  assert (forall n na, netaddr A = Some n -> netaddrs st !! n = Some na ->
            Address_String a st = Some (text na, st) /\
            MarshalText a st = Some ((String.list_byte_of_string (text na), None), st))
    as Hok.
  { intros n na Hn Hna.
    pose proof (Address_String_eq _ _ _ _ _ HA Hn Hna) as HS. fold (text na) in HS.
    split; [exact HS|]. unfold MarshalText, bind. rewrite HS. reflexivity. }
  split; [|split; [exact Hok|split]].
  - intros Hn. unfold MarshalText, Address_String, bind, load_Address, load_NetAddress.
    rewrite HA, Hn. reflexivity.
  - intros r st1 HM.
    destruct (netaddr A) as [n|] eqn:Hn.
    + destruct (netaddrs st !! n) as [na|] eqn:Hna.
      * destruct (Hok n na eq_refl Hna) as [_ HM']. rewrite HM' in HM.
        injection HM as <- <-. cbn [fst snd]. eauto 8.
      * exfalso. revert HM.
        unfold MarshalText, Address_String, bind, load_Address, load_NetAddress.
        rewrite HA, Hn, Hna. discriminate.
    + exfalso. revert HM.
      unfold MarshalText, Address_String, bind, load_Address, load_NetAddress.
      rewrite HA, Hn. discriminate.
  - intros Hr k E. pose proof (reachable_wf _ Hr) as Hwf.
    destruct (wf_built _ Hwf _ _ E) as (A' & n & na & h & p & HA' & Hn & Hna & _).
    rewrite HA in HA'. injection HA' as <-.
    exists n, na. split; [exact Hn|]. split; [exact Hna|].
    exact (proj2 (Hok n na Hn Hna)).
Qed.

Lemma MarshalText_total_with_endpoint_witness :
  addresses book_one !! 1%positive = Some (mkAddress (Some 1%positive) false 0) /\
  MarshalText 1%positive book_one
    = Some ((String.list_byte_of_string "10.0.0.1:8233", None), book_one) /\
  (forall r st1, MarshalText 1%positive book_one = Some (r, st1) ->
     snd r = None /\ st1 = book_one) /\
  (forall k, addrs book_one !! k = Some 1%positive ->
     is_Some (MarshalText 1%positive book_one)).
Proof.
  split; [reflexivity|].
  destruct (MarshalText_total_with_endpoint book_one 1%positive
              (mkAddress (Some 1%positive) false 0) eq_refl)
    as (_ & Hok & Hret & Hbook).
  split; [|split].
  - exact (proj2 (Hok 1%positive (wire.mkNetAddress 0 0 (net.IPv4 10 0 0 1) 8233)
                    eq_refl eq_refl)).
  - intros r st1 HM. destruct (Hret r st1 HM) as (He & Hst & _). split; assumption.
  - intros k E. destruct (Hbook reachable_book_one k E) as (n & na & _ & _ & HM).
    rewrite HM. eauto.
Defined.

(** ** C9: the host is not validated *)

(** C9: whenever the text splits into host and port and the port is a
    16-bit decimal number, [Add] stores a record -- whatever the host.
    The record carries [net.ParseIP(host)] unchecked; when the host is not
    an IP address this is nil and the record renders as ["<nil>:port"]. *)
Theorem host_is_not_validated st now s host port :
  parsePeerKey s = inl (host, port) ->
  exists st' l, Add now s st = Some (tt, st') /\
    IsKnown s st' = Some (true, st') /\
    addrs st' !! s = Some l /\
    registry st' !! s =
      Some (mkEntry (Some (wire.mkNetAddress (time.FromUnix (time.Unix now) 0) 0
                             (net.ParseIP host) port))
                    false (time.FromUnix (time.Unix now) 0)) /\
    (net.ParseIP_opt host = None ->
     asPeerKey l st' = Some ("<nil>:" +:+ strconv.Itoa port, st')).
Proof.
  intros Hp. pose proof (parsePeerKey_port_range _ _ _ Hp) as Hrange.
  exists (inserted_state now s host port false st), (fresh (dom (addresses st))).
  assert (addrs (inserted_state now s host port false st) !! s
          = Some (fresh (dom (addresses st)))) as Hs
    by (unfold inserted_state; cbn [addrs]; apply lookup_insert_eq).
  assert (addresses (inserted_state now s host port false st) !! fresh (dom (addresses st))
          = Some (mkAddress (Some (fresh (dom (netaddrs st)))) false
                    (time.FromUnix (time.Unix now) 0))) as HA
    by (unfold inserted_state; cbn [addresses]; apply lookup_insert_eq).
  assert (netaddrs (inserted_state now s host port false st) !! fresh (dom (netaddrs st))
          = Some (wire.mkNetAddress (time.FromUnix (time.Unix now) 0) 0
                    (net.ParseIP host) port)) as Hna.
  { unfold inserted_state; cbn [netaddrs]. rewrite lookup_insert_eq.
    unfold wire.NewNetAddressTimestamp_val. rewrite Z.mod_small by lia. reflexivity. }
  split; [apply (Add_success _ _ _ _ _ Hp)|].
  split; [apply (IsKnown_present _ _ _ Hs)|]. split; [exact Hs|]. split.
  - rewrite registry_lookup, Hs, HA. cbn. unfold entry_of. cbn [netaddr].
    rewrite Hna. reflexivity.
  - intros Hnil. unfold asPeerKey.
    rewrite (Address_String_eq _ _ _ _ _ HA eq_refl Hna). cbn [wire.IP wire.Port].
    unfold net.ParseIP. rewrite Hnil. reflexivity.
Qed.

Lemma host_is_not_validated_witness :
  exists st' l, Add 0 "localhost:8233" NewAddressBook = Some (tt, st') /\
    IsKnown "localhost:8233" st' = Some (true, st') /\
    addrs st' !! "localhost:8233" = Some l /\
    registry st' !! "localhost:8233" =
      Some (mkEntry (Some (wire.mkNetAddress 0 0 [] 8233)) false 0) /\
    (net.ParseIP_opt "localhost" = None ->
     asPeerKey l st' = Some ("<nil>:8233"%string, st')).
Proof.
  apply (host_is_not_validated NewAddressBook 0 "localhost:8233" "localhost" 8233).
  reflexivity.
Defined.

(** ** C3: one record per key text *)

(** C3, refuted as stated: after [Add("10.0.0.1:8233")] and
    [Add("10.0.0.1:08233")] the book holds two different records, and both
    render to the text ["10.0.0.1:8233"]. *)
Lemma two_records_render_alike :
  reachable book_two /\
  addrs book_two !! "10.0.0.1:8233" = Some 1%positive /\
  addrs book_two !! "10.0.0.1:08233" = Some 2%positive /\
  asPeerKey 1%positive book_two = Some ("10.0.0.1:8233"%string, book_two) /\
  asPeerKey 2%positive book_two = Some ("10.0.0.1:8233"%string, book_two).
Proof.
  split; [exact reachable_book_two|]. repeat split; vm_compute; reflexivity.
Qed.

(** C3, amended: the book is keyed by the text it is given, not by the
    rendered text.  In every reachable state each key text has at most one
    record, different key texts have different records, and the record
    stored under a key text renders to the canonical form of the host and
    port parsed from that text; so two records render alike exactly when
    their key texts have the same canonical form. *)
Theorem one_record_per_key_text st k1 k2 l1 l2 :
  reachable st ->
  addrs st !! k1 = Some l1 ->
  addrs st !! k2 = Some l2 ->
  (l1 = l2 <-> k1 = k2) /\
  exists host1 port1 host2 port2,
    parsePeerKey k1 = inl (host1, port1) /\
    parsePeerKey k2 = inl (host2, port2) /\
    asPeerKey l1 st = Some (canonical host1 port1, st) /\
    asPeerKey l2 st = Some (canonical host2 port2, st).
Proof.
  intros Hr E1 E2. pose proof (reachable_wf _ Hr) as Hwf. split.
  - split.
    + intros <-. eapply wf_unshared; eassumption.
    + intros <-. congruence.
  - destruct (wf_built _ Hwf _ _ E1) as (A1 & n1 & na1 & h1 & p1 & HA1 & Hn1 & Hna1 & Hp1 & Hi1 & Ho1 & _).
    destruct (wf_built _ Hwf _ _ E2) as (A2 & n2 & na2 & h2 & p2 & HA2 & Hn2 & Hna2 & Hp2 & Hi2 & Ho2 & _).
    exists h1, p1, h2, p2. split; [exact Hp1|]. split; [exact Hp2|].
    unfold asPeerKey, canonical.
    rewrite (Address_String_eq _ _ _ _ _ HA1 Hn1 Hna1).
    rewrite (Address_String_eq _ _ _ _ _ HA2 Hn2 Hna2).
    rewrite Hi1, Ho1, Hi2, Ho2. split; reflexivity.
Qed.

Lemma one_record_per_key_text_witness :
  (1%positive = 2%positive <-> "10.0.0.1:8233"%string = "10.0.0.1:08233"%string) /\
  exists host1 port1 host2 port2,
    parsePeerKey "10.0.0.1:8233" = inl (host1, port1) /\
    parsePeerKey "10.0.0.1:08233" = inl (host2, port2) /\
    asPeerKey 1%positive book_two = Some (canonical host1 port1, book_two) /\
    asPeerKey 2%positive book_two = Some (canonical host2 port2, book_two).
Proof.
  apply (one_record_per_key_text book_two "10.0.0.1:8233" "10.0.0.1:08233").
  - exact reachable_book_two.
  - reflexivity.
  - reflexivity.
Defined.

(** ** Byte strings: lemmas *)

Lemma append_nil_l (b : string) : "" +:+ b = b.
Proof. reflexivity. Qed.

Lemma append_cons x (a b : string) : String x a +:+ b = String x (a +:+ b).
Proof. reflexivity. Qed.

Lemma append_assoc (a b c : string) : (a +:+ b) +:+ c = a +:+ (b +:+ c).
Proof.
  induction a as [|x a IH]; [reflexivity|].
  rewrite !append_cons. f_equal. exact IH.
Qed.

Lemma append_nil_r (a : string) : a +:+ "" = a.
Proof.
  induction a as [|x a IH]; [reflexivity|]. rewrite append_cons. f_equal. exact IH.
Qed.

Lemma len_nonneg s : 0 <= Str.len s.
Proof. unfold Str.len. lia. Qed.

Lemma len_cons x s : Str.len (String x s) = Str.len s + 1.
Proof. unfold Str.len. cbn [String.length]. lia. Qed.

Lemma len_append a b : Str.len (a +:+ b) = Str.len a + Str.len b.
Proof.
  induction a as [|x a IH]; [rewrite append_nil_l; unfold Str.len; cbn; lia|].
  rewrite append_cons, !len_cons, IH. lia.
Qed.

Lemma drop_append a b : Str.drop (String.length a) (a +:+ b) = b.
Proof.
  induction a as [|x a IH]; [destruct b; reflexivity|]. rewrite append_cons. exact IH.
Qed.

Lemma take_append a b : Str.take (String.length a) (a +:+ b) = a.
Proof.
  induction a as [|x a IH]; [destruct b; reflexivity|].
  rewrite append_cons. cbn. rewrite IH. reflexivity.
Qed.

Lemma from_append a b : Str.from (Str.len a) (a +:+ b) = b.
Proof. unfold Str.from, Str.len. rewrite Nat2Z.id. apply drop_append. Qed.

Lemma upto_append a b : Str.upto (Str.len a) (a +:+ b) = a.
Proof. unfold Str.upto, Str.len. rewrite Nat2Z.id. apply take_append. Qed.

Lemma from_0 s : Str.from 0 s = s.
Proof. reflexivity. Qed.

Lemma from_succ n x s : 0 <= n -> Str.from (n + 1) (String x s) = Str.from n s.
Proof.
  intros Hn. unfold Str.from.
  replace (Z.to_nat (n + 1)) with (S (Z.to_nat n)) by lia. reflexivity.
Qed.

Lemma all_bytes_append P a b :
  all_bytes P (a +:+ b) = all_bytes P a && all_bytes P b.
Proof.
  induction a as [|x a IH]; [reflexivity|].
  rewrite append_cons. cbn. rewrite IH, andb_assoc. reflexivity.
Qed.

Lemma all_bytes_weaken (P Q : ascii -> bool) s :
  (forall x, P x = true -> Q x = true) ->
  all_bytes P s = true -> all_bytes Q s = true.
Proof.
  intros HPQ. induction s as [|x s IH]; [reflexivity|]. cbn.
  intros [Hx Hs]%andb_true_iff. rewrite (HPQ _ Hx), (IH Hs). reflexivity.
Qed.

Lemma IndexByteString_absent s c :
  all_bytes (fun x => negb (Ascii.eqb x c)) s = true ->
  Str.IndexByteString s c = -1.
Proof.
  induction s as [|x s IH]; [reflexivity|]. cbn.
  intros [Hx Hs]%andb_true_iff. apply negb_true_iff in Hx. rewrite Hx, (IH Hs).
  reflexivity.
Qed.

Lemma IndexByteString_range s c :
  Str.IndexByteString s c = -1 \/ 0 <= Str.IndexByteString s c < Str.len s.
Proof.
  induction s as [|x s IH]; [left; reflexivity|]. cbn. rewrite len_cons.
  pose proof (len_nonneg s).
  destruct (Ascii.eqb x c); [right; lia|].
  destruct IH as [->|IH]; [left; reflexivity|].
  destruct (Z.ltb_spec (Str.IndexByteString s c) 0); [lia|]. right; lia.
Qed.

Lemma IndexByteString_append_absent a b c :
  all_bytes (fun x => negb (Ascii.eqb x c)) a = true ->
  Str.IndexByteString (a +:+ b) c =
    if Str.IndexByteString b c <? 0 then -1
    else Str.len a + Str.IndexByteString b c.
Proof.
  induction a as [|x a IH].
  - intros _. rewrite append_nil_l. unfold Str.len. cbn.
    destruct (IndexByteString_range b c) as [->|Hr]; [reflexivity|].
    destruct (Z.ltb_spec (Str.IndexByteString b c) 0); lia.
  - rewrite append_cons. cbn. intros [Hx Ha]%andb_true_iff. apply negb_true_iff in Hx.
    rewrite Hx, (IH Ha), len_cons. pose proof (len_nonneg a).
    destruct (IndexByteString_range b c) as [->|Hr]; [reflexivity|].
    destruct (Z.ltb_spec (Str.IndexByteString b c) 0); [lia|].
    destruct (Z.ltb_spec (Str.len a + Str.IndexByteString b c) 0); lia.
Qed.

Lemma last_absent s c :
  all_bytes (fun x => negb (Ascii.eqb x c)) s = true -> Str.last s c = -1.
Proof.
  induction s as [|x s IH]; [reflexivity|]. cbn.
  intros [Hx Hs]%andb_true_iff. apply negb_true_iff in Hx. rewrite Hx, (IH Hs).
  reflexivity.
Qed.

Lemma last_append_sep a b c :
  all_bytes (fun x => negb (Ascii.eqb x c)) b = true ->
  Str.last (a +:+ String c b) c = Str.len a.
Proof.
  intros Hb. induction a as [|x a IH].
  - rewrite append_nil_l. cbn. rewrite (last_absent _ _ Hb). cbn.
    rewrite Ascii.eqb_refl. reflexivity.
  - rewrite append_cons. cbn [Str.last]. rewrite IH, len_cons. pose proof (len_nonneg a).
    destruct (Z.leb_spec 0 (Str.len a)); lia.
Qed.

Lemma at_0_cons x s : Str.at_ (String x s) 0 = Some x.
Proof. reflexivity. Qed.

Lemma at_succ n x s : 0 <= n -> Str.at_ (String x s) (n + 1) = Str.at_ s n.
Proof.
  intros Hn. unfold Str.at_.
  destruct (Z.ltb_spec (n + 1) 0); [lia|]. destruct (Z.ltb_spec n 0); [lia|].
  replace (Z.to_nat (n + 1)) with (S (Z.to_nat n)) by lia. reflexivity.
Qed.

Lemma at_append_len a x b : Str.at_ (a +:+ String x b) (Str.len a) = Some x.
Proof.
  induction a as [|y a IH]; [reflexivity|].
  rewrite append_cons, len_cons, at_succ by apply len_nonneg. exact IH.
Qed.

(** ** Joining and splitting host and port *)

Lemma lacks_cons c x s : lacks c (String x s) <-> x <> c /\ lacks c s.
Proof.
  unfold lacks. cbn. rewrite andb_true_iff, negb_true_iff, Ascii.eqb_neq. reflexivity.
Qed.

Lemma lacks_append c a b : lacks c (a +:+ b) <-> lacks c a /\ lacks c b.
Proof. unfold lacks. rewrite all_bytes_append, andb_true_iff. reflexivity. Qed.

Lemma lacks_nil c : lacks c "".
Proof. reflexivity. Qed.

Lemma IndexByteString_neg_lacks s c : Str.IndexByteString s c < 0 -> lacks c s.
Proof.
  induction s as [|x s IH]; [reflexivity|]. cbn.
  destruct (Ascii.eqb x c) eqn:E; [lia|].
  destruct (Z.ltb_spec (Str.IndexByteString s c) 0) as [Hneg|Hpos]; [|lia].
  intros _. apply lacks_cons. split; [apply Ascii.eqb_neq, E|apply IH, Hneg].
Qed.

Lemma lacks_at_0 c s : lacks c s -> Str.at_ s 0 <> Some c.
Proof.
  destruct s as [|x s]; [discriminate|].
  intros [Hx _]%lacks_cons. rewrite at_0_cons. congruence.
Qed.

Lemma from_prefix a b n : n = Str.len a -> Str.from n (a +:+ b) = b.
Proof. intros ->. apply from_append. Qed.

Lemma len_nil : Str.len "" = 0.
Proof. reflexivity. Qed.

Ltac len_norm := rewrite ?len_append, ?len_cons, ?len_nil.

Lemma SplitHostPort_unbracketed host port :
  lacks ":" host -> lacks "[" host -> lacks "]" host ->
  lacks ":" port -> lacks "[" port -> lacks "]" port ->
  net.SplitHostPort (host +:+ ":" +:+ port) = (host, port, None).
Proof.
  intros Hch Hlh Hrh Hcp Hlp Hrp. change (":" +:+ port) with (String ":" port).
  assert (lacks "[" (host +:+ String ":" port)) as Hl
    by (apply lacks_append; split; [exact Hlh|apply lacks_cons; split; [discriminate|exact Hlp]]).
  assert (lacks "]" (host +:+ String ":" port)) as Hr
    by (apply lacks_append; split; [exact Hrh|apply lacks_cons; split; [discriminate|exact Hrp]]).
  unfold net.SplitHostPort.
  rewrite (last_append_sep _ _ _ Hcp). pose proof (len_nonneg host) as Hlen.
  destruct (Z.ltb_spec (Str.len host) 0); [lia|].
  rewrite bool_decide_eq_false_2 by (apply lacks_at_0, Hl).
  rewrite upto_append, (IndexByteString_absent _ _ Hch). cbn [Z.leb Z.compare Z.opp].
  rewrite from_0, (IndexByteString_absent _ _ Hl), (IndexByteString_absent _ _ Hr).
  cbn [Z.leb Z.compare Z.opp].
  change (String ":" port) with (":" +:+ port). rewrite <- append_assoc.
  rewrite (from_prefix (host +:+ ":") port); [reflexivity|].
  len_norm. lia.
Qed.

Lemma SplitHostPort_bracketed host port :
  lacks "[" host -> lacks "]" host ->
  lacks ":" port -> lacks "[" port -> lacks "]" port ->
  net.SplitHostPort ("[" +:+ host +:+ "]:" +:+ port) = (host, port, None).
Proof.
  intros Hlh Hrh Hcp Hlp Hrp. pose proof (len_nonneg host) as Hlen.
  pose proof (len_nonneg port) as Hlenp.
  set (hp := "[" +:+ host +:+ "]:" +:+ port).
  assert (hp = ("[" +:+ host +:+ "]") +:+ String ":" port) as Hhp1
    by (unfold hp; rewrite !append_assoc; reflexivity).
  assert (hp = String "[" (host +:+ String "]" (String ":" port))) as Hhp2 by reflexivity.
  assert (Str.last hp ":" = Str.len host + 2) as Hi.
  { rewrite Hhp1, (last_append_sep _ _ _ Hcp). len_norm. lia. }
  assert (Str.IndexByteString hp "]" = Str.len host + 1) as Hend.
  { rewrite Hhp2. cbn [Str.IndexByteString]. change (Ascii.eqb "[" "]") with false.
    cbv iota. rewrite (IndexByteString_append_absent _ _ _ Hrh).
    cbn [Str.IndexByteString]. rewrite Ascii.eqb_refl. cbn [Z.ltb Z.compare].
    destruct (Z.ltb_spec (Str.len host + 0) 0); lia. }
  assert (Str.len hp = Str.len host + Str.len port + 3) as Hlenhp.
  { unfold hp. len_norm. lia. }
  unfold net.SplitHostPort. rewrite Hi, Hend.
  destruct (Z.ltb_spec (Str.len host + 2) 0); [lia|].
  rewrite bool_decide_eq_true_2 by (rewrite Hhp2; apply at_0_cons).
  destruct (Z.ltb_spec (Str.len host + 1) 0); [lia|].
  rewrite Hlenhp.
  destruct (Z.eqb_spec (Str.len host + 1 + 1) (Str.len host + Str.len port + 3)); [lia|].
  destruct (Z.eqb_spec (Str.len host + 1 + 1) (Str.len host + 2)); [|lia].
  assert (Str.from 1 hp = host +:+ String "]" (String ":" port)) as Hj by reflexivity.
  rewrite Hj. rewrite IndexByteString_absent.
  2:{ apply lacks_append. split; [exact Hlh|].
      apply lacks_cons; split; [discriminate|]. apply lacks_cons; split; [discriminate|].
      exact Hlp. }
  cbn [Z.leb Z.compare Z.opp].
  assert (Str.from (Str.len host + 1 + 1) hp = String ":" port) as Hk.
  { rewrite Hhp2, from_succ by lia.
    change (String "]" (String ":" port)) with ("]" +:+ String ":" port).
    rewrite <- append_assoc. apply from_prefix. len_norm. lia. }
  rewrite Hk, IndexByteString_absent
    by (apply lacks_cons; split; [discriminate|exact Hrp]).
  cbn [Z.leb Z.compare Z.opp].
  assert (Str.slice 1 (Str.len host + 1) hp = host) as ->.
  { unfold Str.slice. change (Str.drop (Z.to_nat 1) hp) with (Str.from 1 hp).
    rewrite Hj. replace (Str.len host + 1 - 1) with (Str.len host) by lia.
    apply upto_append. }
  assert (Str.from (Str.len host + 2 + 1) hp = port) as ->.
  { rewrite Hhp1. change (String ":" port) with (":" +:+ port).
    rewrite <- append_assoc. apply from_prefix. len_norm. lia. }
  reflexivity.
Qed.

(** [SplitHostPort] takes apart what [JoinHostPort] put together. *)
Lemma SplitHostPort_JoinHostPort host port :
  lacks "[" host -> lacks "]" host ->
  lacks ":" port -> lacks "[" port -> lacks "]" port ->
  net.SplitHostPort (net.JoinHostPort host port) = (host, port, None).
Proof.
  intros Hlh Hrh Hcp Hlp Hrp. unfold net.JoinHostPort.
  destruct (Z.leb_spec 0 (Str.IndexByteString host ":")) as [Hc|Hc].
  - apply SplitHostPort_bracketed; assumption.
  - apply SplitHostPort_unbracketed; try assumption.
    apply IndexByteString_neg_lacks, Hc.
Qed.

(** ** Decimal and hexadecimal numerals *)

Lemma dtoi_loop_append ds rest n i :
  all_bytes is_digit ds = true -> stops is_digit rest ->
  net.dtoi_loop (ds +:+ rest) n i = net.dtoi_loop ds n i.
Proof.
  intros Hds Hrest. revert n i. induction ds as [|x ds IH]; intros n i.
  - rewrite append_nil_l. destruct rest as [|y rest]; [reflexivity|].
    cbn in Hrest. unfold is_digit in Hrest. cbn [net.dtoi_loop]. rewrite Hrest.
    reflexivity.
  - rewrite append_cons. cbn in Hds. apply andb_true_iff in Hds as [Hx Hds].
    unfold is_digit in Hx. cbn [net.dtoi_loop]. rewrite Hx.
    destruct (net.big <=? _); [reflexivity|]. apply IH, Hds.
Qed.

Lemma xtoi_loop_append hs rest n i :
  all_bytes is_hex hs = true ->
  stops (fun x => is_hex x || ((65 <=? Str.code x) && (Str.code x <=? 70))) rest ->
  net.xtoi_loop (hs +:+ rest) n i = net.xtoi_loop hs n i.
Proof.
  intros Hhs Hrest. revert n i. induction hs as [|x hs IH]; intros n i.
  - rewrite append_nil_l. destruct rest as [|y rest]; [reflexivity|].
    cbn in Hrest. unfold is_hex, is_digit in Hrest.
    apply orb_false_iff in Hrest as [[H1 H2]%orb_false_iff H3].
    cbn [net.xtoi_loop]. cbv zeta. rewrite H1, H2, H3. reflexivity.
  - rewrite append_cons. cbn in Hhs. apply andb_true_iff in Hhs as [Hx Hhs].
    cbn [net.xtoi_loop]. cbv zeta.
    destruct (_ : option Z) as [d|] eqn:Ed.
    + destruct (net.big <=? _); [reflexivity|]. apply IH, Hhs.
    + unfold is_hex, is_digit in Hx.
      destruct ((48 <=? Str.code x) && (Str.code x <=? 57)); [discriminate|].
      destruct ((97 <=? Str.code x) && (Str.code x <=? 102)); discriminate.
Qed.

Lemma forallb_seqZ (f : Z -> bool) (n : Z) :
  forallb f (seqZ 0 n) = true -> forall v, 0 <= v < n -> f v = true.
Proof.
  intros H v Hv. rewrite forallb_forall in H. apply H.
  apply list_elem_of_In, elem_of_seqZ. lia.
Qed.

(** checking all 16-bit values, 256 at a time *)
Lemma forallb_16bit (f : Z -> bool) :
  forallb (fun hi => forallb (fun lo => f (hi * 256 + lo)) (seqZ 0 256)) (seqZ 0 256) = true ->
  forall v, 0 <= v < 65536 -> f v = true.
Proof.
  intros H v Hv.
  assert (0 <= v / 256 < 256) as Hhi
    by (split; [apply Z.div_pos; lia|apply Z.div_lt_upper_bound; lia]).
  pose proof (Z.mod_pos_bound v 256 ltac:(lia)) as Hlo.
  pose proof (forallb_seqZ _ _ H _ Hhi) as H1. cbv beta in H1.
  pose proof (forallb_seqZ _ _ H1 _ Hlo) as H2. cbv beta in H2.
  replace (v / 256 * 256 + v mod 256) with v in H2; [exact H2|].
  rewrite (Z.div_mod v 256) at 1 by lia. lia.
Qed.

Lemma ubtoa_ok_all v : 0 <= v < 256 -> ubtoa_ok v = true.
Proof. apply forallb_seqZ. vm_compute. reflexivity. Qed.

Lemma hex_ok_all g : 0 <= g < 65536 -> hex_ok g = true.
Proof. apply forallb_16bit. vm_compute. reflexivity. Qed.

Lemma Itoa_ok_all p : 0 <= p < 65536 -> Itoa_ok p = true.
Proof. apply forallb_16bit. vm_compute. reflexivity. Qed.

(** ** The dotted form of an IPv4 address *)

Lemma ubtoa_facts v :
  0 <= v < 256 ->
  net.dtoi (net.ubtoa v) = (v, Str.len (net.ubtoa v), true) /\
  all_bytes is_digit (net.ubtoa v) = true /\
  (exists x r, net.ubtoa v = String x r /\
     ((1 <? Str.len (net.ubtoa v)) && Ascii.eqb x "0") = false).
Proof.
  intros Hv. pose proof (ubtoa_ok_all v Hv) as H. unfold ubtoa_ok in H. cbv zeta in H.
  apply andb_true_iff in H as [[[H1 H2]%andb_true_iff H3]%andb_true_iff H4].
  destruct (net.dtoi (net.ubtoa v)) as [[n c] ok].
  apply andb_true_iff in H1 as [[Hn Hc]%andb_true_iff ->].
  apply Z.eqb_eq in Hn, Hc. subst n c. split; [reflexivity|]. split; [exact H2|].
  destruct (net.ubtoa v) as [|x r]; [discriminate|].
  exists x, r. split; [reflexivity|]. apply negb_true_iff, H4.
Qed.

Lemma stops_weaken (P Q : ascii -> bool) s :
  (forall x, P x = false -> Q x = false) -> stops P s -> stops Q s.
Proof. intros H. destruct s; [trivial|apply H]. Qed.

(** one turn of the loop of [parseIPv4] on the decimal form of a byte *)
Lemma parseIPv4_loop_step fuel i v rest p :
  0 <= v < 256 -> 0 <= i -> stops is_digit rest ->
  net.parseIPv4_loop (S fuel) i
    ((if 0 <? i then "." else "") +:+ net.ubtoa v +:+ rest) p =
  net.parseIPv4_loop fuel (i + 1) rest (net.upd p i v).
Proof.
  intros Hv Hi Hrest.
  destruct (ubtoa_facts v Hv) as (Hd & Hdig & x & r & Hxr & Hlead).
  cbn [net.parseIPv4_loop].
  assert ((Str.len ((if 0 <? i then "." else "") +:+ net.ubtoa v +:+ rest) =? 0) = false) as ->.
  { apply Z.eqb_neq. rewrite Hxr. len_norm.
    pose proof (len_nonneg r). pose proof (len_nonneg rest).
    pose proof (len_nonneg (if 0 <? i then "." else "")). lia. }
  assert ((if 0 <? i
           then match (if 0 <? i then "." else "") +:+ net.ubtoa v +:+ rest with
                | String "." r0 => Some r0
                | _ => None
                end
           else Some ((if 0 <? i then "." else "") +:+ net.ubtoa v +:+ rest))
          = Some (net.ubtoa v +:+ rest)) as ->.
  { destruct (0 <? i); reflexivity. }
  unfold net.dtoi in *. rewrite (dtoi_loop_append _ _ _ _ Hdig Hrest), Hd.
  cbn [negb orb]. destruct (Z.ltb_spec 255 v); [lia|].
  assert (bool_decide (Str.at_ (net.ubtoa v +:+ rest) 0 = Some "0"%char)
          = Ascii.eqb x "0") as ->.
  { rewrite Hxr, append_cons, at_0_cons.
    destruct (Ascii.eqb_spec x "0") as [->|Hne].
    - apply bool_decide_eq_true_2. reflexivity.
    - apply bool_decide_eq_false_2. congruence. }
  rewrite Hlead, from_append, Z.mod_small by lia. reflexivity.
Qed.

Lemma parseIPv4_loop_first fuel v rest p :
  0 <= v < 256 -> stops is_digit rest ->
  net.parseIPv4_loop (S fuel) 0 (net.ubtoa v +:+ rest) p =
  net.parseIPv4_loop fuel 1 rest (net.upd p 0 v).
Proof. intros Hv Hr. apply (parseIPv4_loop_step fuel 0 v rest p Hv); [lia|exact Hr]. Qed.

Lemma parseIPv4_loop_next fuel i v rest p :
  0 <= v < 256 -> 0 < i -> stops is_digit rest ->
  net.parseIPv4_loop (S fuel) i ("." +:+ net.ubtoa v +:+ rest) p =
  net.parseIPv4_loop fuel (i + 1) rest (net.upd p i v).
Proof.
  intros Hv Hi Hr. pose proof (parseIPv4_loop_step fuel i v rest p Hv) as H.
  destruct (Z.ltb_spec 0 i); [|lia]. apply H; [lia|exact Hr].
Qed.

Lemma parseIPv4_dotted a b c d :
  0 <= a < 256 -> 0 <= b < 256 -> 0 <= c < 256 -> 0 <= d < 256 ->
  net.parseIPv4 (net.ubtoa a +:+ "." +:+ net.ubtoa b +:+ "." +:+ net.ubtoa c
                   +:+ "." +:+ net.ubtoa d) = Some (net.IPv4 a b c d).
Proof.
  intros Ha Hb Hc Hd. unfold net.parseIPv4.
  rewrite (parseIPv4_loop_first 3 a _ _ Ha) by reflexivity.
  rewrite (parseIPv4_loop_next 2 1 b _ _ Hb) by (reflexivity || lia).
  rewrite (parseIPv4_loop_next 1 2 c _ _ Hc) by (reflexivity || lia).
  rewrite <- (append_nil_r (net.ubtoa d)).
  rewrite (parseIPv4_loop_next 0 3 d "" _ Hd) by (reflexivity || lia).
  reflexivity.
Qed.

Lemma ParseIP_scan_digits s0 ds r :
  all_bytes is_digit ds = true ->
  net.ParseIP_scan s0 (ds +:+ "." +:+ r) = net.parseIPv4 s0.
Proof.
  intros Hds. induction ds as [|x ds IH]; [reflexivity|].
  cbn in Hds. apply andb_true_iff in Hds as [Hx Hds]. rewrite append_cons.
  specialize (IH Hds). cbn [net.ParseIP_scan]. rewrite IH.
  destruct x as [[] [] [] [] [] [] [] []]; try reflexivity; discriminate.
Qed.

Lemma ParseIP_dotted a b c d :
  0 <= a < 256 -> 0 <= b < 256 -> 0 <= c < 256 -> 0 <= d < 256 ->
  net.ParseIP (net.ubtoa a +:+ "." +:+ net.ubtoa b +:+ "." +:+ net.ubtoa c
                 +:+ "." +:+ net.ubtoa d) = net.IPv4 a b c d.
Proof.
  intros Ha Hb Hc Hd. unfold net.ParseIP, net.ParseIP_opt.
  destruct (ubtoa_facts a Ha) as (_ & Hdig & _).
  rewrite (ParseIP_scan_digits _ _ _ Hdig), parseIPv4_dotted by assumption.
  reflexivity.
Qed.

(** ** The hexadecimal groups of an IPv6 address *)

Lemma appendHex_loop_app cnt dst i :
  net.appendHex_loop cnt dst i = dst +:+ net.appendHex_loop cnt "" i.
Proof.
  revert dst. induction cnt as [|j IH]; intros dst.
  - cbn. rewrite append_nil_r. reflexivity.
  - cbn [net.appendHex_loop]. cbv zeta.
    destruct (0 <? _); [|apply IH].
    rewrite (IH (dst +:+ _)), (IH ("" +:+ _)), append_nil_l, append_assoc.
    reflexivity.
Qed.

Lemma appendHex_app dst i : net.appendHex dst i = dst +:+ hex i +:+ "".
Proof.
  rewrite append_nil_r. unfold hex, net.appendHex.
  destruct (i =? 0); [reflexivity|]. apply appendHex_loop_app.
Qed.

Lemma hex_facts g :
  0 <= g < 65536 ->
  net.xtoi (hex g) = (g, Str.len (hex g), true) /\
  all_bytes is_hex (hex g) = true /\
  exists x r, hex g = String x r /\ is_hex x = true.
Proof.
  intros Hg. pose proof (hex_ok_all g Hg) as H. unfold hex_ok in H. cbv zeta in H.
  apply andb_true_iff in H as [[H1 H2]%andb_true_iff H3].
  destruct (net.xtoi (hex g)) as [[n c] ok].
  apply andb_true_iff in H1 as [[Hn Hc]%andb_true_iff ->].
  apply Z.eqb_eq in Hn, Hc. subst n c. split; [reflexivity|]. split; [exact H2|].
  destruct (hex g) as [|x r]; [discriminate|].
  exists x, r. split; [reflexivity|]. cbn in H2. apply andb_true_iff in H2 as [H2 _].
  exact H2.
Qed.

(** One turn of the loop of [parseIPv6] on a printed group: the group is
    stored, and what follows it decides how the loop goes on. *)
Lemma parseIPv6_loop_group fuel g rest i ellipsis ip :
  0 <= g < 65536 -> i < 16 -> ends_group rest ->
  net.parseIPv6_loop (S fuel) (hex g +:+ rest) i ellipsis ip =
    let ip := net.upd ip i (Z.shiftr g 8 mod 256) in
    let ip := net.upd ip (i + 1) (g mod 256) in
    let i := i + 2 in
    if Str.len rest =? 0 then Some (rest, i, ellipsis, ip)
    else if negb (bool_decide (Str.at_ rest 0 = Some ":"%char)) || (Str.len rest =? 1)
    then None
    else
      let s := Str.from 1 rest in
      if bool_decide (Str.at_ s 0 = Some ":"%char) then
        if 0 <=? ellipsis then None
        else
          let ellipsis := i in
          let s := Str.from 1 s in
          if Str.len s =? 0 then Some (s, i, ellipsis, ip)
          else net.parseIPv6_loop fuel s i ellipsis ip
      else net.parseIPv6_loop fuel s i ellipsis ip.
Proof.
  intros Hg Hi Hrest. destruct (hex_facts g Hg) as (Hx & Hhex & _).
  cbn [net.parseIPv6_loop]. unfold net.IPv6len.
  destruct (Z.ltb_spec i 16); [|lia]. cbn [negb].
  unfold net.xtoi in *. rewrite xtoi_loop_append, Hx; [|exact Hhex|].
  2:{ destruct rest as [|y rest]; [exact I|]. cbn in Hrest. subst y. reflexivity. }
  cbn [negb orb]. destruct (Z.ltb_spec 65535 g); [lia|].
  assert (bool_decide (Str.at_ (hex g +:+ rest) (Str.len (hex g)) = Some "."%char) = false) as ->.
  { apply bool_decide_eq_false_2. destruct rest as [|y rest].
    - rewrite append_nil_r. unfold Str.at_, Str.len.
      destruct (Z.ltb_spec (Z.of_nat (String.length (hex g))) 0); [discriminate|].
      rewrite Nat2Z.id. clear. induction (hex g) as [|z t IH]; [discriminate|exact IH].
    - cbn in Hrest. subst y. rewrite at_append_len. discriminate. }
  rewrite andb_false_r, from_append. reflexivity.
Qed.

Lemma hex_head_not_colon g rest :
  0 <= g < 65536 ->
  bool_decide (Str.at_ (hex g +:+ rest) 0 = Some ":"%char) = false.
Proof.
  intros Hg. destruct (hex_facts g Hg) as (_ & _ & x & r & -> & Hx).
  rewrite append_cons, at_0_cons. apply bool_decide_eq_false_2.
  intros [= ->]. discriminate.
Qed.

Lemma hex_len_pos g rest : 0 <= g < 65536 -> 0 < Str.len (hex g +:+ rest).
Proof.
  intros Hg. destruct (hex_facts g Hg) as (_ & _ & x & r & -> & Hx).
  rewrite append_cons, len_cons. pose proof (len_nonneg (r +:+ rest)). lia.
Qed.

Section Groups.
Variables (fuel : nat) (g g' : Z) (r : string) (i ellipsis : Z) (ip : net.IP).
Hypothesis Hg : 0 <= g < 65536.
Hypothesis Hg' : 0 <= g' < 65536.
Hypothesis Hi : i < 16.

Let ip' := net.upd (net.upd ip i (Z.shiftr g 8 mod 256)) (i + 1) (g mod 256).

(** the last group of the text *)
Lemma parseIPv6_loop_last :
  net.parseIPv6_loop (S fuel) (hex g +:+ "") i ellipsis ip =
    Some (""%string, i + 2, ellipsis, ip').
Proof. rewrite parseIPv6_loop_group by (assumption || exact I). reflexivity. Qed.

(** a group followed by a colon and another group *)
Lemma parseIPv6_loop_colon :
  net.parseIPv6_loop (S fuel) (hex g +:+ ":" +:+ hex g' +:+ r) i ellipsis ip =
    net.parseIPv6_loop fuel (hex g' +:+ r) (i + 2) ellipsis ip'.
Proof.
  rewrite parseIPv6_loop_group by (assumption || reflexivity). cbv zeta.
  change (":" +:+ hex g' +:+ r) with (String ":" (hex g' +:+ r)).
  rewrite len_cons, at_0_cons.
  pose proof (hex_len_pos g' r Hg').
  destruct (Z.eqb_spec (Str.len (hex g' +:+ r) + 1) 0); [lia|].
  destruct (Z.eqb_spec (Str.len (hex g' +:+ r) + 1) 1); [lia|].
  rewrite bool_decide_eq_true_2 by reflexivity. cbn [negb orb].
  change (Str.from 1 (String ":" (hex g' +:+ r))) with (hex g' +:+ r).
  rewrite hex_head_not_colon by assumption. reflexivity.
Qed.

(** a group followed by the ellipsis and another group *)
Lemma parseIPv6_loop_ellipsis :
  ellipsis < 0 ->
  net.parseIPv6_loop (S fuel) (hex g +:+ "::" +:+ hex g' +:+ r) i ellipsis ip =
    net.parseIPv6_loop fuel (hex g' +:+ r) (i + 2) (i + 2) ip'.
Proof.
  intros He. rewrite parseIPv6_loop_group by (assumption || reflexivity). cbv zeta.
  change ("::" +:+ hex g' +:+ r) with (String ":" (String ":" (hex g' +:+ r))).
  rewrite !len_cons, at_0_cons.
  pose proof (hex_len_pos g' r Hg').
  destruct (Z.eqb_spec (Str.len (hex g' +:+ r) + 1 + 1) 0); [lia|].
  destruct (Z.eqb_spec (Str.len (hex g' +:+ r) + 1 + 1) 1); [lia|].
  rewrite bool_decide_eq_true_2 by reflexivity. cbn [negb orb].
  change (Str.from 1 (String ":" (String ":" (hex g' +:+ r))))
    with (String ":" (hex g' +:+ r)).
  rewrite at_0_cons, bool_decide_eq_true_2 by reflexivity.
  destruct (Z.leb_spec 0 ellipsis); [lia|].
  change (Str.from 1 (String ":" (hex g' +:+ r))) with (hex g' +:+ r).
  destruct (Z.eqb_spec (Str.len (hex g' +:+ r)) 0); [lia|]. reflexivity.
Qed.

(** a group followed by the ellipsis at the end of the text *)
Lemma parseIPv6_loop_ellipsis_last :
  ellipsis < 0 ->
  net.parseIPv6_loop (S fuel) (hex g +:+ "::") i ellipsis ip =
    Some (""%string, i + 2, i + 2, ip').
Proof.
  intros He. rewrite parseIPv6_loop_group by (assumption || reflexivity). cbv zeta.
  cbn. destruct (Z.leb_spec 0 ellipsis); [lia|]. reflexivity.
Qed.

End Groups.

(** ** The longest run of zero groups *)

Ltac lia_mod := Z.div_mod_to_equations; lia.

Lemma zeros_end_spec p fuel j :
  j mod 2 = 0 ->
  j <= net.zeros_end fuel p j /\
  net.zeros_end fuel p j mod 2 = 0 /\
  (j < net.zeros_end fuel p j -> net.zeros_end fuel p j <= 16) /\
  zero_between p j (net.zeros_end fuel p j).
Proof.
  revert j. induction fuel as [|fuel IH]; intros j Hj; cbn [net.zeros_end].
  - repeat split; try lia. intros t Ht. lia.
  - unfold net.IPv6len.
    destruct (Z.ltb_spec j 16) as [Hlt|Hge]; cbn [andb];
      [|repeat split; try lia; intros t Ht; lia].
    destruct (Z.eqb_spec (net.idx p j) 0) as [Hz0|Hz0]; cbn [andb];
      [|repeat split; try lia; intros t Ht; lia].
    destruct (Z.eqb_spec (net.idx p (j + 1)) 0) as [Hz1|Hz1];
      [|repeat split; try lia; intros t Ht; lia].
    destruct (IH (j + 2)) as (H1 & H2 & H3 & H4); [lia_mod|].
    repeat split; try lia_mod.
    intros t Ht. destruct (Z.eq_dec t j) as [->|]; [exact Hz0|].
    destruct (Z.eq_dec t (j + 1)) as [->|]; [exact Hz1|]. apply H4. lia.
Qed.

Lemma zeros_loop_spec p fuel i e0 e1 :
  0 <= i -> i mod 2 = 0 -> run_ok p e0 e1 ->
  run_ok p (fst (net.zeros_loop fuel p i e0 e1)) (snd (net.zeros_loop fuel p i e0 e1)).
Proof.
  revert i e0 e1. induction fuel as [|fuel IH]; intros i e0 e1 Hi Hev Hok;
    cbn [net.zeros_loop]; [exact Hok|].
  destruct (negb (i <? net.IPv6len)); [exact Hok|].
  destruct (zeros_end_spec p 8 i Hev) as (H1 & H2 & H3 & H4).
  destruct (Z.ltb_spec i (net.zeros_end 8 p i)) as [Hlt|Hge]; cbn [andb].
  - destruct (_ <? _).
    + apply IH; [lia|lia_mod|]. right. repeat split; try lia_mod. exact H4.
    + apply IH; [lia|lia_mod|exact Hok].
  - apply IH; [lia|lia_mod|exact Hok].
Qed.

Lemma longest_zeros_spec p e0 e1 :
  net.longest_zeros p = (e0, e1) ->
  (e0 = -1 /\ e1 = -1) \/
  (0 <= e0 /\ e0 + 4 <= e1 /\ e1 <= 16 /\ e0 mod 2 = 0 /\ e1 mod 2 = 0
   /\ zero_between p e0 e1).
Proof.
  unfold net.longest_zeros.
  pose proof (zeros_loop_spec p 8 0 (-1) (-1) ltac:(lia) eq_refl (or_introl (conj eq_refl eq_refl))) as H.
  destruct (net.zeros_loop 8 p 0 (-1) (-1)) as [a b]. cbn [fst snd] in H.
  destruct (Z.leb_spec (b - a) 2) as [Hle|Hgt]; intros [= <- <-].
  - left. split; reflexivity.
  - destruct H as [[-> ->]|(Ha & Hab & Hb & Hea & Heb & Hz)]; [lia|].
    right. repeat split; try lia_mod. exact Hz.
Qed.

(** ** Printing and parsing the IPv6 form *)

Lemma group_facts hi lo :
  0 <= hi < 256 -> 0 <= lo < 256 ->
  0 <= group hi lo < 65536 /\
  Z.shiftr (group hi lo) 8 mod 256 = hi /\ group hi lo mod 256 = lo.
Proof.
  intros Hhi Hlo.
  assert (forallb (fun hi => forallb (fun lo => group_ok hi lo) (seqZ 0 256)) (seqZ 0 256)
          = true) as H by (vm_compute; reflexivity).
  pose proof (forallb_seqZ _ _ H _ Hhi) as H1. cbv beta in H1.
  pose proof (forallb_seqZ _ _ H1 _ Hlo) as H2. unfold group_ok in H2.
  apply andb_true_iff in H2 as [[[Ha Hb]%andb_true_iff Hc]%andb_true_iff Hd].
  apply Z.leb_le in Ha. apply Z.ltb_lt in Hb. apply Z.eqb_eq in Hc, Hd. auto.
Qed.

Lemma group_range hi lo :
  0 <= hi < 256 -> 0 <= lo < 256 -> 0 <= group hi lo < 65536.
Proof. intros H1 H2. apply (group_facts hi lo H1 H2). Qed.

Lemma group_hi hi lo :
  0 <= hi < 256 -> 0 <= lo < 256 -> Z.shiftr (group hi lo) 8 mod 256 = hi.
Proof. intros H1 H2. apply (group_facts hi lo H1 H2). Qed.

Lemma group_lo hi lo :
  0 <= hi < 256 -> 0 <= lo < 256 -> group hi lo mod 256 = lo.
Proof. intros H1 H2. apply (group_facts hi lo H1 H2). Qed.

Lemma parseIPv6_groups g rest :
  0 <= g < 65536 ->
  net.parseIPv6 (hex g +:+ rest) =
    finish6 (net.parseIPv6_loop 8 (hex g +:+ rest) 0 (-1) (replicate 16 0)).
Proof.
  intros Hg. unfold net.parseIPv6. rewrite (hex_head_not_colon g rest Hg).
  rewrite andb_false_r. cbn [andb]. reflexivity.
Qed.

Lemma parseIPv6_leading g rest :
  0 <= g < 65536 ->
  net.parseIPv6 ("::" +:+ hex g +:+ rest) =
    finish6 (net.parseIPv6_loop 8 (hex g +:+ rest) 0 0 (replicate 16 0)).
Proof.
  intros Hg. unfold net.parseIPv6.
  change ("::" +:+ hex g +:+ rest) with (String ":" (String ":" (hex g +:+ rest))).
  rewrite !len_cons. pose proof (hex_len_pos g rest Hg).
  destruct (Z.leb_spec 2 (Str.len (hex g +:+ rest) + 1 + 1)); [|lia].
  rewrite at_0_cons, bool_decide_eq_true_2 by reflexivity.
  rewrite bool_decide_eq_true_2 by reflexivity. cbn [andb].
  change (Str.from 2 (String ":" (String ":" (hex g +:+ rest)))) with (hex g +:+ rest).
  destruct (Z.eqb_spec (Str.len (hex g +:+ rest)) 0); [lia|]. reflexivity.
Qed.

Lemma ParseIP_scan_hex s0 hs r :
  all_bytes is_hex hs = true ->
  net.ParseIP_scan s0 (hs +:+ String ":" r) = net.parseIPv6 s0.
Proof.
  intros Hhs. induction hs as [|x hs IH]; [reflexivity|].
  cbn in Hhs. apply andb_true_iff in Hhs as [Hx Hhs]. rewrite append_cons.
  specialize (IH Hhs). cbn [net.ParseIP_scan]. rewrite IH.
  destruct x as [[] [] [] [] [] [] [] []]; try reflexivity; discriminate.
Qed.

Lemma ParseIP_opt_groups g rest :
  0 <= g < 65536 -> Str.at_ rest 0 = Some ":"%char ->
  net.ParseIP_opt (hex g +:+ rest) = net.parseIPv6 (hex g +:+ rest).
Proof.
  intros Hg Hrest. destruct rest as [|x rest]; [discriminate|].
  rewrite at_0_cons in Hrest. injection Hrest as ->.
  destruct (hex_facts g Hg) as (_ & Hhex & _).
  unfold net.ParseIP_opt. apply ParseIP_scan_hex, Hhex.
Qed.

Lemma print6_loop_render6 fuel p e0 e1 i b :
  net.print6_loop fuel p e0 e1 i b = b +:+ render6 fuel p e0 e1 i.
Proof.
  revert i b. induction fuel as [|fuel IH]; intros i b;
    cbn [net.print6_loop render6]; [rewrite append_nil_r; reflexivity|].
  destruct (negb (i <? net.IPv6len)); [rewrite append_nil_r; reflexivity|].
  destruct (i =? e0).
  - destruct (net.IPv6len <=? e1); [reflexivity|].
    rewrite IH, appendHex_app. fold (group (net.idx p e1) (net.idx p (e1 + 1))).
    rewrite append_nil_r, !append_assoc. reflexivity.
  - rewrite IH, appendHex_app. fold (group (net.idx p i) (net.idx p (i + 1))).
    rewrite append_nil_r. destruct (0 <? i); rewrite ?append_nil_l, !append_assoc;
      reflexivity.
Qed.

Lemma ParseIP_opt_leading r :
  net.ParseIP_opt ("::" +:+ r) = net.parseIPv6 ("::" +:+ r).
Proof. reflexivity. Qed.

Opaque hex group.

(** evaluate the text of an address given by its sixteen bytes *)
Ltac render_text :=
  rewrite print6_loop_render6, append_nil_l;
  match goal with
  | |- context [render6 ?f ?p ?a ?b ?i] =>
      let t := eval cbv -[hex group String.append] in (render6 f p a b i) in
      change (render6 f p a b i) with t
  end;
  rewrite ?append_nil_l.

(** follow [parseIPv6] over a text made of printed groups *)
Ltac parse_text :=
  first [ rewrite ParseIP_opt_leading, parseIPv6_leading
            by (apply group_range; assumption)
        | rewrite ParseIP_opt_groups, parseIPv6_groups
            by (first [apply group_range; assumption | reflexivity])
        | reflexivity ];
  repeat first
    [ rewrite parseIPv6_loop_colon by (first [apply group_range; assumption | lia])
    | rewrite parseIPv6_loop_ellipsis by (first [apply group_range; assumption | lia])
    | rewrite parseIPv6_loop_ellipsis_last by (first [apply group_range; assumption | lia])
    | rewrite parseIPv6_loop_last by (first [apply group_range; assumption | lia]) ];
  try (cbv -[Z.shiftr Z.modulo group];
       rewrite ?group_hi, ?group_lo by assumption;
       reflexivity).

(** the bytes inside the run are zero *)
Ltac zero_byte Hz t :=
  try (match type of Hz with
       | zero_between ?p _ _ =>
           let Ht := fresh "Ht" in
           assert (Ht : net.idx p t = 0) by (apply Hz; lia);
           cbv in Ht; subst
       end).

Ltac zero_bytes Hz :=
  zero_byte Hz 0; zero_byte Hz 1; zero_byte Hz 2; zero_byte Hz 3;
  zero_byte Hz 4; zero_byte Hz 5; zero_byte Hz 6; zero_byte Hz 7;
  zero_byte Hz 8; zero_byte Hz 9; zero_byte Hz 10; zero_byte Hz 11;
  zero_byte Hz 12; zero_byte Hz 13; zero_byte Hz 14; zero_byte Hz 15.

Lemma ParseIP_text6 ip :
  length ip = 16%nat -> Forall is_byte ip ->
  net.ParseIP_opt (text6 ip) = Some ip.
Proof.
  intros Hlen Hb.
  do 16 (destruct ip as [|? ip]; [discriminate|]). destruct ip; [|discriminate].
  clear Hlen.
  repeat match goal with
         | H : Forall _ (_ :: _) |- _ => apply Forall_cons in H as [? H]
         end.
  clear Hb. unfold is_byte in *. unfold text6.
  destruct (net.longest_zeros _) as [e0 e1] eqn:E.
  apply longest_zeros_spec in E.
  destruct E as [[-> ->]|(Hr0 & Hr1 & Hr2 & Hr3 & Hr4 & Hz)].
  - render_text. parse_text.
  - assert (e0 = 0 \/ e0 = 2 \/ e0 = 4 \/ e0 = 6 \/ e0 = 8 \/ e0 = 10 \/ e0 = 12) as He0
      by lia_mod.
    assert (e1 = 4 \/ e1 = 6 \/ e1 = 8 \/ e1 = 10 \/ e1 = 12 \/ e1 = 14 \/ e1 = 16) as He1
      by lia_mod.
    clear Hr3 Hr4.
    destruct He0 as [->|[->|[->|[->|[->|[->| ->]]]]]];
      destruct He1 as [->|[->|[->|[->|[->|[->| ->]]]]]];
      try lia; clear Hr0 Hr1 Hr2; zero_bytes Hz; clear Hz; render_text; parse_text.
Qed.

(** ** The text of an address and its way back *)

Lemma host_byte_not_bracket x :
  is_host_byte x = true ->
  negb (Ascii.eqb x "[") = true /\ negb (Ascii.eqb x "]") = true.
Proof.
  destruct x as [[] [] [] [] [] [] [] []]; vm_compute; intros H;
    first [discriminate H | split; reflexivity].
Qed.

Lemma digit_is_hex x : is_digit x = true -> is_hex x = true.
Proof. intros H. unfold is_hex. rewrite H. reflexivity. Qed.

Lemma hex_is_host_byte x : is_hex x = true -> is_host_byte x = true.
Proof. intros H. unfold is_host_byte. rewrite H. reflexivity. Qed.

Lemma digit_lacks c s :
  is_digit c = false -> all_bytes is_digit s = true -> lacks c s.
Proof.
  intros Hc. unfold lacks. apply all_bytes_weaken. intros x Hx.
  apply negb_true_iff, Ascii.eqb_neq. intros ->. congruence.
Qed.

Lemma host_bytes_lack_brackets s :
  all_bytes is_host_byte s = true -> lacks "[" s /\ lacks "]" s.
Proof.
  intros H. split; unfold lacks; revert H; apply all_bytes_weaken; intros x Hx;
    apply (host_byte_not_bracket x Hx).
Qed.

Lemma ubtoa_host_bytes v : is_byte v -> all_bytes is_host_byte (net.ubtoa v) = true.
Proof.
  intros Hv. destruct (ubtoa_facts v Hv) as (_ & Hd & _). revert Hd.
  apply all_bytes_weaken. intros x Hx. apply hex_is_host_byte, digit_is_hex, Hx.
Qed.

Lemma dotted_host_bytes a b c d :
  is_byte a -> is_byte b -> is_byte c -> is_byte d ->
  all_bytes is_host_byte (dotted a b c d) = true.
Proof.
  intros Ha Hb Hc Hd. unfold dotted.
  rewrite !all_bytes_append, !ubtoa_host_bytes by assumption. reflexivity.
Qed.

Lemma idx_is_byte p i : Forall is_byte p -> is_byte (net.idx p i).
Proof.
  intros Hp. unfold net.idx, net.IP. destruct (p !! Z.to_nat i) as [b|] eqn:E.
  - exact (Forall_lookup_1 _ _ _ _ Hp E).
  - unfold is_byte. cbn. lia.
Qed.

Lemma hex_host_bytes g : 0 <= g < 65536 -> all_bytes is_host_byte (hex g) = true.
Proof.
  intros Hg. destruct (hex_facts g Hg) as (_ & Hh & _). revert Hh.
  apply all_bytes_weaken. intros x Hx. apply hex_is_host_byte, Hx.
Qed.

Lemma render6_host_bytes fuel p e0 e1 i :
  Forall is_byte p -> all_bytes is_host_byte (render6 fuel p e0 e1 i) = true.
Proof.
  intros Hp. revert i. induction fuel as [|fuel IH]; intros i; [reflexivity|].
  cbn [render6]. destruct (negb _); [reflexivity|].
  destruct (i =? e0).
  - destruct (_ <=? _); [reflexivity|].
    rewrite !all_bytes_append, IH, hex_host_bytes
      by (apply group_range; apply idx_is_byte, Hp).
    reflexivity.
  - rewrite !all_bytes_append, IH, hex_host_bytes
      by (apply group_range; apply idx_is_byte, Hp).
    destruct (0 <? i); reflexivity.
Qed.

Lemma text6_host_bytes p : Forall is_byte p -> all_bytes is_host_byte (text6 p) = true.
Proof.
  intros Hp. unfold text6. destruct (net.longest_zeros p) as [e0 e1].
  rewrite print6_loop_render6, append_nil_l. apply render6_host_bytes, Hp.
Qed.

(** The three shapes of [ip.String()] for an address the book can hold. *)
Lemma IP_String_shape ip :
  valid_ip ip ->
  (ip = [] /\ net.IP_String ip = "<nil>"%string) \/
  (exists a b c d, is_byte a /\ is_byte b /\ is_byte c /\ is_byte d /\
     To16 ip = net.IPv4 a b c d /\ net.IP_String ip = dotted a b c d) \/
  (length ip = 16%nat /\ To16 ip = ip /\ net.IP_String ip = text6 ip).
Proof.
  intros [Hb [Hl|[Hl|Hl]]].
  - left. destruct ip; [|discriminate]. split; reflexivity.
  - right. left. destruct ip as [|a [|b [|c [|d [|? ?]]]]]; try discriminate.
    repeat match goal with
           | H : Forall _ (_ :: _) |- _ => apply Forall_cons in H as [? H]
           end.
    exists a, b, c, d. repeat (split; [assumption|]). split; reflexivity.
  - right. unfold net.IP_String, net.To4, To16. rewrite Hl.
    change (Z.of_nat 16 =? 0) with false.
    change (Z.of_nat 16 =? net.IPv4len) with false.
    change (Z.of_nat 16 =? net.IPv6len) with true.
    cbv iota. cbn [andb negb].
    destruct (net.isZeros (take 10 ip) && (net.idx ip 10 =? 255) && (net.idx ip 11 =? 255))
      eqn:E.
    + left. do 12 (destruct ip as [|? ip]; [discriminate|]).
      destruct ip as [|a [|b [|c [|d [|? ?]]]]]; try discriminate.
      repeat match goal with
             | H : Forall _ (_ :: _) |- _ => apply Forall_cons in H as [? H]
             end.
      cbn in E. rewrite !andb_true_iff in E.
      repeat match goal with
             | H : _ /\ _ |- _ => destruct H
             | H : (_ =? _) = true |- _ => apply Z.eqb_eq in H
             end.
      repeat match goal with
             | H : net.idx _ _ = _ |- _ => cbv in H
             end.
      subst. exists a, b, c, d. repeat (split; [assumption|]). split; reflexivity.
    + right. split; [reflexivity|]. split; reflexivity.
Qed.

(** Parsing the text of an address gives the address back, in its
    16-byte form; and that form has the same text. *)
Lemma ParseIP_IP_String ip :
  valid_ip ip ->
  net.ParseIP (net.IP_String ip) = To16 ip /\
  net.IP_String (To16 ip) = net.IP_String ip /\
  all_bytes is_host_byte (net.IP_String ip) = true.
Proof.
  intros Hv. pose proof Hv as [Hb _].
  destruct (IP_String_shape ip Hv)
    as [[-> ->]|[(a & b & c & d & Ha & Hbb & Hc & Hd & H16 & Hs)|(Hl & H16 & Hs)]].
  - repeat split; reflexivity.
  - rewrite H16, Hs. split; [apply ParseIP_dotted; assumption|].
    split; [reflexivity|apply dotted_host_bytes; assumption].
  - rewrite H16. split; [|split; [reflexivity|]]; rewrite Hs.
    + unfold net.ParseIP. rewrite ParseIP_text6 by assumption. reflexivity.
    + apply text6_host_bytes, Hb.
Qed.

(** ** C1: key text, record, key text *)

Lemma Itoa_facts p :
  0 <= p < 65536 ->
  strconv.ParseUint (strconv.Itoa p) 10 16 = (p, None) /\
  all_bytes is_digit (strconv.Itoa p) = true.
Proof.
  intros Hp. pose proof (Itoa_ok_all p Hp) as H. unfold Itoa_ok in H. cbv zeta in H.
  apply andb_true_iff in H as [H1 H2]. split; [|exact H2].
  destruct (strconv.ParseUint (strconv.Itoa p) 10 16) as [v [e|]]; [discriminate|].
  apply Z.eqb_eq in H1. subst v. reflexivity.
Qed.

(** The text of an endpoint parses to the text of its address and to its
    port. *)
Lemma parsePeerKey_rendered ip port :
  valid_ip ip -> 0 <= port < 65536 ->
  parsePeerKey (net.JoinHostPort (net.IP_String ip) (strconv.Itoa port))
    = inl (net.IP_String ip, port).
Proof.
  intros Hip Hport. destruct (ParseIP_IP_String ip Hip) as (_ & _ & Hhost).
  destruct (host_bytes_lack_brackets _ Hhost) as [Hl Hr].
  destruct (Itoa_facts port Hport) as [Hparse Hdig].
  unfold parsePeerKey, PeerKey_String.
  rewrite SplitHostPort_JoinHostPort, Hparse;
    [reflexivity|assumption|assumption|..];
    apply digit_lacks; (reflexivity || assumption).
Qed.

(** C1, refuted as stated: three texts of valid host:port form with a
    16-bit port that do not come back as they were -- a host that is not
    an IP address, a port written with a leading zero, and an IPv4 host in
    brackets. *)
Lemma roundtrip_changes_text :
  (parsePeerKey "localhost:8233" = inl ("localhost"%string, 8233) /\
   fst <$> parse_then_render 0 "localhost:8233" NewAddressBook
     = Some (Some "<nil>:8233"%string)) /\
  (parsePeerKey "10.0.0.1:08233" = inl ("10.0.0.1"%string, 8233) /\
   fst <$> parse_then_render 0 "10.0.0.1:08233" NewAddressBook
     = Some (Some "10.0.0.1:8233"%string)) /\
  (parsePeerKey "[10.0.0.1]:8233" = inl ("10.0.0.1"%string, 8233) /\
   fst <$> parse_then_render 0 "[10.0.0.1]:8233" NewAddressBook
     = Some (Some "10.0.0.1:8233"%string)).
Proof. repeat split; vm_compute; reflexivity. Qed.

(** C1, amended: the round trip holds for the texts that [toKey]
    produces.  For every address that is nil or four or sixteen bytes long
    and every 16-bit port, the rendered text [t] parses without error, the
    record built from it has the same port and the same address (in its
    16-byte form), and rendering that record gives [t] again. *)
Theorem rendered_key_roundtrip st now a A ip port :
  addresses st !! a = Some A ->
  valid_ip ip ->
  0 <= port < 65536 ->
  let t := net.JoinHostPort (net.IP_String ip) (strconv.Itoa port) in
  exists st' n na,
    fromPeerKey now a t st = Some ((Some a, None), st') /\
    addresses st' !! a = Some (mkAddress (Some n) false (wire.Timestamp na)) /\
    netaddrs st' !! n = Some na /\
    wire.IP na = To16 ip /\ wire.Port na = port /\
    asPeerKey a st' = Some (t, st').
Proof.
  intros HA Hip Hport t.
  pose proof (parsePeerKey_rendered ip port Hip Hport) as Hp. fold t in Hp.
  destruct (ParseIP_IP_String ip Hip) as (Hparse & Hsame & _).
  exists (parsed_state now a (net.IP_String ip) port st), (fresh (dom (netaddrs st))),
    (wire.mkNetAddress (time.FromUnix (time.Unix now) 0) 0 (To16 ip) port).
  split; [apply (fromPeerKey_success _ _ _ _ _ _ _ Hp HA)|].
  assert (addresses (parsed_state now a (net.IP_String ip) port st) !! a
          = Some (mkAddress (Some (fresh (dom (netaddrs st)))) false
                    (time.FromUnix (time.Unix now) 0))) as HA'
    by (unfold parsed_state; cbn [addresses]; apply lookup_insert_eq).
  assert (netaddrs (parsed_state now a (net.IP_String ip) port st)
            !! fresh (dom (netaddrs st))
          = Some (wire.mkNetAddress (time.FromUnix (time.Unix now) 0) 0 (To16 ip) port))
    as Hna.
  { unfold parsed_state; cbn [netaddrs]. rewrite lookup_insert_eq.
    unfold wire.NewNetAddressTimestamp_val. rewrite Z.mod_small, Hparse by lia.
    reflexivity. }
  split; [exact HA'|]. split; [exact Hna|]. split; [reflexivity|].
  split; [reflexivity|].
  unfold asPeerKey. rewrite (Address_String_eq _ _ _ _ _ HA' eq_refl Hna).
  cbn [wire.IP wire.Port]. rewrite Hsame. reflexivity.
Qed.

Lemma rendered_key_roundtrip_witness :
  let ip := [32; 1; 13; 184; 0; 0; 0; 0; 0; 0; 0; 0; 0; 0; 0; 1] in
  let t := net.JoinHostPort (net.IP_String ip) (strconv.Itoa 8233) in
  t = "[2001:db8::1]:8233"%string /\
  exists st' n na,
    fromPeerKey 0 1%positive t book_one = Some ((Some 1%positive, None), st') /\
    addresses st' !! 1%positive = Some (mkAddress (Some n) false (wire.Timestamp na)) /\
    netaddrs st' !! n = Some na /\
    wire.IP na = To16 ip /\ wire.Port na = 8233 /\
    asPeerKey 1%positive st' = Some (t, st').
Proof.
  split; [reflexivity|].
  apply (rendered_key_roundtrip book_one 0 1%positive (mkAddress (Some 1%positive) false 0)
           [32; 1; 13; 184; 0; 0; 0; 0; 0; 0; 0; 0; 0; 0; 0; 1] 8233).
  - reflexivity.
  - split; [|right; right; reflexivity].
    repeat (apply Forall_cons; split; [unfold is_byte; lia|]). apply Forall_nil. trivial.
  - lia.
Defined.

(** * Further properties of the address book *)

(** ** Remove *)

Lemma IsBlacklisted_absent st k :
  addrs st !! k = None -> IsBlacklisted k st = Some (false, st).
Proof. intros E. unfold IsBlacklisted, bind, lookup_addr, ret. rewrite E. reflexivity. Qed.

(** [Remove(s)] deletes the entry of [s] and nothing else: afterwards
    [IsKnown(s)] and [IsBlacklisted(s)] are false and a second [Remove(s)]
    changes nothing; when [s] had no entry the state is not changed at
    all. *)
Theorem Remove_deletes st s :
  reachable st ->
  exists st', Remove s st = Some (tt, st') /\
    registry st' = delete s (registry st) /\
    IsKnown s st' = Some (false, st') /\
    IsBlacklisted s st' = Some (false, st') /\
    Remove s st' = Some (tt, st') /\
    (registry st !! s = None -> st' = st).
Proof.
  intros Hr. pose proof (reachable_wf _ Hr) as Hwf.
  eexists. split; [apply Remove_eq|]. split; [apply registry_deleted|].
  split; [apply IsKnown_absent; cbn [addrs]; apply lookup_delete_eq|].
  split; [apply IsBlacklisted_absent; cbn [addrs]; apply lookup_delete_eq|].
  split; [rewrite Remove_eq; cbn [netaddrs addresses addrs];
          rewrite delete_delete_eq; reflexivity|].
  intros Hn. apply (registry_None _ _ Hwf) in Hn.
  rewrite delete_id by exact Hn. destruct st; reflexivity.
Qed.

Lemma Remove_deletes_witness :
  exists st', Remove "10.0.0.1:8233" book_two = Some (tt, st') /\
    registry st' = delete "10.0.0.1:8233" (registry book_two) /\
    IsKnown "10.0.0.1:8233" st' = Some (false, st') /\
    IsBlacklisted "10.0.0.1:8233" st' = Some (false, st') /\
    Remove "10.0.0.1:8233" st' = Some (tt, st') /\
    (registry book_two !! "10.0.0.1:8233" = None -> st' = book_two).
Proof. exact (Remove_deletes book_two "10.0.0.1:8233" reachable_book_two). Defined.

(** ** Add *)

(** For a key text that parses, [Add] stores one entry -- the parsed
    endpoint with the time cut to whole seconds, not blacklisted -- under
    that text and leaves every other entry as it was; the count grows by
    one when the text had no entry and is unchanged when it had one. *)
Theorem Add_stores st now s host port :
  reachable st ->
  parsePeerKey s = inl (host, port) ->
  exists st', Add now s st = Some (tt, st') /\
    registry st' =
      <[s := mkEntry (Some (wire.mkNetAddress (time.FromUnix (time.Unix now) 0) 0
                              (net.ParseIP host) port))
                     false (time.FromUnix (time.Unix now) 0)]> (registry st) /\
    addrCount st' =
      match registry st !! s with
      | Some _ => addrCount st
      | None => addrCount st + 1
      end.
Proof.
  intros Hr Hp. pose proof (reachable_wf _ Hr) as Hwf.
  pose proof (parsePeerKey_port_range _ _ _ Hp) as Hrange.
  eexists. split; [apply (Add_success _ _ _ _ _ Hp)|]. split.
  - rewrite registry_inserted by exact Hwf. unfold wire.NewNetAddressTimestamp_val.
    rewrite Z.mod_small by lia. reflexivity.
  - destruct (addrs st !! s) as [l|] eqn:E.
    + destruct (registry_present _ _ _ Hwf E) as (A & _ & HR). rewrite HR.
      unfold addrCount, inserted_state. cbn [addrs].
      rewrite map_size_insert_Some by eauto. reflexivity.
    + rewrite (proj2 (registry_None _ s Hwf) E). apply addrCount_inserted, E.
Qed.

Lemma Add_stores_witness :
  exists st', Add 1500000000 "10.0.0.1:8233" book_two = Some (tt, st') /\
    registry st' =
      <[ "10.0.0.1:8233" :=
           mkEntry (Some (wire.mkNetAddress 1000000000 0 (net.IPv4 10 0 0 1) 8233))
                   false 1000000000]> (registry book_two) /\
    addrCount st' = addrCount book_two.
Proof.
  apply (Add_stores book_two 1500000000 "10.0.0.1:8233" "10.0.0.1" 8233).
  - exact reachable_book_two.
  - reflexivity.
Defined.

(** ** Calls on one key leave the other keys alone *)

Lemma call_step s st st' : call s st st' -> step st st'.
Proof.
  intros [now H|H|now H|now H];
    [eapply step_Add|eapply step_Remove|eapply step_Blacklist|eapply step_Touch];
    exact H.
Qed.

Lemma call_frame st st' s k :
  reachable st -> call s st st' -> k <> s ->
  registry st' !! k = registry st !! k.
Proof.
  intros Hr Hc Hne. pose proof (reachable_wf _ Hr) as Hwf.
  destruct Hc as [now H| H|now H|now H].
  - destruct (parsePeerKey s) as [[host port]|e] eqn:Hp.
    + rewrite (Add_success _ _ _ _ _ Hp) in H; simplify_eq.
      rewrite registry_inserted by exact Hwf. apply lookup_insert_ne. congruence.
    + rewrite (Add_error _ _ _ _ Hp) in H; simplify_eq.
      rewrite registry_dropped by exact Hwf. reflexivity.
  - rewrite Remove_eq in H; simplify_eq. rewrite registry_deleted.
    apply lookup_delete_ne. congruence.
  - destruct (addrs st !! s) as [l|] eqn:E.
    + destruct (registry_present _ _ _ Hwf E) as (A & HA & _).
      rewrite (Blacklist_present _ _ _ _ _ E HA) in H; simplify_eq.
      rewrite (registry_modified st s l A (fun A => mkAddress (netaddr A) true now) Hwf E HA).
      apply lookup_insert_ne. congruence.
    + destruct (parsePeerKey s) as [[host port]|e] eqn:Hp.
      * rewrite (Blacklist_absent_success _ _ _ _ _ E Hp) in H; simplify_eq.
        rewrite registry_inserted by exact Hwf. apply lookup_insert_ne. congruence.
      * rewrite (Blacklist_absent_error _ _ _ _ E Hp) in H; simplify_eq.
        rewrite registry_dropped by exact Hwf. reflexivity.
  - destruct (addrs st !! s) as [l|] eqn:E.
    + destruct (registry_present _ _ _ Hwf E) as (A & HA & _).
      rewrite (Touch_present _ _ _ _ _ E HA) in H; simplify_eq.
      rewrite (registry_modified st s l A (set_lastUpdate now) Hwf E HA).
      apply lookup_insert_ne. congruence.
    + rewrite (Touch_absent _ _ _ E) in H; simplify_eq. reflexivity.
Qed.


(** Whatever mutating method is called with the key text [s], the entry
    of every other key text is the same before and after. *)
Theorem other_keys_untouched st st' s k :
  reachable st ->
  call s st st' ->
  k <> s ->
  registry st' !! k = registry st !! k /\
  IsKnown k st' = Some (bool_decide (is_Some (registry st !! k)), st').
Proof.
  intros Hr Hc Hne. pose proof (call_frame st st' s k Hr Hc Hne) as Hf.
  split; [exact Hf|].
  assert (reachable st') as Hr' by (eapply reachable_step; [exact Hr|eapply call_step, Hc]).
  pose proof (reachable_wf _ Hr') as Hwf'. rewrite <- Hf.
  destruct (addrs st' !! k) as [l|] eqn:E.
  - destruct (registry_present _ _ _ Hwf' E) as (A & _ & HR). rewrite HR.
    rewrite bool_decide_eq_true_2 by eauto. apply (IsKnown_present _ _ _ E).
  - rewrite (proj2 (registry_None _ k Hwf') E).
    rewrite bool_decide_eq_false_2 by (intros [? ?]; discriminate).
    apply (IsKnown_absent _ _ E).
Qed.

Lemma other_keys_untouched_witness :
  registry book_two !! "10.0.0.1:8233" = registry book_one !! "10.0.0.1:8233" /\
  IsKnown "10.0.0.1:8233" book_two
    = Some (bool_decide (is_Some (registry book_one !! "10.0.0.1:8233")), book_two).
Proof.
  apply (other_keys_untouched book_one _ "10.0.0.1:08233" "10.0.0.1:8233").
  - exact reachable_book_one.
  - apply (call_Add _ _ _ 0). apply Add_success. reflexivity.
  - discriminate.
Defined.

(** ** No method panics *)

Lemma asNetAddress_eq st a A n na :
  addresses st !! a = Some A -> netaddr A = Some n -> netaddrs st !! n = Some na ->
  asNetAddress a st =
    Some (fresh (dom (netaddrs st)),
          mkState (<[fresh (dom (netaddrs st)) :=
                       wire.mkNetAddress (lastUpdate A) (wire.Services na)
                         (wire.IP na) (wire.Port na)]> (netaddrs st))
                  (addresses st) (addrs st)).
Proof.
  intros HA Hn Hna.
  unfold asNetAddress, bind, load_Address, load_NetAddress, alloc_NetAddress.
  rewrite HA, Hn, Hna. reflexivity.
Qed.

(** In every reachable state each method of the book returns: no call
    dereferences a nil or dangling pointer.  The same holds of the methods
    of a stored record. *)
Theorem methods_return st now s :
  reachable st ->
  is_Some (Add now s st) /\ is_Some (Remove s st) /\
  is_Some (Blacklist now s st) /\ is_Some (Touch now s st) /\
  is_Some (IsKnown s st) /\ is_Some (IsBlacklisted s st) /\
  (forall l, addrs st !! s = Some l ->
     is_Some (Address_String l st) /\ is_Some (MarshalText l st) /\
     is_Some (asNetAddress l st)).
Proof.
  intros Hr. pose proof (reachable_wf _ Hr) as Hwf.
  split; [|split; [|split; [|split; [|split; [|split]]]]].
  - destruct (parsePeerKey s) as [[host port]|e] eqn:Hp.
    + rewrite (Add_success _ _ _ _ _ Hp). eauto.
    + rewrite (Add_error _ _ _ _ Hp). eauto.
  - rewrite Remove_eq. eauto.
  - destruct (addrs st !! s) as [l|] eqn:E.
    + destruct (registry_present _ _ _ Hwf E) as (A & HA & _).
      rewrite (Blacklist_present _ _ _ _ _ E HA). eauto.
    + destruct (parsePeerKey s) as [[host port]|e] eqn:Hp.
      * rewrite (Blacklist_absent_success _ _ _ _ _ E Hp). eauto.
      * rewrite (Blacklist_absent_error _ _ _ _ E Hp). eauto.
  - destruct (addrs st !! s) as [l|] eqn:E.
    + destruct (registry_present _ _ _ Hwf E) as (A & HA & _).
      rewrite (Touch_present _ _ _ _ _ E HA). eauto.
    + rewrite (Touch_absent _ _ _ E). eauto.
  - rewrite IsKnown_eq. eauto.
  - destruct (addrs st !! s) as [l|] eqn:E.
    + destruct (registry_present _ _ _ Hwf E) as (A & HA & _).
      rewrite (IsBlacklisted_present _ _ _ _ E HA). eauto.
    + rewrite (IsBlacklisted_absent _ _ E). eauto.
  - intros l E.
    destruct (wf_built _ Hwf _ _ E) as (A & n & na & h & p & HA & Hn & Hna & _).
    pose proof (Address_String_eq _ _ _ _ _ HA Hn Hna) as HS.
    split; [rewrite HS; eauto|]. split.
    + unfold MarshalText, bind. rewrite HS. cbn. eauto.
    + rewrite (asNetAddress_eq _ _ _ _ _ HA Hn Hna). eauto.
Qed.

Lemma methods_return_witness :
  is_Some (Add 3 "10.0.0.1:8233" book_two) /\ is_Some (Remove "10.0.0.1:8233" book_two) /\
  is_Some (Blacklist 3 "10.0.0.1:8233" book_two) /\
  is_Some (Touch 3 "10.0.0.1:8233" book_two) /\
  is_Some (IsKnown "10.0.0.1:8233" book_two) /\
  is_Some (IsBlacklisted "10.0.0.1:8233" book_two) /\
  (forall l, addrs book_two !! "10.0.0.1:8233" = Some l ->
     is_Some (Address_String l book_two) /\ is_Some (MarshalText l book_two) /\
     is_Some (asNetAddress l book_two)).
Proof. exact (methods_return book_two 3 "10.0.0.1:8233" reachable_book_two). Defined.

(** ** The queries *)

(** [IsKnown] and [IsBlacklisted] read the registry and leave the state as
    it is: [IsKnown(s)] tells whether [s] has an entry, [IsBlacklisted(s)]
    is the flag of that entry and false without one.  So a key that is
    blacklisted is known. *)
Theorem queries_read_registry st s :
  reachable st ->
  IsKnown s st = Some (bool_decide (is_Some (registry st !! s)), st) /\
  IsBlacklisted s st =
    Some (match registry st !! s with Some e => flagged e | None => false end, st) /\
  (IsBlacklisted s st = Some (true, st) -> IsKnown s st = Some (true, st)).
Proof.
  intros Hr. pose proof (reachable_wf _ Hr) as Hwf.
  destruct (addrs st !! s) as [l|] eqn:E.
  - destruct (registry_present _ _ _ Hwf E) as (A & HA & HR). rewrite HR.
    rewrite bool_decide_eq_true_2 by eauto.
    rewrite (IsKnown_present _ _ _ E), (IsBlacklisted_present _ _ _ _ E HA).
    repeat split; reflexivity.
  - rewrite (proj2 (registry_None _ s Hwf) E).
    rewrite bool_decide_eq_false_2 by (intros [? ?]; discriminate).
    rewrite (IsKnown_absent _ _ E), (IsBlacklisted_absent _ _ E).
    repeat split; [reflexivity..|discriminate].
Qed.

Lemma queries_read_registry_witness :
  IsKnown "10.0.0.1:8233" book_one
    = Some (bool_decide (is_Some (registry book_one !! "10.0.0.1:8233")), book_one) /\
  IsBlacklisted "10.0.0.1:8233" book_one = Some (false, book_one) /\
  (IsBlacklisted "10.0.0.1:8233" book_one = Some (true, book_one) ->
   IsKnown "10.0.0.1:8233" book_one = Some (true, book_one)).
Proof. exact (queries_read_registry book_one "10.0.0.1:8233" reachable_book_one). Defined.

(** ** fromNetAddress and asNetAddress *)

(** [fromNetAddress] adopts the pointer it is given: the record points to
    the caller's [wire.NetAddress] (nothing is copied), its flag is false
    and its [lastUpdate] is the endpoint's timestamp; the error it returns
    is nil.  [asNetAddress] on that record then gives a new object, at
    another location, with the very value of the original.  A nil
    pointer makes [fromNetAddress] panic (it reads [na.Timestamp]). *)
Theorem fromNetAddress_then_asNetAddress st a A n na :
  addresses st !! a = Some A ->
  netaddrs st !! n = Some na ->
  exists st1 l st2,
    fromNetAddress a (Some n) st = Some ((Some a, None), st1) /\
    addresses st1 !! a = Some (mkAddress (Some n) false (wire.Timestamp na)) /\
    netaddrs st1 = netaddrs st /\ addrs st1 = addrs st /\
    asNetAddress a st1 = Some (l, st2) /\
    l <> n /\ netaddrs st2 !! l = Some na /\ netaddrs st2 !! n = Some na /\
    fromNetAddress a None st = None.
Proof.
  intros HA Hna.
  set (st1 := mkState (netaddrs st)
                (<[a := mkAddress (Some n) false (wire.Timestamp na)]> (addresses st))
                (addrs st)).
  assert (fresh (dom (netaddrs st)) <> n) as Hne
    by (intros <-; rewrite fresh_netaddrs_None in Hna; discriminate).
  assert (addresses st1 !! a = Some (mkAddress (Some n) false (wire.Timestamp na))) as HA1
    by (cbn [st1 addresses]; apply lookup_insert_eq).
  pose proof (asNetAddress_eq st1 a _ n na HA1 eq_refl Hna) as Has.
  cbn [st1 netaddrs addresses addrs lastUpdate] in Has.
  exists st1, (fresh (dom (netaddrs st))). eexists. split.
  { unfold fromNetAddress, bind, modify_Address, load_NetAddress, ret.
    rewrite HA.
    do 4 (cbn [addresses netaddrs addrs]; rewrite ?Hna, ?lookup_insert_eq).
    rewrite !insert_insert_eq. reflexivity. }
  split; [exact HA1|].
  split; [reflexivity|]. split; [reflexivity|]. split; [exact Has|].
  split; [exact Hne|]. cbn [netaddrs]. split.
  - rewrite lookup_insert_eq. destruct na; reflexivity.
  - split; [rewrite lookup_insert_ne by exact Hne; exact Hna|].
    unfold fromNetAddress, bind, modify_Address, load_NetAddress.
    rewrite HA. cbn [addresses]. rewrite lookup_insert_eq. reflexivity.
Qed.

Lemma fromNetAddress_then_asNetAddress_witness :
  exists st1 l st2,
    fromNetAddress 1%positive (Some 2%positive) book_two
      = Some ((Some 1%positive, None), st1) /\
    addresses st1 !! 1%positive = Some (mkAddress (Some 2%positive) false 0) /\
    netaddrs st1 = netaddrs book_two /\ addrs st1 = addrs book_two /\
    asNetAddress 1%positive st1 = Some (l, st2) /\
    l <> 2%positive /\
    netaddrs st2 !! l = Some (wire.mkNetAddress 0 0 (net.IPv4 10 0 0 1) 8233) /\
    netaddrs st2 !! 2%positive = Some (wire.mkNetAddress 0 0 (net.IPv4 10 0 0 1) 8233) /\
    fromNetAddress 1%positive None book_two = None.
Proof.
  apply (fromNetAddress_then_asNetAddress book_two 1%positive
           (mkAddress (Some 1%positive) false 0) 2%positive
           (wire.mkNetAddress 0 0 (net.IPv4 10 0 0 1) 8233)); reflexivity.
Defined.

(** ** Blacklist of an unknown key, beside Add *)

(** For a key text without an entry that parses, [Blacklist] stores the
    entry [Add] would store -- same endpoint, and the same [lastUpdate],
    cut to whole seconds -- with the flag set.  (On a key that has an
    entry, [Blacklist] sets [lastUpdate] to the time as it is.) *)
Theorem Blacklist_unknown_like_Add st now k host port :
  reachable st ->
  registry st !! k = None ->
  parsePeerKey k = inl (host, port) ->
  exists sa sb e,
    Add now k st = Some (tt, sa) /\
    Blacklist now k st = Some (tt, sb) /\
    registry sa = <[k := e]> (registry st) /\
    registry sb = <[k := mkEntry (endpoint e) true (updated e)]> (registry st) /\
    flagged e = false /\
    updated e = time.FromUnix (time.Unix now) 0.
Proof.
  intros Hr Hn Hp. pose proof (reachable_wf _ Hr) as Hwf.
  apply (registry_None _ _ Hwf) in Hn.
  eexists _, _, _. split; [apply (Add_success _ _ _ _ _ Hp)|].
  split; [apply (Blacklist_absent_success _ _ _ _ _ Hn Hp)|].
  split; [apply registry_inserted, Hwf|].
  split; [apply registry_inserted, Hwf|]. split; reflexivity.
Qed.

Lemma Blacklist_unknown_like_Add_witness :
  exists sa sb e,
    Add 1500000000 "10.0.0.2:8233" book_one = Some (tt, sa) /\
    Blacklist 1500000000 "10.0.0.2:8233" book_one = Some (tt, sb) /\
    registry sa = <[ "10.0.0.2:8233" := e]> (registry book_one) /\
    registry sb = <[ "10.0.0.2:8233" := mkEntry (endpoint e) true (updated e)]>
                    (registry book_one) /\
    flagged e = false /\
    updated e = 1000000000.
Proof.
  apply (Blacklist_unknown_like_Add book_one 1500000000 "10.0.0.2:8233" "10.0.0.2" 8233).
  - exact reachable_book_one.
  - reflexivity.
  - reflexivity.
Defined.

(** ** Touch, then asNetAddress *)

(** After [Touch(k)] at some time, [asNetAddress] on the record of [k]
    gives an endpoint whose address and port are those parsed from [k] and
    whose [Timestamp] is that time, with its full precision. *)
Theorem Touch_then_asNetAddress st now k l :
  reachable st ->
  addrs st !! k = Some l ->
  exists st1 p st2 host port,
    Touch now k st = Some (tt, st1) /\
    asNetAddress l st1 = Some (p, st2) /\
    parsePeerKey k = inl (host, port) /\
    netaddrs st2 !! p = Some (wire.mkNetAddress now 0 (net.ParseIP host) port).
Proof.
  intros Hr E. pose proof (reachable_wf _ Hr) as Hwf.
  destruct (wf_built _ Hwf _ _ E)
    as (A & n & na & host & port & HA & Hn & Hna & Hp & Hip & Hport & Hsv).
  eexists _, _, _, host, port. split; [apply (Touch_present _ _ _ _ _ E HA)|].
  split.
  { apply (asNetAddress_eq _ l (set_lastUpdate now A) n na);
      cbn [addresses netaddrs]; [apply lookup_insert_eq|exact Hn|exact Hna]. }
  split; [exact Hp|]. cbn [netaddrs]. rewrite lookup_insert_eq.
  cbn. rewrite Hip, Hport, Hsv. reflexivity.
Qed.

Lemma Touch_then_asNetAddress_witness :
  exists st1 p st2 host port,
    Touch 1500000000 "10.0.0.1:8233" book_one = Some (tt, st1) /\
    asNetAddress 1%positive st1 = Some (p, st2) /\
    parsePeerKey "10.0.0.1:8233" = inl (host, port) /\
    netaddrs st2 !! p = Some (wire.mkNetAddress 1500000000 0 (net.ParseIP host) port).
Proof.
  apply (Touch_then_asNetAddress book_one 1500000000 "10.0.0.1:8233" 1%positive).
  - exact reachable_book_one.
  - reflexivity.
Defined.

(** ** How long a key stays blacklisted *)

(** A blacklisted key stays blacklisted under every call on another key
    and under [Touch] and [Blacklist] on the key itself; only [Add] and
    [Remove] on the key itself clear the flag. *)
Theorem blacklisted_stays st st' s k :
  reachable st ->
  IsBlacklisted k st = Some (true, st) ->
  (s <> k /\ call s st st') \/
  (s = k /\ ((exists now, Touch now k st = Some (tt, st')) \/
             (exists now, Blacklist now k st = Some (tt, st')))) ->
  IsBlacklisted k st' = Some (true, st').
Proof.
  intros Hr Hb Hc. pose proof (reachable_wf _ Hr) as Hwf.
  destruct (addrs st !! k) as [l|] eqn:E;
    [|rewrite (IsBlacklisted_absent _ _ E) in Hb; discriminate].
  destruct (registry_present _ _ _ Hwf E) as (A & HA & HR).
  rewrite (IsBlacklisted_present _ _ _ _ E HA) in Hb.
  assert (blacklisted A = true) as HbA by congruence.
  assert (forall st2, reachable st2 ->
            (exists e, registry st2 !! k = Some e /\ flagged e = true) ->
            IsBlacklisted k st2 = Some (true, st2)) as Hback.
  { intros st2 Hr2 (e & He & Hf). pose proof (reachable_wf _ Hr2) as Hwf2.
    destruct (addrs st2 !! k) as [l2|] eqn:E2;
      [|apply (registry_None _ _ Hwf2) in E2; congruence].
    destruct (registry_present _ _ _ Hwf2 E2) as (A2 & HA2 & HR2).
    rewrite (IsBlacklisted_present _ _ _ _ E2 HA2).
    assert (e = entry_of st2 A2) as -> by congruence. cbn in Hf. rewrite Hf.
    reflexivity. }
  destruct Hc as [[Hne Hc]|[-> [[now H]|[now H]]]].
  - apply Hback.
    + apply (reachable_step st); [exact Hr|apply (call_step s), Hc].
    + exists (entry_of st A). split; [|exact HbA].
      rewrite (call_frame st st' s k Hr Hc); [exact HR|congruence].
  - rewrite (Touch_present _ _ _ _ _ E HA) in H; simplify_eq.
    rewrite (IsBlacklisted_present _ k l (set_lastUpdate now A));
      cbn [addrs addresses]; [|exact E|apply lookup_insert_eq].
    cbn. rewrite HbA. reflexivity.
  - rewrite (Blacklist_present _ _ _ _ _ E HA) in H; simplify_eq.
    apply (IsBlacklisted_present _ k l (mkAddress (netaddr A) true now));
      cbn [addrs addresses]; [exact E|apply lookup_insert_eq].
Qed.

Lemma blacklisted_stays_witness :
  let st1 := mkState (netaddrs book_two)
               (<[1%positive := mkAddress (Some 1%positive) true 3]> (addresses book_two))
               (addrs book_two) in
  let st2 := mkState (netaddrs st1) (addresses st1)
               (delete "10.0.0.1:08233" (addrs st1)) in
  Blacklist 3 "10.0.0.1:8233" book_two = Some (tt, st1) /\
  Remove "10.0.0.1:08233" st1 = Some (tt, st2) /\
  IsBlacklisted "10.0.0.1:8233" st2 = Some (true, st2).
Proof.
  intros st1 st2.
  assert (Blacklist 3 "10.0.0.1:8233" book_two = Some (tt, st1)) as H1
    by (apply (Blacklist_present _ _ _ 1%positive (mkAddress (Some 1%positive) false 0));
        reflexivity).
  assert (Remove "10.0.0.1:08233" st1 = Some (tt, st2)) as H2 by apply Remove_eq.
  split; [exact H1|]. split; [exact H2|].
  apply (blacklisted_stays st1 st2 "10.0.0.1:08233" "10.0.0.1:8233").
  - apply (reachable_step book_two); [exact reachable_book_two|].
    apply (step_Blacklist _ _ 3 "10.0.0.1:8233"). exact H1.
  - reflexivity.
  - left. split; [discriminate|]. apply call_Remove. exact H2.
Defined.

(** ** Add, then Remove *)

(** On a key text without an entry, [Add] followed by [Remove] gives the
    registry back as it was, whether the text parses or not. *)
Theorem Add_then_Remove_restores st now s :
  reachable st ->
  registry st !! s = None ->
  exists st1 st2,
    Add now s st = Some (tt, st1) /\
    Remove s st1 = Some (tt, st2) /\
    registry st2 = registry st /\ addrs st2 = addrs st.
Proof.
  intros Hr Hn. pose proof (reachable_wf _ Hr) as Hwf.
  pose proof (proj1 (registry_None _ _ Hwf) Hn) as E.
  destruct (parsePeerKey s) as [[host port]|e] eqn:Hp.
  - eexists _, _. split; [apply (Add_success _ _ _ _ _ Hp)|].
    split; [apply Remove_eq|]. rewrite registry_deleted.
    rewrite registry_inserted by exact Hwf. unfold inserted_state. cbn [addrs].
    rewrite !delete_insert_id by assumption. split; reflexivity.
  - eexists _, _. split; [apply (Add_error _ _ _ _ Hp)|].
    split; [apply Remove_eq|]. rewrite registry_deleted.
    rewrite registry_dropped by exact Hwf. unfold dropped_state. cbn [addrs].
    rewrite !delete_id by assumption. split; reflexivity.
Qed.

Lemma Add_then_Remove_restores_witness :
  exists st1 st2,
    Add 5 "10.0.0.2:8233" book_one = Some (tt, st1) /\
    Remove "10.0.0.2:8233" st1 = Some (tt, st2) /\
    registry st2 = registry book_one /\ addrs st2 = addrs book_one.
Proof.
  apply (Add_then_Remove_restores book_one 5 "10.0.0.2:8233").
  - exact reachable_book_one.
  - reflexivity.
Defined.

(** ** Which key texts [fromPeerKey] accepts *)

Lemma is_digit_value c : is_digit c = true -> 0 <= Str.code c - 48 <= 9.
Proof. unfold is_digit. intros [H1 H2]%andb_true_iff. lia. Qed.

Lemma dec_value_ge s n :
  all_bytes is_digit s = true -> 0 <= n -> n <= dec_value s n.
Proof.
  revert n. induction s as [|c s IH]; intros n Hs Hn; cbn [dec_value]; [lia|].
  cbn in Hs. apply andb_true_iff in Hs as [Hc Hs].
  pose proof (is_digit_value c Hc). specialize (IH (n * 10 + (Str.code c - 48)) Hs).
  lia.
Qed.

Lemma ParseUint_loop_digits s0 s n :
  all_bytes is_digit s = true -> 0 <= n <= 65535 ->
  strconv.ParseUint_loop s0 10 1844674407370955162 65535 s n =
    if dec_value s n <=? 65535 then (dec_value s n, None)
    else (65535, Some (NumError "ParseUint" s0 ErrRange)).
Proof.
  revert n. induction s as [|c s IH]; intros n Hs Hn.
  - cbn. destruct (Z.leb_spec n 65535); [reflexivity|lia].
  - cbn in Hs. apply andb_true_iff in Hs as [Hc Hs].
    pose proof (is_digit_value c Hc) as Hd.
    cbn [strconv.ParseUint_loop dec_value]. cbv zeta.
    unfold is_digit in Hc. rewrite Hc.
    destruct (Z.leb_spec 10 (Str.code c - 48)); [lia|].
    destruct (Z.leb_spec 1844674407370955162 n); [lia|].
    unfold strconv.u64. change (2 ^ 64) with 18446744073709551616.
    rewrite (Z.mod_small (n * 10)) by lia.
    rewrite (Z.mod_small (n * 10 + _)) by lia.
    destruct (Z.ltb_spec (n * 10 + (Str.code c - 48)) (n * 10)); [lia|]. cbn [orb].
    destruct (Z.ltb_spec 65535 (n * 10 + (Str.code c - 48))) as [Hbig|Hok].
    + pose proof (dec_value_ge s (n * 10 + (Str.code c - 48)) Hs ltac:(lia)).
      destruct (Z.leb_spec (dec_value s (n * 10 + (Str.code c - 48))) 65535); [lia|].
      reflexivity.
    + apply IH; [exact Hs|lia].
Qed.

Lemma ParseUint_loop_other s0 s n :
  all_bytes is_digit s = false -> 0 <= n <= 65535 ->
  exists v e,
    strconv.ParseUint_loop s0 10 1844674407370955162 65535 s n
      = (v, Some (NumError "ParseUint" s0 e)).
Proof.
  revert n. induction s as [|c s IH]; intros n Hs Hn; [discriminate|].
  cbn [strconv.ParseUint_loop]. cbv zeta. cbn in Hs.
  destruct (is_digit c) eqn:Hc.
  - pose proof (is_digit_value c Hc) as Hd. unfold is_digit in Hc. rewrite Hc.
    destruct (Z.leb_spec 10 (Str.code c - 48)); [lia|].
    destruct (Z.leb_spec 1844674407370955162 n); [lia|].
    unfold strconv.u64. change (2 ^ 64) with 18446744073709551616.
    rewrite (Z.mod_small (n * 10)) by lia.
    rewrite (Z.mod_small (n * 10 + _)) by lia.
    destruct (Z.ltb_spec (n * 10 + (Str.code c - 48)) (n * 10)); [lia|]. cbn [orb].
    destruct (Z.ltb_spec 65535 (n * 10 + (Str.code c - 48))) as [Hbig|Hok]; [eauto|].
    apply IH; [exact Hs|lia].
  - unfold is_digit in Hc. rewrite Hc.
    destruct ((97 <=? strconv.lower (Str.code c)) && (strconv.lower (Str.code c) <=? 122))
      eqn:Hl; [|eauto].
    apply andb_true_iff in Hl as [Hl _]. apply Z.leb_le in Hl.
    destruct (Z.leb_spec 10 (strconv.lower (Str.code c) - 97 + 10)); [eauto|lia].
Qed.

(** [ParseUint(ps, 10, 16)] succeeds exactly on the non-empty strings of
    decimal digits whose value is at most 65535, with that value. *)
Lemma ParseUint_16_spec ps :
  (ps <> ""%string /\ all_bytes is_digit ps = true /\ dec_value ps 0 <= 65535 /\
   strconv.ParseUint ps 10 16 = (dec_value ps 0, None)) \/
  ((ps = ""%string \/ all_bytes is_digit ps = false \/ 65535 < dec_value ps 0) /\
   exists v e, strconv.ParseUint ps 10 16 = (v, Some (NumError "ParseUint" ps e))).
Proof.
  unfold strconv.ParseUint. destruct (String.eqb_spec ps "") as [->|Hne].
  - right. split; [left; reflexivity|eauto].
  - cbn [Z.leb Z.compare andb negb Z.ltb orb].
    change (strconv.maxUint64 / 10 + 1) with 1844674407370955162.
    change (strconv.u64 (Z.shiftl 1 16 - 1)) with 65535.
    destruct (all_bytes is_digit ps) eqn:Hd.
    + rewrite (ParseUint_loop_digits ps ps 0 Hd) by lia.
      destruct (Z.leb_spec (dec_value ps 0) 65535).
      * left. auto.
      * right. split; [right; right; lia|eauto].
    + right. split; [right; left; reflexivity|].
      apply (ParseUint_loop_other ps ps 0 Hd). lia.
Qed.

(** A key text without a colon is refused with the error "missing port in
    address" (this includes the empty text); the record the call was made
    on and the state are left as they were. *)
Theorem key_without_colon_refused st now a s :
  lacks ":" s ->
  fromPeerKey now a s st
    = Some ((None, Some (AddrError "missing port in address" s)), st).
Proof.
  intros Hs. apply fromPeerKey_error. unfold parsePeerKey, PeerKey_String.
  unfold net.SplitHostPort. rewrite (last_absent _ _ Hs). reflexivity.
Qed.

Lemma key_without_colon_refused_witness :
  fromPeerKey 0 1%positive "" book_one
    = Some ((None, Some (AddrError "missing port in address" "")), book_one) /\
  fromPeerKey 0 1%positive "not-an-address" book_one
    = Some ((None, Some (AddrError "missing port in address" "not-an-address")), book_one).
Proof.
  split.
  - apply (key_without_colon_refused book_one 0 1%positive ""). reflexivity.
  - apply (key_without_colon_refused book_one 0 1%positive "not-an-address"). reflexivity.
Defined.

(** Once the text splits into host and port, [fromPeerKey] succeeds
    exactly when the port text is a non-empty string of decimal digits
    with a value of at most 65535, and that value is the port of the
    record; otherwise it returns a [strconv.NumError] for the port text
    and leaves the record and the state as they were.  The host plays no
    part in this. *)
Theorem port_decides_acceptance st now a A s host ps :
  addresses st !! a = Some A ->
  net.SplitHostPort (PeerKey_String s) = (host, ps, None) ->
  (ps <> ""%string /\ all_bytes is_digit ps = true /\ dec_value ps 0 <= 65535 /\
   fromPeerKey now a s st
     = Some ((Some a, None), parsed_state now a host (dec_value ps 0) st)) \/
  ((ps = ""%string \/ all_bytes is_digit ps = false \/ 65535 < dec_value ps 0) /\
   exists e, fromPeerKey now a s st
               = Some ((None, Some (NumError "ParseUint" ps e)), st)).
Proof.
  intros HA Hsplit.
  destruct (ParseUint_16_spec ps) as [(H1 & H2 & H3 & H4)|(H1 & v & e & H2)].
  - left. repeat (split; [assumption|]).
    apply (fromPeerKey_success _ _ _ _ _ _ A); [|exact HA].
    unfold parsePeerKey. rewrite Hsplit, H4. reflexivity.
  - right. split; [exact H1|]. exists e. apply fromPeerKey_error.
    unfold parsePeerKey. rewrite Hsplit, H2. reflexivity.
Qed.

Lemma port_decides_acceptance_witness :
  ("65536"%string <> ""%string /\ all_bytes is_digit "65536" = true /\
   dec_value "65536" 0 <= 65535 /\
   fromPeerKey 0 1%positive "10.0.0.1:65536" book_one
     = Some ((Some 1%positive, None),
             parsed_state 0 1%positive "10.0.0.1" (dec_value "65536" 0) book_one)) \/
  (("65536"%string = ""%string \/ all_bytes is_digit "65536" = false \/
    65535 < dec_value "65536" 0) /\
   exists e, fromPeerKey 0 1%positive "10.0.0.1:65536" book_one
               = Some ((None, Some (NumError "ParseUint" "65536" e)), book_one)).
Proof.
  apply (port_decides_acceptance book_one 0 1%positive
           (mkAddress (Some 1%positive) false 0) "10.0.0.1:65536" "10.0.0.1" "65536");
    reflexivity.
Defined.

(** ** What [net.ParseIP] returns *)

Lemma upd_bytes p i v :
  Forall is_byte p -> is_byte v ->
  Forall is_byte (net.upd p i v) /\ length (net.upd p i v) = length p.
Proof.
  intros Hp Hv. unfold net.upd. split.
  - apply Forall_insert; assumption.
  - apply length_insert.
Qed.

Lemma mod_256_byte n : is_byte (n mod 256).
Proof. unfold is_byte. apply Z.mod_pos_bound. lia. Qed.

Lemma parseIPv4_loop_bytes fuel i s p s' p' :
  net.parseIPv4_loop fuel i s p = Some (s', p') ->
  Forall is_byte p ->
  Forall is_byte p' /\ length p' = length p.
Proof.
  revert i s p. induction fuel as [|fuel IH]; intros i s p; cbn [net.parseIPv4_loop].
  - intros [= <- <-] Hp. auto.
  - destruct (Str.len s =? 0); [discriminate|].
    destruct (if 0 <? i then _ else _) as [s1|]; [|discriminate].
    destruct (net.dtoi s1) as [[n c] ok].
    destruct (negb ok || (255 <? n)); [discriminate|].
    destruct (_ && _); [discriminate|].
    intros H Hp.
    destruct (upd_bytes p i (n mod 256) Hp (mod_256_byte n)) as [Hb Hl].
    destruct (IH _ _ _ H Hb) as [Hb' Hl']. split; [exact Hb'|congruence].
Qed.

Lemma parseIPv4_bytes s ip :
  net.parseIPv4 s = Some ip -> Forall is_byte ip /\ length ip = 16%nat.
Proof.
  unfold net.parseIPv4.
  destruct (net.parseIPv4_loop 4 0 s [0; 0; 0; 0]) as [[s' p]|] eqn:E; [|discriminate].
  destruct (negb (Str.len s' =? 0)); [discriminate|]. intros [= <-].
  assert (Forall is_byte [0; 0; 0; 0]) as H0
    by (repeat (apply Forall_cons; split; [unfold is_byte; lia|]); apply Forall_nil; trivial).
  destruct (parseIPv4_loop_bytes _ _ _ _ _ _ E H0) as [Hb _].
  split; [|reflexivity]. unfold net.IPv4, net.v4InV6Prefix.
  repeat (apply Forall_cons; split;
          [first [apply idx_is_byte; exact Hb | unfold is_byte; lia]|]).
  apply Forall_nil. trivial.
Qed.

Lemma parseIPv6_loop_bytes fuel s i ellipsis ip s' i' ellipsis' ip' :
  net.parseIPv6_loop fuel s i ellipsis ip = Some (s', i', ellipsis', ip') ->
  Forall is_byte ip ->
  Forall is_byte ip' /\ length ip' = length ip.
Proof.
  revert s i ellipsis ip. induction fuel as [|fuel IH]; intros s i ellipsis ip;
    cbn [net.parseIPv6_loop].
  - intros [= <- <- <- <-] Hp. auto.
  - destruct (negb (i <? net.IPv6len)); [intros [= <- <- <- <-] Hp; auto|].
    destruct (net.xtoi s) as [[n c] ok].
    destruct (negb ok || (65535 <? n)); [discriminate|].
    destruct ((c <? Str.len s) && _).
    + destruct (_ && _); [discriminate|].
      destruct (_ <? _); [discriminate|].
      destruct (net.parseIPv4 s) as [ip4|] eqn:E4; [|discriminate].
      intros [= <- <- <- <-] Hp.
      destruct (parseIPv4_bytes _ _ E4) as [Hb4 _].
      destruct (upd_bytes ip i _ Hp (idx_is_byte ip4 12 Hb4)) as [H1 L1].
      destruct (upd_bytes _ (i + 1) _ H1 (idx_is_byte ip4 13 Hb4)) as [H2 L2].
      destruct (upd_bytes _ (i + 2) _ H2 (idx_is_byte ip4 14 Hb4)) as [H3 L3].
      destruct (upd_bytes _ (i + 3) _ H3 (idx_is_byte ip4 15 Hb4)) as [H4 L4].
      split; [exact H4|congruence].
    + cbv zeta. intros H Hp.
      destruct (upd_bytes ip i _ Hp (mod_256_byte (Z.shiftr n 8))) as [H1 L1].
      destruct (upd_bytes _ (i + 1) _ H1 (mod_256_byte n)) as [H2 L2].
      assert (length (net.upd (net.upd ip i (Z.shiftr n 8 mod 256)) (i + 1) (n mod 256))
              = length ip) as L by congruence.
      revert H.
      destruct (Str.len (Str.from c s) =? 0); [intros [= <- <- <- <-]; auto|].
      destruct (_ || _); [discriminate|].
      destruct (bool_decide _).
      * destruct (0 <=? ellipsis); [discriminate|].
        destruct (Str.len _ =? 0); [intros [= <- <- <- <-]; auto|].
        intros H. destruct (IH _ _ _ _ H H2) as [Hb' Hl']. split; [exact Hb'|congruence].
      * intros H. destruct (IH _ _ _ _ H H2) as [Hb' Hl']. split; [exact Hb'|congruence].
Qed.

Lemma move_up_bytes cnt j n ip :
  Forall is_byte ip ->
  Forall is_byte (net.move_up cnt j n ip) /\ length (net.move_up cnt j n ip) = length ip.
Proof.
  revert j ip. induction cnt as [|cnt IH]; intros j ip Hp; cbn [net.move_up]; [auto|].
  destruct (upd_bytes ip (j + n) _ Hp (idx_is_byte ip j Hp)) as [H1 L1].
  destruct (IH (j - 1) _ H1) as [H2 L2]. split; [exact H2|congruence].
Qed.

Lemma zero_down_bytes cnt j ip :
  Forall is_byte ip ->
  Forall is_byte (net.zero_down cnt j ip) /\ length (net.zero_down cnt j ip) = length ip.
Proof.
  revert j ip. induction cnt as [|cnt IH]; intros j ip Hp; cbn [net.zero_down]; [auto|].
  assert (is_byte 0) as H0 by (unfold is_byte; lia).
  destruct (upd_bytes ip j 0 Hp H0) as [H1 L1].
  destruct (IH (j - 1) _ H1) as [H2 L2]. split; [exact H2|congruence].
Qed.

Lemma zeros16_bytes : Forall is_byte (replicate 16 0) /\ length (replicate 16 0) = 16%nat.
Proof.
  split; [|reflexivity]. apply Forall_replicate. unfold is_byte. lia.
Qed.

Lemma parseIPv6_bytes s ip :
  net.parseIPv6 s = Some ip -> Forall is_byte ip /\ length ip = 16%nat.
Proof.
  unfold net.parseIPv6. destruct zeros16_bytes as [Hz Lz].
  destruct (_ && (Str.len _ =? 0)); [intros [= <-]; auto|].
  destruct (net.parseIPv6_loop _ _ _ _ _) as [[[[s' i] e] ip']|] eqn:E; [|discriminate].
  destruct (parseIPv6_loop_bytes _ _ _ _ _ _ _ _ _ E Hz) as [Hb Hl].
  destruct (negb _); [discriminate|].
  destruct (i <? net.IPv6len).
  - destruct (e <? 0); [discriminate|]. cbv zeta. intros [= <-].
    destruct (move_up_bytes (Z.to_nat (i - e)) (i - 1) (net.IPv6len - i) ip' Hb) as [H1 L1].
    destruct (zero_down_bytes (Z.to_nat (net.IPv6len - i)) (e + (net.IPv6len - i) - 1) _ H1)
      as [H2 L2].
    split; [exact H2|congruence].
  - destruct (0 <=? e); [discriminate|]. intros [= <-]. split; [exact Hb|congruence].
Qed.

Lemma ParseIP_scan_cases s0 s :
  net.ParseIP_scan s0 s = None \/
  net.ParseIP_scan s0 s = net.parseIPv4 s0 \/
  net.ParseIP_scan s0 s = net.parseIPv6 s0.
Proof.
  induction s as [|c s IH]; [left; reflexivity|].
  cbn [net.ParseIP_scan].
  destruct c as [[] [] [] [] [] [] [] []]; auto.
Qed.

(** [net.ParseIP] returns nil or sixteen bytes. *)
Lemma ParseIP_bytes s :
  Forall is_byte (net.ParseIP s) /\
  (length (net.ParseIP s) = 0 \/ length (net.ParseIP s) = 16)%nat.
Proof.
  unfold net.ParseIP, net.ParseIP_opt.
  destruct (net.ParseIP_scan s s) as [ip|] eqn:E; cbn [default]; [|auto].
  destruct (ParseIP_scan_cases s s) as [H|[H|H]]; rewrite H in E; [discriminate| |].
  - destruct (parseIPv4_bytes _ _ E). auto.
  - destruct (parseIPv6_bytes _ _ E). auto.
Qed.

Lemma ParseIP_valid s : valid_ip (net.ParseIP s).
Proof.
  destruct (ParseIP_bytes s) as [Hb [Hl|Hl]]; split; auto.
Qed.

(** ** The records of a reachable book *)

(** In every reachable state, the text of each key parses, and its record
    holds what was parsed: a non-nil endpoint whose address is
    [net.ParseIP] of the host -- nil or sixteen bytes -- whose port is
    the parsed 16-bit port and whose service flags are 0. *)
Theorem stored_records_are_parsed st k e :
  reachable st ->
  registry st !! k = Some e ->
  exists host port na,
    parsePeerKey k = inl (host, port) /\
    endpoint e = Some na /\
    wire.IP na = net.ParseIP host /\
    (length (wire.IP na) = 0 \/ length (wire.IP na) = 16)%nat /\
    Forall is_byte (wire.IP na) /\
    wire.Port na = port /\ 0 <= port <= 65535 /\
    wire.Services na = 0.
Proof.
  intros Hr He. pose proof (reachable_wf _ Hr) as Hwf.
  destruct (addrs st !! k) as [l|] eqn:E;
    [|apply (registry_None _ _ Hwf) in E; congruence].
  destruct (wf_built _ Hwf _ _ E)
    as (A & n & na & host & port & HA & Hn & Hna & Hp & Hip & Hport & Hsv).
  rewrite registry_lookup, E, HA in He. cbn in He. injection He as <-.
  exists host, port, na. split; [exact Hp|].
  split; [unfold entry_of; cbn; rewrite Hn; exact Hna|].
  destruct (ParseIP_bytes host) as [Hb Hl]. rewrite Hip.
  pose proof (parsePeerKey_port_range _ _ _ Hp).
  split; [reflexivity|]. repeat (split; [assumption|]). exact Hsv.
Qed.

Lemma stored_records_are_parsed_witness :
  exists host port na,
    parsePeerKey "10.0.0.1:08233" = inl (host, port) /\
    Some (wire.mkNetAddress 0 0 (net.IPv4 10 0 0 1) 8233) = Some na /\
    wire.IP na = net.ParseIP host /\
    (length (wire.IP na) = 0 \/ length (wire.IP na) = 16)%nat /\
    Forall is_byte (wire.IP na) /\
    wire.Port na = port /\ 0 <= port <= 65535 /\
    wire.Services na = 0.
Proof.
  apply (stored_records_are_parsed book_two "10.0.0.1:08233"
           (mkEntry (Some (wire.mkNetAddress 0 0 (net.IPv4 10 0 0 1) 8233)) false 0)).
  - exact reachable_book_two.
  - reflexivity.
Defined.

(** ** The rendered text of a stored record *)

(** In every reachable state the text a stored record renders to is a
    canonical form: it is the rendering of the host and port parsed from
    the record's key, [Add] accepts it, and the record [Add] stores under
    it renders to the same text again. *)
Theorem rendered_text_is_canonical st now k l :
  reachable st ->
  addrs st !! k = Some l ->
  exists t host port st' l',
    parsePeerKey k = inl (host, port) /\
    asPeerKey l st = Some (t, st) /\
    t = canonical host port /\
    Add now t st = Some (tt, st') /\
    addrs st' !! t = Some l' /\
    asPeerKey l' st' = Some (t, st').
Proof.
  intros Hr E. pose proof (reachable_wf _ Hr) as Hwf.
  destruct (wf_built _ Hwf _ _ E)
    as (A & n & na & host & port & HA & Hn & Hna & Hp & Hip & Hport & Hsv).
  pose proof (parsePeerKey_port_range _ _ _ Hp) as Hrange.
  pose proof (ParseIP_valid host) as Hv.
  destruct (ParseIP_IP_String _ Hv) as (Hparse & Hsame & _).
  assert (To16 (net.ParseIP host) = net.ParseIP host) as H16.
  { destruct (ParseIP_bytes host) as [_ [Hl|Hl]]; unfold To16; rewrite Hl; [|reflexivity].
    destruct (net.ParseIP host); [reflexivity|discriminate]. }
  pose proof (parsePeerKey_rendered _ port Hv ltac:(lia)) as Hpt.
  fold (canonical host port) in Hpt.
  exists (canonical host port), host, port,
    (inserted_state now (canonical host port) (net.IP_String (net.ParseIP host)) port
       false st),
    (fresh (dom (addresses st))).
  split; [exact Hp|]. split.
  { unfold asPeerKey, canonical. rewrite (Address_String_eq _ _ _ _ _ HA Hn Hna).
    rewrite Hip, Hport. reflexivity. }
  split; [reflexivity|]. split; [apply (Add_success _ _ _ _ _ Hpt)|].
  split; [unfold inserted_state; cbn [addrs]; apply lookup_insert_eq|].
  unfold asPeerKey.
  rewrite (Address_String_eq _ _
             (mkAddress (Some (fresh (dom (netaddrs st)))) false
                (time.FromUnix (time.Unix now) 0))
             (fresh (dom (netaddrs st)))
             (wire.NewNetAddressTimestamp_val now 0
                (net.ParseIP (net.IP_String (net.ParseIP host))) (port mod 65536)));
    [|unfold inserted_state; cbn [addresses netaddrs]; apply lookup_insert_eq
     |reflexivity
     |unfold inserted_state; cbn [addresses netaddrs]; apply lookup_insert_eq].
  cbn [wire.IP wire.Port wire.NewNetAddressTimestamp_val].
  rewrite Hparse, H16, Z.mod_small by lia. reflexivity.
Qed.

Lemma rendered_text_is_canonical_witness :
  exists t host port st' l',
    parsePeerKey "10.0.0.1:08233" = inl (host, port) /\
    asPeerKey 2%positive book_two = Some (t, book_two) /\
    t = canonical host port /\
    Add 7 t book_two = Some (tt, st') /\
    addrs st' !! t = Some l' /\
    asPeerKey l' st' = Some (t, st').
Proof.
  apply (rendered_text_is_canonical book_two 7 "10.0.0.1:08233" 2%positive).
  - exact reachable_book_two.
  - reflexivity.
Defined.

(** ** The shape of an accepted key text *)

Lemma last_neg_lacks s c : Str.last s c < 0 -> lacks c s.
Proof.
  induction s as [|x s IH]; [reflexivity|]. cbn [Str.last].
  destruct (Z.leb_spec 0 (Str.last s c)) as [Hpos|Hneg]; [lia|].
  destruct (Ascii.eqb x c) eqn:E; [lia|]. intros _.
  apply lacks_cons. split; [apply Ascii.eqb_neq, E|apply IH, Hneg].
Qed.

Lemma last_split s c :
  0 <= Str.last s c ->
  exists a b, s = a +:+ String c b /\ lacks c b /\ Str.len a = Str.last s c.
Proof.
  induction s as [|x s IH]; cbn [Str.last]; [lia|].
  destruct (Z.leb_spec 0 (Str.last s c)) as [Hpos|Hneg].
  - intros _. destruct (IH Hpos) as (a & b & -> & Hb & Hl).
    exists (String x a), b. rewrite append_cons, len_cons. auto with lia.
  - destruct (Ascii.eqb_spec x c) as [->|Hne]; [|lia]. intros _.
    exists ""%string, s. split; [reflexivity|]. split; [|reflexivity].
    apply last_neg_lacks, Hneg.
Qed.

Lemma IndexByteString_split s c :
  0 <= Str.IndexByteString s c ->
  exists a b, s = a +:+ String c b /\ lacks c a /\ Str.len a = Str.IndexByteString s c.
Proof.
  induction s as [|x s IH]; cbn [Str.IndexByteString]; [lia|].
  destruct (Ascii.eqb_spec x c) as [->|Hne].
  - intros _. exists ""%string, s. repeat split; reflexivity.
  - destruct (Z.ltb_spec (Str.IndexByteString s c) 0) as [Hneg|Hpos]; [lia|]. intros _.
    destruct (IH Hpos) as (a & b & -> & Ha & Hl).
    exists (String x a), b. rewrite append_cons, len_cons.
    split; [reflexivity|]. split; [apply lacks_cons; auto|lia].
Qed.

Lemma append_inj_len (a1 b1 a2 b2 : string) :
  a1 +:+ b1 = a2 +:+ b2 -> Str.len a1 = Str.len a2 -> a1 = a2 /\ b1 = b2.
Proof.
  revert a2. induction a1 as [|x a1 IH]; intros [|y a2]; rewrite ?len_cons, ?len_nil.
  - auto.
  - pose proof (len_nonneg a2). lia.
  - pose proof (len_nonneg a1). lia.
  - rewrite !append_cons. intros [= -> H] Hl.
    destruct (IH a2 H ltac:(lia)) as [-> ->]. auto.
Qed.

(** What [net.SplitHostPort] accepts is [host:port] with no colon in the
    host, or [[host]:port]; the port has no colon, and neither part has a
    bracket. *)
Lemma SplitHostPort_shape s host port :
  net.SplitHostPort s = (host, port, None) ->
  ((s = host +:+ ":" +:+ port /\ lacks ":" host) \/ s = "[" +:+ host +:+ "]:" +:+ port) /\
  lacks ":" port /\
  lacks "[" host /\ lacks "]" host /\ lacks "[" port /\ lacks "]" port.
Proof.
  unfold net.SplitHostPort.
  destruct (Z.ltb_spec (Str.last s ":") 0) as [|Hi]; [discriminate|].
  destruct (last_split s ":" Hi) as (a & b & Hs & Hb & Hla).
  rewrite <- Hla.
  assert (Str.from (Str.len a + 1) s = b) as Hport.
  { rewrite Hs. change (String ":" b) with (":" +:+ b). rewrite <- append_assoc.
    apply from_prefix. len_norm. lia. }
  rewrite Hport.
  destruct (bool_decide (Str.at_ s 0 = Some "["%char)) eqn:Hbr.
  - apply bool_decide_eq_true in Hbr.
    destruct (Z.ltb_spec (Str.IndexByteString s "]") 0) as [|He]; [discriminate|].
    destruct (_ =? Str.len s); [discriminate|].
    destruct (Z.eqb_spec (Str.IndexByteString s "]" + 1) (Str.len a)) as [Hend|];
      [|destruct (bool_decide _); discriminate].
    destruct (IndexByteString_split s "]" He) as (a' & b' & Hs' & Ha' & Hla').
    assert (a = a' +:+ "]" /\ String ":" b = b') as [-> <-].
    { apply append_inj_len.
      - rewrite <- Hs, append_assoc. exact Hs'.
      - len_norm. lia. }
    destruct a' as [|x h]; [rewrite Hs in Hbr; discriminate Hbr|].
    assert (x = "["%char) as ->
      by (rewrite Hs, !append_cons, at_0_cons in Hbr; congruence).
    apply lacks_cons in Ha' as [_ Hh].
    assert (Str.slice 1 (Str.IndexByteString s "]") s = h) as ->.
    { unfold Str.slice. rewrite <- Hla', len_cons.
      replace (Str.len h + 1 - 1) with (Str.len h) by lia.
      rewrite Hs. change (Str.drop (Z.to_nat 1) ((String "[" h +:+ "]") +:+ String ":" b))
        with ((h +:+ "]") +:+ String ":" b).
      rewrite append_assoc. apply upto_append. }
    assert (Str.from 1 s = (h +:+ "]") +:+ String ":" b) as -> by (rewrite Hs; reflexivity).
    assert (Str.from (Str.IndexByteString s "]" + 1) s = String ":" b) as ->.
    { rewrite Hend, Hs. apply from_append. }
    destruct (Z.leb_spec 0 (Str.IndexByteString ((h +:+ "]") +:+ String ":" b) "["))
      as [|Hl]; [discriminate|].
    destruct (Z.leb_spec 0 (Str.IndexByteString (String ":" b) "]")) as [|Hr];
      [discriminate|].
    intros [= <- <-].
    apply IndexByteString_neg_lacks in Hl, Hr.
    apply lacks_append in Hl as [[Hlh _]%lacks_append [_ Hlb]%lacks_cons].
    apply lacks_cons in Hr as [_ Hrb].
    split; [right; rewrite Hs, !append_assoc; reflexivity|]. auto.
  - assert (Str.upto (Str.len a) s = a) as -> by (rewrite Hs; apply upto_append).
    destruct (Z.leb_spec 0 (Str.IndexByteString a ":")) as [|Hc]; [discriminate|].
    rewrite from_0.
    destruct (Z.leb_spec 0 (Str.IndexByteString s "[")) as [|Hl]; [discriminate|].
    destruct (Z.leb_spec 0 (Str.IndexByteString s "]")) as [|Hr]; [discriminate|].
    intros [= <- <-].
    apply IndexByteString_neg_lacks in Hc, Hl, Hr. rewrite Hs in Hl, Hr.
    apply lacks_append in Hl as [Hla1 [_ Hlb]%lacks_cons].
    apply lacks_append in Hr as [Hra [_ Hrb]%lacks_cons].
    split; [left; split; [exact Hs|exact Hc]|]. auto.
Qed.

(** A key text that [fromPeerKey] accepts is [host:port] with no colon in
    the host, or [[host]:port], where the port is a non-empty string of
    decimal digits of value at most 65535 and the host has no bracket;
    the record is built from exactly that host and that value. *)
Theorem accepted_key_shape st now a A s r st' :
  addresses st !! a = Some A ->
  fromPeerKey now a s st = Some ((Some r, None), st') ->
  exists host ps,
    ((s = host +:+ ":" +:+ ps /\ lacks ":" host) \/ s = "[" +:+ host +:+ "]:" +:+ ps) /\
    lacks "[" host /\ lacks "]" host /\
    ps <> ""%string /\ all_bytes is_digit ps = true /\ dec_value ps 0 <= 65535 /\
    st' = parsed_state now a host (dec_value ps 0) st.
Proof.
  intros HA H.
  destruct (net.SplitHostPort (PeerKey_String s)) as [[host ps] [e|]] eqn:Hsplit.
  - rewrite (fromPeerKey_error now a s e st) in H; [discriminate|].
    unfold parsePeerKey. rewrite Hsplit. reflexivity.
  - destruct (ParseUint_16_spec ps) as [(H1 & H2 & H3 & H4)|(_ & v & e & H2)].
    + rewrite (fromPeerKey_success now a s host (dec_value ps 0) st A) in H;
        [|unfold parsePeerKey; rewrite Hsplit, H4; reflexivity|exact HA].
      injection H as _ <-. unfold PeerKey_String in Hsplit.
      destruct (SplitHostPort_shape s host ps Hsplit) as (Hs & _ & Hl & Hr & _).
      exists host, ps. auto 10.
    + rewrite (fromPeerKey_error now a s (NumError "ParseUint" ps e) st) in H;
        [discriminate|].
      unfold parsePeerKey. rewrite Hsplit, H2. reflexivity.
Qed.

Lemma accepted_key_shape_witness :
  exists host ps,
    (("[2001:db8::1]:08233"%string = host +:+ ":" +:+ ps /\ lacks ":" host) \/
     "[2001:db8::1]:08233"%string = "[" +:+ host +:+ "]:" +:+ ps) /\
    lacks "[" host /\ lacks "]" host /\
    ps <> ""%string /\ all_bytes is_digit ps = true /\ dec_value ps 0 <= 65535 /\
    parsed_state 0 1%positive "2001:db8::1" 8233 book_one
      = parsed_state 0 1%positive host (dec_value ps 0) book_one.
Proof.
  apply (accepted_key_shape book_one 0 1%positive (mkAddress (Some 1%positive) false 0)
           "[2001:db8::1]:08233" 1%positive).
  - reflexivity.
  - apply (fromPeerKey_success _ _ _ _ _ _ (mkAddress (Some 1%positive) false 0));
      reflexivity.
Defined.

(** ** The book as a map from key text to entry *)

Lemma invoke_step m s st st' : invoke m s st = Some (tt, st') -> step st st'.
Proof.
  destruct m as [now| |now|now]; cbn [invoke]; intros H;
    [eapply step_Add|eapply step_Remove|eapply step_Blacklist|eapply step_Touch];
    exact H.
Qed.

Lemma new_entry_inserted now s host port flag st :
  wf st -> parsePeerKey s = inl (host, port) ->
  registry (inserted_state now s host port flag st) =
    partial_alter (fun _ => new_entry now s flag) s (registry st).
Proof.
  intros Hwf Hp. rewrite registry_inserted by exact Hwf. unfold new_entry. rewrite Hp.
  pose proof (parsePeerKey_port_range _ _ _ Hp).
  unfold wire.NewNetAddressTimestamp_val. rewrite Z.mod_small by lia. reflexivity.
Qed.

Lemma invoke_registry st m s :
  reachable st ->
  exists st', invoke m s st = Some (tt, st') /\
    registry st' = partial_alter (entry_after m s) s (registry st).
Proof.
  intros Hr. pose proof (reachable_wf _ Hr) as Hwf.
  destruct m as [now| |now|now]; cbn [invoke].
  - destruct (parsePeerKey s) as [[host port]|e] eqn:Hp.
    + eexists. split; [apply (Add_success _ _ _ _ _ Hp)|].
      rewrite (new_entry_inserted _ _ _ _ _ _ Hwf Hp). apply partial_alter_ext.
      intros o _. cbn [entry_after]. unfold new_entry. rewrite Hp. reflexivity.
    + eexists. split; [apply (Add_error _ _ _ _ Hp)|].
      rewrite registry_dropped by exact Hwf. symmetry. apply partial_alter_id.
      cbn [entry_after]. unfold new_entry. rewrite Hp. reflexivity.
  - eexists. split; [apply Remove_eq|]. rewrite registry_deleted. reflexivity.
  - destruct (addrs st !! s) as [l|] eqn:E.
    + destruct (registry_present _ _ _ Hwf E) as (A & HA & HR).
      eexists. split; [apply (Blacklist_present _ _ _ _ _ E HA)|].
      rewrite (registry_modified st s l A (fun A => mkAddress (netaddr A) true now) Hwf E HA).
      apply partial_alter_ext. intros o Ho. rewrite HR in Ho. subst o. reflexivity.
    + pose proof (proj2 (registry_None _ s Hwf) E) as HR.
      destruct (parsePeerKey s) as [[host port]|e] eqn:Hp.
      * eexists. split; [apply (Blacklist_absent_success _ _ _ _ _ E Hp)|].
        rewrite (new_entry_inserted _ _ _ _ _ _ Hwf Hp). apply partial_alter_ext.
        intros o Ho. rewrite HR in Ho. subst o. reflexivity.
      * eexists. split; [apply (Blacklist_absent_error _ _ _ _ E Hp)|].
        rewrite registry_dropped by exact Hwf. symmetry. apply partial_alter_id.
        rewrite HR. cbn [entry_after]. unfold new_entry. rewrite Hp. reflexivity.
  - destruct (addrs st !! s) as [l|] eqn:E.
    + destruct (registry_present _ _ _ Hwf E) as (A & HA & HR).
      eexists. split; [apply (Touch_present _ _ _ _ _ E HA)|].
      rewrite (registry_modified st s l A (set_lastUpdate now) Hwf E HA).
      apply partial_alter_ext. intros o Ho. rewrite HR in Ho. subst o. reflexivity.
    + pose proof (proj2 (registry_None _ s Hwf) E) as HR.
      eexists. split; [apply (Touch_absent _ _ _ E)|].
      symmetry. apply partial_alter_id. rewrite HR. reflexivity.
Qed.

Lemma registry_size st : wf st -> size (registry st) = size (addrs st).
Proof.
  intros Hwf. rewrite <- !(size_dom (D := gset PeerKey)). f_equal.
  apply set_eq. intros k. rewrite !elem_of_dom.
  destruct (addrs st !! k) as [l|] eqn:E.
  - destruct (registry_present _ _ _ Hwf E) as (A & _ & ->). split; eauto.
  - rewrite (proj2 (registry_None _ k Hwf) E).
    split; intros [? ?]; discriminate.
Qed.

(** The book with its records behind pointers behaves as a plain map from
    key text to entry: in every reachable state each mutating method
    returns, its whole effect on the registry is to change the entry of
    its own key as [entry_after] says, and the count that
    [waitForAddresses] reads is the number of entries. *)
Theorem book_is_a_map st m s :
  reachable st ->
  exists st', invoke m s st = Some (tt, st') /\
    registry st' = partial_alter (entry_after m s) s (registry st) /\
    addrCount st' = Z.of_nat (size (registry st')).
Proof.
  intros Hr. destruct (invoke_registry st m s Hr) as (st' & Hi & HR).
  exists st'. split; [exact Hi|]. split; [exact HR|].
  unfold addrCount. f_equal. symmetry. apply registry_size, reachable_wf.
  eapply reachable_step; [exact Hr|]. eapply invoke_step, Hi.
Qed.

Lemma book_is_a_map_witness :
  exists st', invoke (mBlacklist 7) "10.0.0.1:8233" book_two = Some (tt, st') /\
    registry st' =
      partial_alter (entry_after (mBlacklist 7) "10.0.0.1:8233") "10.0.0.1:8233"
        (registry book_two) /\
    addrCount st' = Z.of_nat (size (registry st')).
Proof. exact (book_is_a_map book_two (mBlacklist 7) "10.0.0.1:8233" reachable_book_two). Defined.

(** Calls on different key texts commute: in either order they return and
    lead to the same registry. *)
Theorem calls_on_different_keys_commute st m1 m2 k1 k2 :
  reachable st ->
  k1 <> k2 ->
  exists s1 s12 s2 s21,
    invoke m1 k1 st = Some (tt, s1) /\ invoke m2 k2 s1 = Some (tt, s12) /\
    invoke m2 k2 st = Some (tt, s2) /\ invoke m1 k1 s2 = Some (tt, s21) /\
    registry s12 = registry s21.
Proof.
  intros Hr Hne.
  destruct (invoke_registry st m1 k1 Hr) as (s1 & H1 & R1).
  destruct (invoke_registry st m2 k2 Hr) as (s2 & H2 & R2).
  assert (reachable s1) as Hr1 by (eapply reachable_step; [exact Hr|eapply invoke_step, H1]).
  assert (reachable s2) as Hr2 by (eapply reachable_step; [exact Hr|eapply invoke_step, H2]).
  destruct (invoke_registry s1 m2 k2 Hr1) as (s12 & H12 & R12).
  destruct (invoke_registry s2 m1 k1 Hr2) as (s21 & H21 & R21).
  exists s1, s12, s2, s21. repeat (split; [assumption|]).
  rewrite R12, R21, R1, R2. rewrite partial_alter_partial_alter.
  rewrite decide_False by congruence. reflexivity.
Qed.

Lemma calls_on_different_keys_commute_witness :
  exists s1 s12 s2 s21,
    invoke (mAdd 5) "10.0.0.2:8233" book_one = Some (tt, s1) /\
    invoke (mBlacklist 9) "10.0.0.1:8233" s1 = Some (tt, s12) /\
    invoke (mBlacklist 9) "10.0.0.1:8233" book_one = Some (tt, s2) /\
    invoke (mAdd 5) "10.0.0.2:8233" s2 = Some (tt, s21) /\
    registry s12 = registry s21.
Proof.
  apply (calls_on_different_keys_commute book_one (mAdd 5) (mBlacklist 9)
           "10.0.0.2:8233" "10.0.0.1:8233").
  - exact reachable_book_one.
  - discriminate.
Defined.

(** ** A record without an endpoint *)

(** On a record whose [netaddr] is nil -- such as [&Address{}] before
    [fromPeerKey] or [fromNetAddress] has filled it -- [String],
    [asPeerKey], [MarshalText] and [asNetAddress] all panic: none of them
    checks the pointer, and [MarshalText] does not turn this into an
    error. *)
Theorem record_without_endpoint_panics st a A :
  addresses st !! a = Some A ->
  netaddr A = None ->
  Address_String a st = None /\ asPeerKey a st = None /\
  MarshalText a st = None /\ asNetAddress a st = None.
Proof.
  intros HA Hn.
  assert (Address_String a st = None) as HS
    by (unfold Address_String, bind, load_Address, load_NetAddress;
        rewrite HA, Hn; reflexivity).
  split; [exact HS|]. split; [exact HS|]. split.
  - unfold MarshalText, bind. rewrite HS. reflexivity.
  - unfold asNetAddress, bind, load_Address, load_NetAddress. rewrite HA, Hn.
    reflexivity.
Qed.

Lemma record_without_endpoint_panics_witness :
  let st := dropped_state book_one in
  Address_String 2%positive st = None /\ asPeerKey 2%positive st = None /\
  MarshalText 2%positive st = None /\ asNetAddress 2%positive st = None.
Proof.
  apply (record_without_endpoint_panics (dropped_state book_one) 2%positive Address_zero);
    reflexivity.
Defined.
